(** * agent-instability-notes: metrics, trace sanity checks and the
      synthetic trace generator

    A shallow embedding of

    - [scripts/compute_metrics_from_jsonl.py]   (module [Metrics]),
    - [scripts/trace_tree_sanity_checks.py]     (module [Sanity]),
    - [synthetic_traces/generate_synthetic_traces.py] (module [Generator]),

    over a small model of the Python values the scripts handle
    (module [Py]): decoded JSON values, the builtin coercions [str],
    [int], [float], truthiness, and exceptions as an error monad. *)

From Stdlib Require Import ZArith List ListSet String Ascii Bool Lia DecimalString.
From Stdlib Require Import Permutation.
From Stdlib Require Import DecimalN.
From Stdlib Require Import Floats.SpecFloat.
Import ListNotations.

#[local] Set Warnings "-register-all".
#[local] Open Scope string_scope.
#[local] Open Scope list_scope.
#[local] Open Scope Z_scope.

(* ====================================================================== *)
(** * Python values and builtins *)
(* ====================================================================== *)

Module Py.

(** ** Exceptions

    The exception classes that the scripts can meet: those raised on
    decoded JSON values, and those raised while a file is opened, read
    and decoded ([OSError] with its subclasses such as
    [FileNotFoundError], [UnicodeDecodeError], [RecursionError]).  A
    [try ... except (TypeError, ValueError)] block is
    [except_TypeError_ValueError]; it also catches [UnicodeDecodeError],
    a subclass of [ValueError]; everything else propagates. *)

Inductive exn : Type :=
| TypeError
| ValueError
| OverflowError
| AttributeError
| ZeroDivisionError
| OSError
| UnicodeDecodeError
| RecursionError.

Inductive result (A : Type) : Type :=
| Ok (a : A)
| Raise (e : exn).

Arguments Ok {A} a.
Arguments Raise {A} e.

Definition bind {A B : Type} (r : result A) (k : A -> result B) : result B :=
  match r with
  | Ok a => k a
  | Raise e => Raise e
  end.

Notation "x <- c ;; k" := (bind c (fun x => k))
  (at level 61, c at next level, right associativity).

(** A [for] loop whose body may raise: the first exception leaves the loop. *)
Fixpoint for_each {S E : Type} (body : S -> E -> result S)
         (items : list E) (st : S) : result S :=
  match items with
  | [] => Ok st
  | x :: rest => st' <- body st x ;; for_each body rest st'
  end.

Definition except_TypeError_ValueError {A : Type}
           (r : result A) (handler : A) : result A :=
  match r with
  | Raise TypeError | Raise ValueError | Raise UnicodeDecodeError => Ok handler
  | _ => r
  end.

(** ** Floats: IEEE 754 binary64, as CPython's [float] *)

Definition float := spec_float.

Definition prec : Z := 53.
Definition emax : Z := 1024.

Definition float_of_Z (z : Z) : float := binary_normalize prec emax z 0 false.

Definition fone : float := float_of_Z 1.
Definition fzero : float := S754_zero false.

Definition fsub (a b : float) : float := SFsub prec emax a b.
Definition fabs (a : float) : float := SFabs a.
(** [a < b]; false as soon as one side is NaN. *)
Definition fltb (a b : float) : bool := SFltb a b.
(** [a > b] *)
Definition fgtb (a b : float) : bool := SFltb b a.

Definition fis_zero (a : float) : bool :=
  match a with
  | S754_zero _ => true
  | _ => false
  end.

(** [a / b]: float division raises on a zero divisor. *)
Definition fdiv (a b : float) : result float :=
  if fis_zero b then Raise ZeroDivisionError else Ok (SFdiv prec emax a b).

(** [max(a, b, c)] on floats: the builtin keeps the first argument and
    replaces it only by a later one that compares strictly greater. *)
Definition max3 (a b c : float) : float :=
  let m := if fgtb b a then b else a in
  if fgtb c m then c else m.

(** Truncation toward zero of a finite float, as in [int(x)]. *)
Definition ftrunc (s : bool) (m : positive) (e : Z) : Z :=
  let mag := if 0 <=? e then Z.shiftl (Zpos m) e
             else Z.shiftr (Zpos m) (- e) in
  if s then - mag else mag.

(** ** Datetimes

    A [datetime] is its wall-clock time in microseconds since
    1970-01-01T00:00:00, with the UTC offset (microseconds) when it is
    timezone-aware. *)

Record datetime : Type := mkdt {
  dt_us : Z;
  dt_utcoffset : option Z
}.

(** [a < b] on datetimes: comparing a naive with an aware one raises. *)
Definition dt_lt (a b : datetime) : result bool :=
  match dt_utcoffset a, dt_utcoffset b with
  | None, None => Ok (dt_us a <? dt_us b)
  | Some oa, Some ob => Ok (dt_us a - oa <? dt_us b - ob)
  | _, _ => Raise TypeError
  end.

(** [d + timedelta(milliseconds=ms)] *)
Definition dt_add_ms (d : datetime) (ms : Z) : datetime :=
  mkdt (dt_us d + 1000 * ms) (dt_utcoffset d).

(** [d + timedelta(seconds=s)] *)
Definition dt_add_s (d : datetime) (s : Z) : datetime :=
  mkdt (dt_us d + 1000000 * s) (dt_utcoffset d).

(** ** Decoded JSON values

    What [json.loads] returns: [None], [bool], [int], [float], [str],
    [list] and [dict] with string keys.  A dict is kept as the list of its
    items in insertion order; lookup takes the first item with the key. *)

Inductive json : Type :=
| JNull
| JBool (b : bool)
| JInt (z : Z)
| JFloat (f : float)
| JStr (s : string)
| JList (l : list json)
| JDict (d : list (string * json)).

Definition dict : Type := list (string * json).

Fixpoint lookup (d : dict) (k : string) : option json :=
  match d with
  | [] => None
  | (k', v) :: rest => if String.eqb k' k then Some v else lookup rest k
  end.

(** [d.get(k)]: [None] when the key is missing. *)
Definition dict_get (d : dict) (k : string) : json :=
  match lookup d k with
  | Some v => v
  | None => JNull
  end.

(** [d.get(k, default)] *)
Definition dict_get_default (d : dict) (k : string) (default : json) : json :=
  match lookup d k with
  | Some v => v
  | None => default
  end.

Definition is_None (j : json) : bool :=
  match j with
  | JNull => true
  | _ => false
  end.

(** Truth value of an object, as tested by [if], [or] and [not]. *)
Definition truthy (j : json) : bool :=
  match j with
  | JNull => false
  | JBool b => b
  | JInt z => negb (z =? 0)
  | JFloat f => negb (fis_zero f)
  | JStr s => negb (String.eqb s "")
  | JList l => match l with [] => false | _ => true end
  | JDict d => match d with [] => false | _ => true end
  end.

(** [a or b] *)
Definition py_or (a b : json) : json := if truthy a then a else b.

(** [j == s] for a string literal [s]: only an equal [str] compares equal. *)
Definition eq_str (j : json) (s : string) : bool :=
  match j with
  | JStr t => String.eqb t s
  | _ => false
  end.

(** ** Strings

    A [str] is held as its UTF-8 encoding, one [ascii] per byte, which
    is how a string literal is read.  Equality, concatenation and the
    search for an ASCII character read the same on the encoding as on
    the code points; white space is recognised character by character,
    on the encoding of each.  A lone surrogate, which a JSON string can
    carry, is encoded like any code point of its range. *)

(** The UTF-8 encoding of the code point [n]. *)
Definition chr (n : N) : string :=
  let byte (b : N) (s : string) := String (ascii_of_N b) s in
  let continuation (b : N) := (128 + b mod 64)%N in
  (if n <? 128 then byte n ""
   else if n <? 2048 then
     byte (192 + n / 64) (byte (continuation n) "")
   else if n <? 65536 then
     byte (224 + n / 4096)
          (byte (continuation (n / 64)) (byte (continuation n) ""))
   else
     byte (240 + n / 262144)
          (byte (continuation (n / 4096))
                (byte (continuation (n / 64)) (byte (continuation n) ""))))%N.

(** The code points [c] with [c.isspace()]: U+0009..U+000D,
    U+001C..U+0020, U+0085, U+00A0, U+1680, U+2000..U+200A, U+2028,
    U+2029, U+202F, U+205F and U+3000. *)
Definition whitespace_code_points : list N :=
  [ 9; 10; 11; 12; 13; 28; 29; 30; 31; 32; 133; 160; 5760;
    8192; 8193; 8194; 8195; 8196; 8197; 8198; 8199; 8200; 8201; 8202;
    8232; 8233; 8239; 8287; 12288 ]%N.

(** The white space characters, encoded. *)
Definition whitespace : list string :=
  Eval vm_compute in map chr whitespace_code_points.

(** [ch.isspace()] for one character [ch]. *)
Definition isspace (ch : string) : bool := existsb (String.eqb ch) whitespace.

(** [s[len(p):]] when [s.startswith(p)]. *)
Fixpoint drop_prefix (p s : string) : option string :=
  match p, s with
  | EmptyString, _ => Some s
  | String a p', String b s' =>
      if Ascii.eqb a b then drop_prefix p' s' else None
  | String _ _, EmptyString => None
  end.

(** [s[1:]] when the first character of [s] is white space. *)
Definition drop_space (s : string) : option string :=
  fold_right (fun w found =>
                match drop_prefix w s with
                | Some rest => Some rest
                | None => found
                end)
             None whitespace.

(** At most [n] leading white space characters removed. *)
Fixpoint lstrip_upto (n : nat) (s : string) : string :=
  match n with
  | O => s
  | S n' =>
      match drop_space s with
      | Some rest => lstrip_upto n' rest
      | None => s
      end
  end.

(** [s.lstrip()]: a string has no more characters than bytes. *)
Definition lstrip (s : string) : string := lstrip_upto (String.length s) s.

(** [s.rstrip()]: cut where what follows is white space up to the end. *)
Fixpoint rstrip (s : string) : string :=
  match s with
  | EmptyString => EmptyString
  | String c s' =>
      if String.eqb (lstrip s) "" then EmptyString else String c (rstrip s')
  end.

(** [s.strip()] *)
Definition strip (s : string) : string := rstrip (lstrip s).

(** [s[:-1] if s.endswith("Z") else s] *)
Fixpoint drop_trailing_Z (s : string) : string :=
  match s with
  | EmptyString => EmptyString
  | String c EmptyString => if Ascii.eqb c "Z" then EmptyString else s
  | String c s' => String c (drop_trailing_Z s')
  end.

(** [str(z)] for an [int]. *)
Definition str_int (z : Z) : string := NilZero.string_of_int (Z.to_int z).

Fixpoint zeros (n : nat) : string :=
  match n with
  | O => EmptyString
  | S n' => String "0" (zeros n')
  end.

(** [f"{z:0{width}d}"]: sign first, then zeros up to [width] characters. *)
Definition format_0d (width : nat) (z : Z) : string :=
  let digits := NilZero.string_of_uint (N.to_uint (Z.abs_N z)) in
  let sign := if z <? 0 then "-" else "" in
  (sign ++ zeros (width - String.length sign - String.length digits) ++ digits)%string.

(** ** Dictionaries of lists and of counts

    A [defaultdict(list)], a [defaultdict(int)] or a [Counter], as the
    list of its items in insertion order; the keys are compared with
    [eqb]. *)

Section Dicts.
Context {K : Type} (eqb : K -> K -> bool).

(** [d[k].append(v)] on a [defaultdict(list)] *)
Fixpoint append_item {V : Type} (d : list (K * list V)) (k : K) (v : V)
  : list (K * list V) :=
  match d with
  | [] => [(k, [v])]
  | (k', vs) :: rest =>
      if eqb k' k then (k', vs ++ [v]) :: rest
      else (k', vs) :: append_item rest k v
  end.

(** [c[k] += 1] on a [defaultdict(int)] or a [Counter] *)
Fixpoint incr (c : list (K * Z)) (k : K) : list (K * Z) :=
  match c with
  | [] => [(k, 1)]
  | (k', n) :: rest =>
      if eqb k' k then (k', n + 1) :: rest else (k', n) :: incr rest k
  end.

(** The entry of [k], if any. *)
Fixpoint item {V : Type} (d : list (K * V)) (k : K) : option V :=
  match d with
  | [] => None
  | (k', v) :: rest => if eqb k' k then Some v else item rest k
  end.

End Dicts.

(** ** Library functions taken as parameters

    Parsing and printing of numbers and dates are CPython's own
    ([float(str)], [int(str)], [repr], [datetime.fromisoformat],
    [datetime.isoformat]).  The scripts are modelled over any
    implementation of them; [None] stands for the function raising
    [ValueError]. *)

Class Runtime : Type := {
  int_of_str : string -> option Z;
  float_of_str : string -> option float;
  str_float : float -> string;
  repr_str : string -> string;
  fromisoformat : string -> option datetime;
  isoformat_ms : datetime -> string
}.

Section Builtins.
Context {rt : Runtime}.

(** [repr(j)] *)
Fixpoint repr (j : json) : string :=
  match j with
  | JNull => "None"
  | JBool true => "True"
  | JBool false => "False"
  | JInt z => str_int z
  | JFloat f => str_float f
  | JStr s => repr_str s
  | JList l => ("[" ++ String.concat ", " (map repr l) ++ "]")%string
  | JDict d =>
      ("{" ++ String.concat ", "
                (map (fun kv => match kv with
                                | (k, v) => repr_str k ++ ": " ++ repr v
                                end) d) ++ "}")%string
  end.

(** [str(j)] *)
Definition str (j : json) : string :=
  match j with
  | JStr s => s
  | _ => repr j
  end.

(** [int(j)] *)
Definition int (j : json) : result Z :=
  match j with
  | JNull => Raise TypeError
  | JBool b => Ok (if b then 1 else 0)
  | JInt z => Ok z
  | JFloat f =>
      match f with
      | S754_nan => Raise ValueError
      | S754_infinity _ => Raise OverflowError
      | S754_zero _ => Ok 0
      | S754_finite s m e => Ok (ftrunc s m e)
      end
  | JStr s =>
      match int_of_str s with
      | Some z => Ok z
      | None => Raise ValueError
      end
  | JList _ | JDict _ => Raise TypeError
  end.

(** [float(j)]: an [int] too large for a double raises [OverflowError]. *)
Definition to_float (j : json) : result float :=
  match j with
  | JNull => Raise TypeError
  | JBool b => Ok (if b then fone else fzero)
  | JInt z =>
      match float_of_Z z with
      | S754_infinity _ => Raise OverflowError
      | f => Ok f
      end
  | JFloat f => Ok f
  | JStr s =>
      match float_of_str s with
      | Some f => Ok f
      | None => Raise ValueError
      end
  | JList _ | JDict _ => Raise TypeError
  end.

End Builtins.

End Py.

Import Py.

(* ====================================================================== *)
(** * scripts/compute_metrics_from_jsonl.py *)
(* ====================================================================== *)

Module Metrics.

(** [@dataclass class Event: raw: Dict[str, Any]] *)
Record Event : Type := mkEvent { raw : dict }.

(** A step of the loader's loop over the input file, as the loop sees
    it: a line that is empty after [strip()], a line rejected by
    [json.loads] ([JSONDecodeError]), a line decoded, or a step that
    raises [e]: the file cannot be opened or read ([OSError]) or decoded
    as UTF-8 ([UnicodeDecodeError]), or [json.loads] raises something
    else than [JSONDecodeError] ([ValueError] on an integer literal
    above the digit limit, [RecursionError] on deep nesting).  A file
    that cannot be opened is a file whose first step fails. *)
Inductive file_line : Type :=
| Blank
| Malformed
| Parsed (obj : json)
| Fails (e : exn).

(** [Dict[str, List[Event]]]: the groups in insertion order of their key. *)
Definition traces : Type := list (string * list Event).

Definition values (t : traces) : list (list Event) := map snd t.

Section Defs.
Context {rt : Runtime}.

(** ** Event accessors *)

Definition trace_id (ev : Event) : string :=
  str (dict_get_default (raw ev) "trace_id" (JStr "")).

Definition event_type (ev : Event) : string :=
  str (dict_get_default (raw ev) "event_type" (JStr "")).

Definition component (ev : Event) : string :=
  str (dict_get_default (raw ev) "component" (JStr "")).

Definition phase (ev : Event) : json :=
  let phase := dict_get (raw ev) "phase" in
  if is_None phase then
    match dict_get (raw ev) "pld" with
    | JDict pld => dict_get pld "phase"
    | _ => phase
    end
  else phase.

Definition payload (ev : Event) : dict :=
  match dict_get (raw ev) "payload" with
  | JDict obj => obj
  | _ => []
  end.

Definition latency_ms (ev : Event) : result (option float) :=
  let val := dict_get (payload ev) "latency_ms" in
  except_TypeError_ValueError
    (if is_None val then Ok None else f <- to_float val ;; Ok (Some f))
    None.

(** [try: return int(val) if val is not None else None]
    [except (TypeError, ValueError): return None] *)
Definition int_or_None (val : json) : result (option Z) :=
  except_TypeError_ValueError
    (if is_None val then Ok None else n <- int val ;; Ok (Some n))
    None.

Definition turn (ev : Event) : result (option Z) :=
  let val := py_or (dict_get (payload ev) "turn") (dict_get (raw ev) "turn") in
  int_or_None val.

(** ** IO helpers *)

(** [len(seen_traces) > max_sessions], when a cap is given. *)
Definition over_cap (max_sessions : option Z) (seen_traces : list string) : bool :=
  match max_sessions with
  | Some n => n <? Z.of_nat (List.length seen_traces)
  | None => false
  end.

(** The reading loop of [load_events].  [seen_traces] is the set of
    trace ids met so far; [break] returns the events gathered up to
    there.  A decoded line that is not an object has no [get]: reading
    its [trace_id] raises.  Nothing in [load_events] catches what a
    failing step raises. *)
Fixpoint load_loop (max_sessions : option Z) (lines : list file_line)
         (events : list Event) (seen_traces : list string)
  : result (list Event) :=
  match lines with
  | [] => Ok events
  | Blank :: rest => load_loop max_sessions rest events seen_traces
  | Malformed :: rest => load_loop max_sessions rest events seen_traces
  | Parsed (JDict obj) :: rest =>
      let ev := mkEvent obj in
      let tid := trace_id ev in
      if negb (String.eqb tid "") then
        let seen_traces := ListSet.set_add string_dec tid seen_traces in
        if over_cap max_sessions seen_traces then Ok events
        else load_loop max_sessions rest (events ++ [ev]) seen_traces
      else load_loop max_sessions rest (events ++ [ev]) seen_traces
  | Parsed _ :: _ => Raise AttributeError
  | Fails e :: _ => Raise e
  end.

Definition load_events (lines : list file_line) (max_sessions : option Z)
  : result (list Event) :=
  load_loop max_sessions lines [] [].

(** [grouped[k].append(ev)] on a [defaultdict(list)] *)
Fixpoint append_to (grouped : traces) (k : string) (ev : Event) : traces :=
  match grouped with
  | [] => [(k, [ev])]
  | (k', evs) :: rest =>
      if String.eqb k' k then (k', evs ++ [ev]) :: rest
      else (k', evs) :: append_to rest k ev
  end.

Definition group_by_trace (events : list Event) : traces :=
  fold_left (fun grouped ev => append_to grouped (trace_id ev) ev) events [].

(** ** Metric 1: relative latency gap *)

(** Body of the inner loop; the state is [(prev, gaps)]. *)
Definition gap_body (st : option float * list float) (ev : Event)
  : result (option float * list float) :=
  let '(prev, gaps) := st in
  lat <- latency_ms ev ;;
  match lat with
  | None => Ok (prev, gaps)
  | Some lat =>
      match prev with
      | Some prev =>
          let denom := max3 prev lat fone in
          g <- fdiv (fabs (fsub prev lat)) denom ;;
          Ok (Some lat, gaps ++ [g])
      | None => Ok (Some lat, gaps)
      end
  end.

Definition compute_relative_latency_gaps (t : traces) : result (list float) :=
  for_each
    (fun gaps events =>
       st <- for_each gap_body events (None, gaps) ;; Ok (snd st))
    (values t) [].

(** ** Metric 2: recovery turn distance *)

(** Body of the inner loop; the state is [(onset_turn, distances)]. *)
Definition recovery_body (st : option Z * list Z) (ev : Event)
  : result (option Z * list Z) :=
  let '(onset_turn, distances) := st in
  match onset_turn with
  | None =>
      if String.eqb (event_type ev) "drift_like" then
        t <- turn ev ;;
        Ok (Some (match t with Some n => n | None => 0 end), distances)
      else Ok (None, distances)
  | Some onset =>
      let tag := dict_get (payload ev) "stability_tag" in
      if eq_str tag "recovered" then
        t <- turn ev ;;
        let end_turn := match t with Some n => n | None => onset end in
        Ok (None, distances ++ [Z.max 0 (end_turn - onset)])
      else Ok (Some onset, distances)
  end.

Definition compute_recovery_turn_distances (t : traces) : result (list Z) :=
  for_each
    (fun distances events =>
       st <- for_each recovery_body events (None, distances) ;; Ok (snd st))
    (values t) [].

(** ** Metric 3: post-correction relapse rate *)

(** [ev.event_type in {"correction", "self_check"}] *)
Definition is_correction (ev : Event) : bool :=
  String.eqb (event_type ev) "correction"
  || String.eqb (event_type ev) "self_check".

Definition is_drift_like (ev : Event) : bool :=
  String.eqb (event_type ev) "drift_like".

(** The inner loop, from the flags [(had_correction, relapsed)];
    [break] returns at once. *)
Fixpoint relapse_scan (events : list Event) (had_correction relapsed : bool)
  : bool * bool :=
  match events with
  | [] => (had_correction, relapsed)
  | ev :: rest =>
      if negb had_correction && is_correction ev then
        relapse_scan rest true relapsed
      else if had_correction && is_drift_like ev then
        (had_correction, true)
      else relapse_scan rest had_correction relapsed
  end.

(** Returns [(with_relapse, with_correction)]. *)
Definition compute_post_correction_relapse_rate (t : traces) : Z * Z :=
  let '(with_correction, with_relapse) :=
    fold_left
      (fun (acc : Z * Z) events =>
         let '(with_correction, with_relapse) := acc in
         let '(had_correction, relapsed) := relapse_scan events false false in
         if had_correction then
           (with_correction + 1,
            if relapsed then with_relapse + 1 else with_relapse)
         else (with_correction, with_relapse))
      (values t) (0, 0) in
  (with_relapse, with_correction).

(** ** Metric 4: session closure profile *)

Definition CLOSURE_LABELS : list (string * string) :=
  [ ("ok", "natural_completion");
    ("completed_after_correction", "completed_after_correction");
    ("corrected", "completed_after_correction");
    ("incomplete", "incomplete");
    ("error", "forced_stop") ].

(** [CLOSURE_LABELS.get(key)] *)
Fixpoint labels_get (table : list (string * string)) (key : string)
  : option string :=
  match table with
  | [] => None
  | (k, v) :: rest => if String.eqb k key then Some v else labels_get rest key
  end.

(** [s or None] for a string [s] *)
Definition or_None (s : string) : option string :=
  if String.eqb s "" then None else Some s.

(** The [for key in (...)] loop; [Some label] is its [return label]. *)
Fixpoint first_label (keys : list (option string)) : option string :=
  match keys with
  | [] => None
  | None :: rest => first_label rest
  | Some key :: rest =>
      match labels_get CLOSURE_LABELS key with
      | Some label =>
          if negb (String.eqb label "") then Some label else first_label rest
      | None => first_label rest
      end
  end.

Definition classify_session_closure (events : list Event) : string :=
  match rev events with
  | [] => "unknown"
  | last :: _ =>
      let payload := payload last in
      let status := strip (str (dict_get_default payload "status" (JStr ""))) in
      let final_status :=
        strip (str (dict_get_default payload "final_status" (JStr ""))) in
      let pattern := strip (str (dict_get_default payload "pattern" (JStr ""))) in
      match first_label [or_None status; or_None final_status; or_None pattern] with
      | Some label => label
      | None =>
          if String.eqb (event_type last) "session_end" then "session_end_generic"
          else if String.eqb (component last) "user" then "user_abandonment"
          else "unknown"
      end
  end.

(** A [Counter] of closure labels, in order of first appearance. *)
Definition compute_session_closure_profile (t : traces) : list (string * Z) :=
  fold_left
    (fun counts events =>
       incr String.eqb counts (classify_session_closure events))
    (values t) [].

End Defs.

End Metrics.

(* ====================================================================== *)
(** * scripts/trace_tree_sanity_checks.py *)
(* ====================================================================== *)

Module Sanity.

(** [@dataclass class Event: raw: Dict[str, Any]] *)
Record Event : Type := mkEvent { raw : dict }.

Section Defs.
Context {rt : Runtime}.

Definition trace_id (ev : Event) : string :=
  str (dict_get_default (raw ev) "trace_id" (JStr "")).

Definition span_id (ev : Event) : string :=
  str (dict_get_default (raw ev) "span_id" (JStr "")).

(** [None] unless the field is a string that [fromisoformat] accepts once
    a trailing ["Z"] is removed. *)
Definition timestamp (ev : Event) : option datetime :=
  match dict_get (raw ev) "timestamp" with
  | JStr ts => fromisoformat (drop_trailing_Z ts)
  | _ => None
  end.

(** Body of the loop; the state is [(prev, violations)]. *)
Definition monotonicity_body (st : option datetime * Z) (ev : Event)
  : result (option datetime * Z) :=
  let '(prev, violations) := st in
  match timestamp ev with
  | None => Ok (prev, violations)
  | Some ts =>
      match prev with
      | Some p =>
          earlier <- dt_lt ts p ;;
          Ok (Some ts, if earlier then violations + 1 else violations)
      | None => Ok (Some ts, violations)
      end
  end.

(** Returns [(is_monotonic, violations_count)]. *)
Definition check_timestamp_monotonicity (events : list Event)
  : result (bool * Z) :=
  st <- for_each monotonicity_body events (None, 0) ;;
  let violations := snd st in
  Ok (violations =? 0, violations).

(** [None] when neither field holds a truthy value and the second is
    missing or null. *)
Definition parent_id (ev : Event) : option string :=
  let parent :=
    py_or (dict_get (raw ev) "parent_span_id") (dict_get (raw ev) "parent_id") in
  if is_None parent then None else Some (str parent).

Definition group_by_trace (events : list Event) : list (string * list Event) :=
  fold_left (fun traces ev => append_item String.eqb traces (trace_id ev) ev)
            events [].

(** Child count per parent id, in order of first appearance. *)
Definition compute_span_fanout (events : list Event) : list (string * Z) :=
  fold_left
    (fun children ev =>
       match parent_id ev with
       | Some parent =>
           if negb (String.eqb parent "")
           then incr String.eqb children parent
           else children
       | None => children
       end)
    events [].

(** The ids of the sessions with fewer than [min_events] records. *)
Definition detect_short_sessions
           (traces : list (string * list Event)) (min_events : Z) : list string :=
  map fst
      (filter (fun item => Z.of_nat (List.length (snd item)) <? min_events)
              traces).

(** ** The loops of [main] *)

(** [(non_mono, total_violations)] after the first loop. *)
Definition monotonicity_totals (traces : list (string * list Event))
  : result (Z * Z) :=
  for_each
    (fun (acc : Z * Z) (item : string * list Event) =>
       let '(non_mono, total_violations) := acc in
       r <- check_timestamp_monotonicity (snd item) ;;
       let '(ok, violations) := r in
       if negb ok then Ok (non_mono + 1, total_violations + violations)
       else Ok (non_mono, total_violations))
    traces (0, 0).

(** The [Counter] [fanouts]: how many spans have each number of
    children. *)
Definition fanout_histogram (traces : list (string * list Event))
  : list (Z * Z) :=
  fold_left
    (fun fanouts evs =>
       fold_left (fun fanouts count => incr Z.eqb fanouts count)
                 (map snd (compute_span_fanout evs)) fanouts)
    (map snd traces) [].

End Defs.

End Sanity.

(* ====================================================================== *)
(** * synthetic_traces/generate_synthetic_traces.py *)
(* ====================================================================== *)

Module Generator.

(** ** The random source

    The module-level generator of [random]: an arbitrary sequence of raw
    draws and the position reached in it. *)

Record random : Type := mkRandom {
  draws : nat -> Z;
  position : nat
}.

(** [random.randint(a, b)]: uniform in [a..b], both ends included. *)
Definition randint (a b : Z) (r : random) : Z * random :=
  (a + (draws r (position r)) mod (b - a + 1),
   mkRandom (draws r) (S (position r))).

Record Event : Type := mkEvent {
  timestamp : datetime;
  trace_id : string;
  span_id : string;
  component : string;
  event_type : string;
  execution_stage : string;
  payload : dict
}.

(** [datetime(2025, 1, 1, 10, 0, 0)] *)
Definition datetime_2025_01_01_10_00_00 : datetime :=
  mkdt ((1735689600 + 10 * 3600) * 1000000) None.

Definition _base_start_time (r : random) : datetime * random :=
  let '(s, r) := randint 0 60 r in
  (dt_add_s datetime_2025_01_01_10_00_00 s, r).

(** The variables a session generator shares with its [emit] closure
    ([nonlocal ts, span_counter]), together with the random source. *)
Record session_state : Type := mkState {
  ts : datetime;
  span_counter : Z;
  rng : random
}.

Definition draw (a b : Z) (st : session_state) : Z * session_state :=
  let '(n, r) := randint a b (rng st) in
  (n, mkState (ts st) (span_counter st) r).

Section Defs.
Context {rt : Runtime}.

(** The object serialised by [Event.to_json]; [json.loads] gives it back
    from the printed line. *)
Definition to_json (ev : Event) : json :=
  JDict
    [ ("timestamp", JStr (isoformat_ms (timestamp ev) ++ "Z")%string);
      ("trace_id", JStr (trace_id ev));
      ("span_id", JStr (span_id ev));
      ("component", JStr (component ev));
      ("event_type", JStr (event_type ev));
      ("execution_stage", JStr (execution_stage ev));
      ("payload", JDict (payload ev)) ].

(** ** Variant: simple_correction_loop *)

(** The [emit] closure of [generate_simple_correction_loop_session]. *)
Definition emit (trace_id component event_type stage : string) (payload : dict)
           (st : session_state) : Event * session_state :=
  let span_counter := span_counter st + 1 in
  let '(gap_ms, st) := draw 40 140 st in
  let ts := dt_add_ms (ts st) gap_ms in
  (mkEvent ts trace_id
           (trace_id ++ "_s" ++ format_0d 4 span_counter)%string
           component event_type stage payload,
   mkState ts span_counter (rng st)).

(** The events the generator yields, in order, and the random source
    after the last one. *)
Definition generate_simple_correction_loop_session
           (trace_idx : Z) (r : random) : list Event * random :=
  let '(base, r) := _base_start_time r in
  let trace_id := ("loop_" ++ format_0d 3 trace_idx)%string in
  let st := mkState base 0 r in
  (* Init + user *)
  let '(e1, st) :=
    emit trace_id "system" "session_init" "init"
         [("session_id", JStr ("sess_" ++ trace_id)%string)] st in
  let '(e2, st) :=
    emit trace_id "user" "user_message" "input"
         [("turn", JInt 1);
          ("content", JStr "Create a short checklist with exactly 3 items.")]
         st in
  (* Stable first step *)
  let '(lat, st) := draw 200 320 st in
  let '(e3, st) :=
    emit trace_id "agent" "agent_step" "processing"
         [("turn", JInt 1);
          ("latency_ms", JInt lat);
          ("summary", JStr "Initial 3-item checklist created.")] st in
  (* Drift-like step *)
  let '(lat, st) := draw 260 380 st in
  let '(e4, st) :=
    emit trace_id "agent" "drift_like" "processing"
         [("turn", JInt 2);
          ("latency_ms", JInt lat);
          ("note",
           JStr "Checklist grows to 6 items, constraint partially dropped.")]
         st in
  (* Correction *)
  let '(lat, st) := draw 160 260 st in
  let '(e5, st) :=
    emit trace_id "agent" "correction" "recovery"
         [("turn", JInt 3);
          ("kind", JStr "self_check");
          ("latency_ms", JInt lat);
          ("note", JStr "Re-read instruction and compress back to 3 items.")]
         st in
  (* Stabilized step *)
  let '(lat, st) := draw 200 320 st in
  let '(e6, st) :=
    emit trace_id "agent" "agent_step" "output"
         [("turn", JInt 4);
          ("latency_ms", JInt lat);
          ("summary", JStr "3-item checklist, constraints respected.");
          ("stability_tag", JStr "recovered")] st in
  let '(e7, st) :=
    emit trace_id "system" "session_end" "complete"
         [("turns", JInt 4);
          ("instability_signals", JInt 1);
          ("corrections", JInt 1);
          ("final_status", JStr "completed_after_correction")] st in
  ([e1; e2; e3; e4; e5; e6; e7], rng st).

(** ** The random source, continued *)

(** [random.choice(seq)] on a non-empty sequence: the element at a
    uniformly drawn index. *)
Definition choice (seq : list string) (r : random) : string * random :=
  (nth (Z.to_nat ((draws r (position r)) mod (Z.of_nat (List.length seq))))
       seq EmptyString,
   mkRandom (draws r) (S (position r))).

(** An [emit] closure that lets between [lo] and [hi] milliseconds
    pass: [(20, 120)] in [generate_long_horizon_session], [(30, 180)] in
    [generate_noisy_mixed_session]. *)
Definition emit_after (lo hi : Z)
           (trace_id component event_type stage : string) (payload : dict)
           (st : session_state) : Event * session_state :=
  let span_counter := span_counter st + 1 in
  let '(gap_ms, st) := draw lo hi st in
  let ts := dt_add_ms (ts st) gap_ms in
  (mkEvent ts trace_id
           (trace_id ++ "_s" ++ format_0d 4 span_counter)%string
           component event_type stage payload,
   mkState ts span_counter (rng st)).

(** ** Variant: long_horizon *)

Definition _reason_note (turn drift recovery relapse : Z) : string :=
  if turn <? drift then "baseline pattern, stable"
  else if (drift <=? turn) && (turn <? recovery)
       then "growing deviation, early instability"
       else if (recovery <=? turn) && (turn <? relapse)
            then "temporarily stabilized after correction"
            else "late-stage wobble / relapse".

(** The body of the main loop, for [n] turns from [turn] on. *)
Fixpoint long_horizon_turns
         (n : nat) (turn drift_turn recovery_turn relapse_turn : Z)
         (trace_id : string) (st : session_state)
  : list Event * session_state :=
  match n with
  | O => ([], st)
  | S n' =>
      (* baseline latency pattern *)
      let '(base_latency, st) := draw 90 160 st in
      (* add drift-related noise *)
      let '(base_latency, st) :=
        if (drift_turn <=? turn) && (turn <? recovery_turn) then
          let '(d, st) := draw 60 220 st in (base_latency + d, st)
        else if (recovery_turn <=? turn) && (turn <? relapse_turn) then
          let '(d, st) := draw (-30) 40 st in (base_latency + d, st)
        else if relapse_turn <=? turn then
          let '(d, st) := draw 80 260 st in (base_latency + d, st)
        else (base_latency, st) in
      (* reasoning step *)
      let '(step, st) :=
        emit_after 20 120 trace_id "agent" "reason_step" "processing"
          [("turn", JInt turn);
           ("latency_ms", JInt base_latency);
           ("note",
            JStr (_reason_note turn drift_turn recovery_turn relapse_turn))]
          st in
      (* occasionally add a small self-check / correction span *)
      let '(checks, st) :=
        if (turn =? drift_turn + 1) || (turn =? recovery_turn)
           || (turn =? relapse_turn)
        then
          let '(lat, st) := draw 80 180 st in
          let '(check, st) :=
            emit_after 20 120 trace_id "agent" "self_check" "recovery"
              [("turn", JInt turn);
               ("kind", JStr "lightweight_correction");
               ("latency_ms", JInt lat)] st in
          ([check], st)
        else ([], st) in
      let '(rest, st) :=
        long_horizon_turns n' (turn + 1) drift_turn recovery_turn relapse_turn
                           trace_id st in
      (step :: checks ++ rest, st)
  end.

Definition generate_long_horizon_session
           (trace_idx turns : Z) (noise : string) (r : random)
  : list Event * random :=
  let '(base, r) := _base_start_time r in
  let trace_id := ("lh_" ++ format_0d 3 trace_idx)%string in
  let st := mkState base 0 r in
  (* Session init *)
  let '(e_init, st) :=
    emit_after 20 120 trace_id "system" "session_init" "init"
      [("session_id", JStr ("sess_" ++ trace_id)%string);
       ("variant", JStr "long_horizon")] st in
  (* Synthetic user goal *)
  let '(e_user, st) :=
    emit_after 20 120 trace_id "user" "user_message" "input"
      [("turn", JInt 1);
       ("content",
        JStr "Run a multi-step checklist and keep it stable over time.")]
      st in
  (* Parameters controlling wobble *)
  let '(drift_turn, st) :=
    if String.eqb noise "low" then
      draw (Z.max 3 (turns / 4)) (Z.max 4 (turns / 3)) st
    else if String.eqb noise "high" then
      draw 2 (Z.max 3 (turns / 5)) st
    else (* medium *)
      draw (Z.max 3 (turns / 5)) (Z.max 4 (turns / 3)) st in
  let '(d, st) := draw 2 5 st in
  let recovery_turn := Z.min (turns - 3) (drift_turn + d) in
  let '(d, st) := draw 3 8 st in
  let relapse_turn := Z.min (turns - 1) (recovery_turn + d) in
  (* Main loop *)
  let '(steps, st) :=
    long_horizon_turns (Z.to_nat turns) 1 drift_turn recovery_turn relapse_turn
                       trace_id st in
  (* Final outcome *)
  let final_status :=
    if turns <? relapse_turn then "stable" else "relapse_after_recovery" in
  let '(e_end, st) :=
    emit_after 20 120 trace_id "system" "session_end" "complete"
      [("turns", JInt turns);
       ("drift_turn", JInt drift_turn);
       ("recovery_turn", JInt recovery_turn);
       ("relapse_turn", JInt relapse_turn);
       ("final_status", JStr final_status)] st in
  (e_init :: e_user :: steps ++ [e_end], rng st).

(** ** Variant: noisy_mixed *)

Definition generate_noisy_mixed_session
           (trace_idx : Z) (noise : string) (r : random)
  : list Event * random :=
  (* Compose from a few small patterns: stable, corrected, incomplete. *)
  let '(mode, r) := choice ["stable"; "corrected"; "incomplete"] r in
  let '(mode, r) :=
    if String.eqb noise "high"
    then (* bias toward unstable shapes *)
      choice ["corrected"; "incomplete"; "incomplete"] r
    else (mode, r) in
  let '(base, r) := _base_start_time r in
  let trace_id := ("mix_" ++ format_0d 3 trace_idx)%string in
  let st := mkState base 0 r in
  let emit := emit_after 30 180 trace_id in
  (* Common start *)
  let '(e1, st) :=
    emit "system" "session_init" "init"
         [("session_id", JStr ("sess_" ++ trace_id)%string)] st in
  let '(e2, st) :=
    emit "user" "user_message" "input"
         [("content", JStr "Run a small multi-step task.");
          ("approx_length", JStr "short")] st in
  if String.eqb mode "stable" then
    (* Straightforward 2-step sequence *)
    let '(lat, st) := draw 150 260 st in
    let '(e3, st) :=
      emit "agent" "agent_step" "processing"
           [("turn", JInt 1); ("latency_ms", JInt lat)] st in
    let '(lat, st) := draw 150 260 st in
    let '(e4, st) :=
      emit "agent" "agent_step" "output"
           [("turn", JInt 2); ("latency_ms", JInt lat)] st in
    let '(e5, st) :=
      emit "system" "session_end" "complete"
           [("status", JStr "ok"); ("pattern", JStr "stable")] st in
    ([e1; e2; e3; e4; e5], rng st)
  else if String.eqb mode "corrected" then
    (* Small hallucination followed by correction *)
    let '(lat, st) := draw 180 320 st in
    let '(e3, st) :=
      emit "agent" "agent_step" "processing"
           [("turn", JInt 1); ("latency_ms", JInt lat)] st in
    let '(lat, st) := draw 220 380 st in
    let '(e4, st) :=
      emit "agent" "drift_like" "processing"
           [("turn", JInt 2);
            ("latency_ms", JInt lat);
            ("note", JStr "off-topic or low-quality output")] st in
    let '(e5, st) :=
      emit "monitor" "warning" "monitoring"
           [("reason", JStr "content_mismatch")] st in
    let '(e6, st) :=
      emit "agent" "correction" "recovery"
           [("action", JStr "retry"); ("turn", JInt 3)] st in
    let '(lat, st) := draw 170 300 st in
    let '(e7, st) :=
      emit "agent" "agent_step" "output"
           [("turn", JInt 4);
            ("latency_ms", JInt lat);
            ("stability_tag", JStr "recovered")] st in
    let '(e8, st) :=
      emit "system" "session_end" "complete"
           [("status", JStr "corrected"); ("pattern", JStr "corrected")] st in
    ([e1; e2; e3; e4; e5; e6; e7; e8], rng st)
  else (* incomplete *)
    (* Missing-detail scenario; session ends early *)
    let '(lat, st) := draw 150 280 st in
    let '(e3, st) :=
      emit "agent" "agent_step" "processing"
           [("turn", JInt 1); ("latency_ms", JInt lat)] st in
    let '(e4, st) :=
      emit "monitor" "warning" "monitoring"
           [("reason", JStr "missing_required_detail")] st in
    (* User does not respond or system stops *)
    let '(e5, st) :=
      emit "system" "session_end" "complete"
           [("status", JStr "incomplete"); ("pattern", JStr "incomplete")]
           st in
    ([e1; e2; e3; e4; e5], rng st).

(** ** CLI *)

(** The session generator that [main] picks for [variant]. *)
Definition generate_session
           (variant : string) (i turns : Z) (noise : string) (r : random)
  : list Event * random :=
  if String.eqb variant "long_horizon" then
    generate_long_horizon_session i turns noise r
  else if String.eqb variant "simple_correction_loop" then
    generate_simple_correction_loop_session i r
  else (* noisy_mixed *)
    generate_noisy_mixed_session i noise r.

(** The objects that [main] prints, one per line, for the sessions
    [i], [i + 1], ... ([n] of them). *)
Fixpoint main_from (n : nat) (i : Z) (variant : string) (turns : Z)
         (noise : string) (r : random) : list json :=
  match n with
  | O => []
  | S n' =>
      let '(events, r) := generate_session variant i turns noise r in
      map to_json events ++ main_from n' (i + 1) variant turns noise r
  end.

(** [main] with [--variant], [--sessions], [--turns] and [--noise]:
    the loop over [range(args.sessions)]. *)
Definition main (variant : string) (sessions turns : Z) (noise : string)
           (r : random) : list json :=
  main_from (Z.to_nat sessions) 0 variant turns noise r.

(** The lines [main] prints for one such session, as the metrics script
    reads them back. *)
Definition simple_correction_loop_lines (trace_idx : Z) (r : random)
  : list Metrics.file_line :=
  map (fun ev => Metrics.Parsed (to_json ev))
      (fst (generate_simple_correction_loop_session trace_idx r)).

End Defs.

End Generator.

(* ====================================================================== *)
(** * A small implementation of the library functions

    [Plain.runtime] implements [Runtime] on the plain forms that occur in
    traces: decimal integers, integral floats, ASCII strings and the
    timestamps the generator prints.  It is what the examples below are
    evaluated with; the results about the scripts hold for every
    [Runtime]. *)
(* ====================================================================== *)

Module Plain.

Definition is_digit (c : ascii) : bool :=
  let n := N_of_ascii c in ((48 <=? n) && (n <=? 57))%N.

Definition digit_val (c : ascii) : Z := Z.of_N (N_of_ascii c) - 48.

(** Decimal digits, single underscores allowed between two digits. *)
Fixpoint digits (s : string) (acc : Z) (after_digit : bool) : option Z :=
  match s with
  | EmptyString => if after_digit then Some acc else None
  | String c s' =>
      if is_digit c then digits s' (10 * acc + digit_val c) true
      else if Ascii.eqb c "_" && after_digit then
        match s' with
        | String c' _ => if is_digit c' then digits s' acc false else None
        | EmptyString => None
        end
      else None
  end.

Definition split_sign (s : string) : bool * string :=
  match s with
  | String c s' =>
      if Ascii.eqb c "-" then (true, s')
      else if Ascii.eqb c "+" then (false, s')
      else (false, s)
  | EmptyString => (false, s)
  end.

(** [int(s)] on decimal integer literals. *)
Definition int_of_str (s : string) : option Z :=
  let '(neg, body) := split_sign (strip s) in
  option_map (fun n => if neg then - n else n) (digits body 0 false).

(** [float(s)] on decimal integer literals. *)
Definition float_of_str (s : string) : option float :=
  let '(neg, body) := split_sign (strip s) in
  option_map (fun n => let f := float_of_Z n in if neg then SFopp f else f)
             (digits body 0 false).

(** [str(x)]: exact on NaN, the infinities, the zeros and the integral
    values below [10^16]; any other value is printed as the product
    [m*2**e] it stands for. *)
Definition str_float (x : float) : string :=
  match x with
  | S754_nan => "nan"
  | S754_infinity s => if s then "-inf" else "inf"
  | S754_zero s => if s then "-0.0" else "0.0"
  | S754_finite s m e =>
      let n := ftrunc s m e in
      if SFeqb (float_of_Z n) x && (Z.abs n <? 10 ^ 16)
      then (str_int n ++ ".0")%string
      else (str_int (if s then Zneg m else Zpos m) ++ "*2**" ++ str_int e)%string
  end.

Definition hex_digit (n : N) : ascii :=
  ascii_of_N (if (n <? 10)%N then 48 + n else 87 + n)%N.

Fixpoint contains (c : ascii) (s : string) : bool :=
  match s with
  | EmptyString => false
  | String c' s' => Ascii.eqb c c' || contains c s'
  end.

Fixpoint escape (quote : ascii) (s : string) : string :=
  match s with
  | EmptyString => EmptyString
  | String c s' =>
      let n := N_of_ascii c in
      let rest := escape quote s' in
      if Ascii.eqb c quote || Ascii.eqb c "\" then String "\" (String c rest)
      else if (n =? 9)%N then String "\" (String "t" rest)
      else if (n =? 10)%N then String "\" (String "n" rest)
      else if (n =? 13)%N then String "\" (String "r" rest)
      else if ((n <? 32) || (n =? 127))%N then
        String "\" (String "x" (String (hex_digit (n / 16))
                                      (String (hex_digit (n mod 16)) rest)))
      else String c rest
  end.

(** [repr(s)] on ASCII strings. *)
Definition repr_str (s : string) : string :=
  let double_quote : ascii := ascii_of_N 34 in
  let quote : ascii :=
    if contains "'" s && negb (contains double_quote s)
    then double_quote else "'"%char in
  String quote (escape quote s ++ String quote EmptyString).

(** Exactly [len] digits from position [start]. *)
Definition field (s : string) (start len : nat) : option Z :=
  let sub := substring start len s in
  if (String.length sub =? len)%nat && negb (contains "_" sub)
  then digits sub 0 false else None.

Definition char_is (s : string) (i : nat) (c : ascii) : bool :=
  match String.get i s with
  | Some c' => Ascii.eqb c c'
  | None => false
  end.

Definition is_leap (y : Z) : bool :=
  ((y mod 4 =? 0) && negb (y mod 100 =? 0)) || (y mod 400 =? 0).

Definition days_in_month (y m : Z) : Z :=
  if m =? 2 then (if is_leap y then 29 else 28)
  else if (m =? 4) || (m =? 6) || (m =? 9) || (m =? 11) then 30
  else 31.

(** Days from 1970-01-01 to the given civil date. *)
Definition days_from_civil (y m d : Z) : Z :=
  let y := if m <=? 2 then y - 1 else y in
  let era := y / 400 in
  let yoe := y - era * 400 in
  let doy := (153 * (if 2 <? m then m - 3 else m + 9) + 2) / 5 + d - 1 in
  let doe := yoe * 365 + yoe / 4 - yoe / 100 + doy in
  era * 146097 + doe - 719468.

(** The civil date [(y, m, d)] that many days after 1970-01-01. *)
Definition civil_from_days (z : Z) : Z * Z * Z :=
  let z := z + 719468 in
  let era := z / 146097 in
  let doe := z - era * 146097 in
  let yoe := (doe - doe / 1460 + doe / 36524 - doe / 146096) / 365 in
  let doy := doe - (365 * yoe + yoe / 4 - yoe / 100) in
  let mp := (5 * doy + 2) / 153 in
  let d := doy - (153 * mp + 2) / 5 + 1 in
  let m := if mp <? 10 then mp + 3 else mp - 9 in
  (if m <=? 2 then yoe + era * 400 + 1 else yoe + era * 400, m, d).

Definition parse_date (s : string) : option Z :=
  match field s 0 4, field s 5 2, field s 8 2 with
  | Some y, Some m, Some d =>
      if char_is s 4 "-" && char_is s 7 "-"
         && (1 <=? y) && (1 <=? m) && (m <=? 12)
         && (1 <=? d) && (d <=? days_in_month y m)
      then Some (days_from_civil y m d) else None
  | _, _, _ => None
  end.

Definition parse_time (s : string) : option Z :=
  match field s 11 2, field s 14 2, field s 17 2 with
  | Some h, Some mi, Some sec =>
      if char_is s 13 ":" && char_is s 16 ":"
         && (h <? 24) && (mi <? 60) && (sec <? 60)
      then Some ((h * 60 + mi) * 60 + sec) else None
  | _, _, _ => None
  end.

(** [datetime.fromisoformat] on [YYYY-MM-DD], [YYYY-MM-DD?HH:MM:SS],
    and the latter followed by [.fff] or [.ffffff]; no UTC offset. *)
Definition fromisoformat (s : string) : option datetime :=
  match parse_date s with
  | None => None
  | Some days =>
      let n := String.length s in
      if (n =? 10)%nat then Some (mkdt (days * 86400000000) None)
      else
        match parse_time s with
        | None => None
        | Some secs =>
            let whole := (days * 86400 + secs) * 1000000 in
            if (n =? 19)%nat then Some (mkdt whole None)
            else if (n =? 23)%nat && char_is s 19 "." then
              option_map (fun f => mkdt (whole + 1000 * f) None) (field s 20 3)
            else if (n =? 26)%nat && char_is s 19 "." then
              option_map (fun f => mkdt (whole + f) None) (field s 20 6)
            else None
        end
  end.

(** [d.isoformat(timespec="milliseconds")]; the offset is printed to the
    minute. *)
Definition isoformat_ms (d : datetime) : string :=
  let day := dt_us d / 86400000000 in
  let us := dt_us d mod 86400000000 in
  let '(y, m, dd) := civil_from_days day in
  let secs := us / 1000000 in
  let offset :=
    match dt_utcoffset d with
    | None => EmptyString
    | Some o =>
        let mins := Z.abs o / 60000000 in
        ((if (o <? 0)%Z then "-" else "+")
           ++ format_0d 2 (mins / 60) ++ ":" ++ format_0d 2 (mins mod 60))%string
    end in
  (format_0d 4 y ++ "-" ++ format_0d 2 m ++ "-" ++ format_0d 2 dd ++ "T"
     ++ format_0d 2 (secs / 3600) ++ ":" ++ format_0d 2 (secs / 60 mod 60)
     ++ ":" ++ format_0d 2 (secs mod 60)
     ++ "." ++ format_0d 3 (us / 1000 mod 1000) ++ offset)%string.

#[export] Instance runtime : Runtime := {
  Py.int_of_str := int_of_str;
  Py.float_of_str := float_of_str;
  Py.str_float := str_float;
  Py.repr_str := repr_str;
  Py.fromisoformat := fromisoformat;
  Py.isoformat_ms := isoformat_ms
}.

End Plain.

(* ====================================================================== *)
(** * The specification's descriptions

    Definitions written after the specification's wording, against which
    the functions above are compared. *)
(* ====================================================================== *)

Module Spec.

Import Metrics.

(** The two states of the recovery-distance machine (section 4.5). *)
Inductive recovery_state : Type :=
| idle
| onset_pending (onset_turn : Z).

(** The value of the loop variable [onset_turn] in each state. *)
Definition onset_of (s : recovery_state) : option Z :=
  match s with
  | idle => None
  | onset_pending n => Some n
  end.

(** The onsets that wait for a recovery in each state. *)
Definition pending (s : recovery_state) : nat :=
  match s with
  | idle => 0
  | onset_pending _ => 1
  end.

Section Defs.
Context {rt : Runtime}.

(** *** Loader *)

(** The records of the decoded object lines, in file order. *)
Fixpoint object_events (lines : list file_line) : list Event :=
  match lines with
  | [] => []
  | Parsed (JDict obj) :: rest => mkEvent obj :: object_events rest
  | _ :: rest => object_events rest
  end.

(** The non-empty session identifiers of a list of records. *)
Definition nonempty_ids (events : list Event) : list string :=
  filter (fun tid => negb (String.eqb tid "")) (map trace_id events).

(** The distinct non-empty session identifiers of a list of records. *)
Definition distinct_sessions (events : list Event) : list string :=
  nodup string_dec (nonempty_ids events).

(** *** Relative latency gap *)

(** [|a - b| / max(a, b, 1)] *)
Definition relative_gap (a b : float) : float :=
  SFdiv prec emax (fabs (fsub a b)) (max3 a b fone).

Definition has_latency (ev : Event) : bool :=
  match latency_ms ev with
  | Ok (Some _) => true
  | _ => false
  end.

(** [max(0, count_of_records_with_latency - 1)] *)
Definition expected_gap_count (events : list Event) : Z :=
  Z.max 0 (Z.of_nat (List.length (filter has_latency events)) - 1).

(** The consecutive pairs that [n] records with a latency form, when
    the walk already holds a previous latency ([Some]) or not. *)
Definition pairs_from (prev : option float) (n : nat) : nat :=
  match prev with
  | Some _ => n
  | None => n - 1
  end.

Fixpoint sum_Z (l : list Z) : Z :=
  match l with
  | [] => 0
  | x :: rest => x + sum_Z rest
  end.

(** *** Recovery turn distance *)

(** One transition: the next state and the distances emitted (none or
    one). *)
Definition machine_step (s : recovery_state) (ev : Event)
  : result (recovery_state * list Z) :=
  match s with
  | idle =>
      if String.eqb (event_type ev) "drift_like" then
        t <- turn ev ;;
        Ok (onset_pending (match t with Some n => n | None => 0 end), [])
      else Ok (idle, [])
  | onset_pending onset_turn =>
      if eq_str (dict_get (payload ev) "stability_tag") "recovered" then
        t <- turn ev ;;
        let recovered_turn :=
          match t with Some n => n | None => onset_turn end in
        Ok (idle, [Z.max 0 (recovered_turn - onset_turn)])
      else Ok (onset_pending onset_turn, [])
  end.

Fixpoint machine_run (s : recovery_state) (events : list Event)
  : result (recovery_state * list Z) :=
  match events with
  | [] => Ok (s, [])
  | ev :: rest =>
      r <- machine_step s ev ;;
      r' <- machine_run (fst r) rest ;;
      Ok (fst r', snd r ++ snd r')
  end.

(** A session starts idle; whatever state it ends in is dropped. *)
Definition session_distances (events : list Event) : result (list Z) :=
  r <- machine_run idle events ;; Ok (snd r).

Fixpoint machine_distances (sessions : list (list Event)) : result (list Z) :=
  match sessions with
  | [] => Ok []
  | events :: rest =>
      ds <- session_distances events ;;
      ds' <- machine_distances rest ;;
      Ok (ds ++ ds')
  end.

(** *** Post-correction relapse rate *)

(** The session contains a correction or self-check record. *)
Definition has_correction (events : list Event) : Prop :=
  exists ev, In ev events /\ is_correction ev = true.

(** Some record strictly after the first correction record is drift-like. *)
Definition has_relapse (events : list Event) : Prop :=
  exists before c after d,
    events = before ++ c :: after
    /\ (forall ev, In ev before -> is_correction ev = false)
    /\ is_correction c = true
    /\ In d after /\ is_drift_like d = true.

Definition session_had_correction (events : list Event) : bool :=
  fst (relapse_scan events false false).

Definition session_relapsed (events : list Event) : bool :=
  snd (relapse_scan events false false).

Definition count {A : Type} (p : A -> bool) (l : list A) : Z :=
  Z.of_nat (List.length (filter p l)).

(** *** Session closure *)

(** A field of the last record's payload, as text without surrounding
    blanks; empty when the field is missing. *)
Definition closure_field (last : Event) (name : string) : string :=
  strip (str (dict_get_default (payload last) name (JStr ""))).

(** The label of a non-empty field whose value is in the lookup table. *)
Definition mapped_label (field : string) : option string :=
  if String.eqb field "" then None else labels_get CLOSURE_LABELS field.

(** [status] > [final_status] > [pattern] > event type > component >
    ["unknown"]. *)
Definition closure_of_last (last : Event) : string :=
  match mapped_label (closure_field last "status") with
  | Some label => label
  | None =>
      match mapped_label (closure_field last "final_status") with
      | Some label => label
      | None =>
          match mapped_label (closure_field last "pattern") with
          | Some label => label
          | None =>
              if String.eqb (event_type last) "session_end"
              then "session_end_generic"
              else if String.eqb (component last) "user"
                   then "user_abandonment"
                   else "unknown"
          end
      end
  end.

(** *** Timestamp monotonicity *)

(** The timestamps that parse, in session order. *)
Definition parsed_timestamps (events : list Sanity.Event) : list datetime :=
  flat_map (fun ev => match Sanity.timestamp ev with
                      | Some t => [t]
                      | None => []
                      end) events.

(** How many entries of [ts] are strictly earlier than their
    predecessor, [prev] preceding the first. *)
Fixpoint count_earlier (prev : datetime) (ts : list datetime) : result Z :=
  match ts with
  | [] => Ok 0
  | t :: rest =>
      earlier <- dt_lt t prev ;;
      n <- count_earlier t rest ;;
      Ok ((if earlier then 1 else 0) + n)
  end.

Definition violations (ts : list datetime) : result Z :=
  match ts with
  | [] => Ok 0
  | t :: rest => count_earlier t rest
  end.

(** A step that is not skipped: a decoded line, whatever it decodes
    to, or a failure. *)
Definition is_decoded (line : file_line) : bool :=
  match line with
  | Parsed _ | Fails _ => true
  | Blank | Malformed => false
  end.

(** No step fails and no line decodes to something else than an
    object. *)
Definition only_objects (lines : list file_line) : bool :=
  forallb (fun line => match line with
                       | Parsed (JDict _) | Blank | Malformed => true
                       | Parsed _ | Fails _ => false
                       end) lines.

(** What the step raises, if it does: a failure raises its exception,
    a decoded line that is not an object [AttributeError]. *)
Definition raised_by (line : file_line) : option exn :=
  match line with
  | Fails e => Some e
  | Parsed (JDict _) | Blank | Malformed => None
  | Parsed _ => Some AttributeError
  end.

(** What the first step that raises does raise. *)
Fixpoint first_raised (lines : list file_line) : option exn :=
  match lines with
  | [] => None
  | line :: rest =>
      match raised_by line with
      | Some e => Some e
      | None => first_raised rest
      end
  end.

(** Not below zero: positive, a zero or NaN. *)
Definition not_negative (x : float) : Prop := fltb x fzero = false.

(** *** Grouping *)

(** The records of session [tid], in file order. *)
Definition records_of (tid : string) (events : list Event) : list Event :=
  filter (fun ev => String.eqb (trace_id ev) tid) events.

(** The distinct elements of [l], each at its first occurrence. *)
Fixpoint first_occurrences (l : list string) : list string :=
  match l with
  | [] => []
  | x :: rest =>
      x :: filter (fun y => negb (String.eqb y x)) (first_occurrences rest)
  end.

(** *** Closure labels *)

(** The labels that a session closure can take. *)
Definition closure_labels : list string :=
  [ "natural_completion"; "completed_after_correction"; "incomplete";
    "forced_stop"; "session_end_generic"; "user_abandonment"; "unknown" ].

(** A count as a [Counter] stores it: no entry for zero. *)
Definition stored (n : Z) : option Z := if n =? 0 then None else Some n.

(** [payload.stability_tag == "recovered"] *)
Definition is_recovered (ev : Event) : bool :=
  eq_str (dict_get (payload ev) "stability_tag") "recovered".

(** *** Trace sanity checks *)

(** The records of session [tid], in file order. *)
Definition session_records (tid : string) (events : list Sanity.Event)
  : list Sanity.Event :=
  filter (fun ev => String.eqb (Sanity.trace_id ev) tid) events.

(** The non-empty parent ids that the records name, one per record
    that has one, in order. *)
Definition parents (events : list Sanity.Event) : list string :=
  flat_map (fun ev => match Sanity.parent_id ev with
                      | Some parent =>
                          if String.eqb parent "" then [] else [parent]
                      | None => []
                      end) events.

(** The sum of [fan * cnt] over a histogram of fan-outs. *)
Definition weighted (histogram : list (Z * Z)) : Z :=
  sum_Z (map (fun item => fst item * snd item) histogram).

(** Without UTC offset. *)
Definition naive (d : datetime) : Prop := dt_utcoffset d = None.

(** No entry is earlier than the one before it. *)
Definition nondecreasing (ts : list datetime) : Prop :=
  forall before a b after,
    ts = before ++ a :: b :: after -> dt_us a <= dt_us b.

(** *** Generated sessions *)

(** The record that the metrics script reads back from the line printed
    for a generated event. *)
Definition printed (ev : Generator.Event) : Event :=
  mkEvent (match Generator.to_json ev with
           | JDict obj => obj
           | _ => []
           end).

(** The same line, as the sanity-check script reads it back. *)
Definition printed_sanity (ev : Generator.Event) : Sanity.Event :=
  Sanity.mkEvent (match Generator.to_json ev with
                  | JDict obj => obj
                  | _ => []
                  end).

End Defs.

(** The events of one session in emission order: they carry the
    session id [tid], the span ids numbered from [counter + 1] on, and
    naive timestamps that increase strictly from [after] (microseconds)
    on. *)
Fixpoint session_from (tid : string) (counter after : Z)
         (events : list Generator.Event) : Prop :=
  match events with
  | [] => True
  | ev :: rest =>
      Generator.trace_id ev = tid
      /\ Generator.span_id ev
         = (tid ++ "_s" ++ format_0d 4 (counter + 1))%string
      /\ naive (Generator.timestamp ev)
      /\ after < dt_us (Generator.timestamp ev)
      /\ session_from tid (counter + 1) (dt_us (Generator.timestamp ev)) rest
  end.

(** What the main loop of the long-horizon generator emits: reasoning
    steps and self-checks only. *)
Definition loop_events_ok (events : list Generator.Event) : Prop :=
  Forall (fun ev => Generator.event_type ev = "reason_step"
                    \/ Generator.event_type ev = "self_check") events.

(** The time (microseconds) of the last of [events], [after] when
    there is none. *)
Fixpoint last_us (after : Z) (events : list Generator.Event) : Z :=
  match events with
  | [] => after
  | ev :: rest => last_us (dt_us (Generator.timestamp ev)) rest
  end.

(** The id that the generators give to session [i] of [variant]. *)
Definition session_id (variant : string) (i : Z) : string :=
  ((if String.eqb variant "long_horizon" then "lh_"
    else if String.eqb variant "simple_correction_loop" then "loop_"
         else "mix_")
   ++ format_0d 3 i)%string.

(** [range(i, i + n)] *)
Fixpoint range_from (n : nat) (i : Z) : list Z :=
  match n with
  | O => []
  | S n' => i :: range_from n' (i + 1)
  end.

(** The sessions that [main] generates for [i], [i + 1], ... ([n] of
    them), one list of events each. *)
Fixpoint sessions_from (n : nat) (i : Z) (variant : string) (turns : Z)
         (noise : string) (r : Generator.random)
  : list (list Generator.Event) :=
  match n with
  | O => []
  | S n' =>
      let '(events, r) := Generator.generate_session variant i turns noise r in
      events :: sessions_from n' (i + 1) variant turns noise r
  end.

(** The naive datetime 2025-01-01 at [h:m:s]. *)
Definition at_time (h m s : Z) : datetime :=
  mkdt ((1735689600 + (h * 60 + m) * 60 + s) * 1000000) None.

End Spec.

(* ====================================================================== *)
(** * Example records *)
(* ====================================================================== *)

Module Examples.

Import Metrics.

(** [{"payload": {"phase": "drift"}}] *)
Definition payload_phase_only : Event :=
  mkEvent [("payload", JDict [("phase", JStr "drift")])].

(** [{"pld": {"phase": "drift"}, "payload": {"phase": "other"}}] *)
Definition pld_phase : Event :=
  mkEvent [("pld", JDict [("phase", JStr "drift")]);
           ("payload", JDict [("phase", JStr "other")])].

(** [{"turn": 7, "payload": {"turn": 0}}] *)
Definition turn_zero_in_payload : Event :=
  mkEvent [("turn", JInt 7); ("payload", JDict [("turn", JInt 0)])].

(** A record with a session id and an event type only. *)
Definition line (tid etype : string) : json :=
  JDict [("trace_id", JStr tid); ("event_type", JStr etype)].

Definition record (tid etype : string) : Event :=
  mkEvent [("trace_id", JStr tid); ("event_type", JStr etype)].

(** Two sessions, interleaved. *)
Definition two_sessions_file : list file_line :=
  [ Parsed (line "a" "user_message");
    Parsed (line "b" "user_message");
    Parsed (line "a" "agent_step") ].

(** Three sessions with an empty and an undecodable line in between. *)
Definition three_sessions_file : list file_line :=
  [ Parsed (line "a" "user_message");
    Blank;
    Parsed (line "b" "user_message");
    Malformed;
    Parsed (line "a" "agent_step");
    Parsed (line "c" "user_message");
    Parsed (line "a" "session_end") ].

(** A record with an event type and a payload. *)
Definition step (etype : string) (payload : dict) : Event :=
  mkEvent [("event_type", JStr etype); ("payload", JDict payload)].

(** Two complete episodes, the second one recovering at an earlier turn
    than its onset, then an onset left pending. *)
Definition recovery_session : list Event :=
  [ step "drift_like" [("turn", JInt 2)];
    step "agent_step" [("turn", JInt 3)];
    step "agent_step" [("turn", JInt 5); ("stability_tag", JStr "recovered")];
    step "drift_like" [("turn", JInt 6)];
    step "agent_step" [("turn", JInt 4); ("stability_tag", JStr "recovered")];
    step "drift_like" [("turn", JInt 9)] ].

Definition relapsing_session : list Event :=
  [ step "drift_like" []; step "self_check" []; step "agent_step" [];
    step "drift_like" [] ].

Definition corrected_session : list Event :=
  [ step "drift_like" []; step "correction" []; step "agent_step" [] ].

Definition plain_session : list Event :=
  [ step "user_message" []; step "drift_like" [] ].

Definition relapse_traces : traces :=
  [ ("s1", relapsing_session); ("s2", corrected_session);
    ("s3", plain_session) ].

Definition with_latency (ms : Z) : Event :=
  step "agent_step" [("latency_ms", JInt ms)].

Definition latency_traces : traces :=
  [ ("s1", [with_latency 100; step "user_message" []; with_latency 200;
            with_latency 300]);
    ("s2", [with_latency 150]);
    ("s3", [step "user_message" []]) ].

(** A latency that no double can hold. *)
Definition huge_latency : Event := with_latency (10 ^ 400).

Definition stamped (ts : string) : Sanity.Event :=
  Sanity.mkEvent [("timestamp", JStr ts)].

(** Three records, the last one earlier than the one before it. *)
Definition out_of_order : list Sanity.Event :=
  [ stamped "2025-01-01T10:00:00Z";
    stamped "2025-01-01T10:00:05Z";
    stamped "2025-01-01T09:59:59Z" ].

(** A runtime whose [fromisoformat] also reads 10:00 at UTC+02:00. *)
Definition with_offsets : Runtime := {|
  int_of_str := Plain.int_of_str;
  float_of_str := Plain.float_of_str;
  str_float := Plain.str_float;
  repr_str := Plain.repr_str;
  fromisoformat := fun s =>
    if String.eqb s "2025-01-01T10:00:00+02:00"
    then Some (mkdt ((1735689600 + 36000) * 1000000) (Some 7200000000))
    else Plain.fromisoformat s;
  isoformat_ms := Plain.isoformat_ms
|}.

(** A timestamp without offset followed by one with an offset. *)
Definition mixed_offsets : list Sanity.Event :=
  [ stamped "2025-01-01T10:00:00Z"; stamped "2025-01-01T10:00:00+02:00" ].

(** A source of random numbers that draws 7 every time. *)
Definition sevens : Generator.random := Generator.mkRandom (fun _ => 7) 0.

End Examples.

(* ====================================================================== *)
(** * Results: the event accessors *)
(* ====================================================================== *)

Import Metrics Spec.

Section PhaseAccessor.

(** The top-level keys other than ["phase"] and ["pld"] play no part. *)
Lemma phase_payload_irrelevant (d : dict) (v : json) :
  phase (mkEvent (("payload", v) :: d)) = phase (mkEvent d).
Proof. reflexivity. Qed.

(** C2 (as amended): [phase] returns the top-level ["phase"] value when
    it is present and not null; otherwise it returns the ["phase"] entry
    of the top-level ["pld"] field when that field is a mapping, and
    [None] when it is not.  The ["payload"] field is never consulted. *)
Theorem phase_top_level_then_pld (ev : Event) :
  (forall v, lookup (raw ev) "phase" = Some v -> v <> JNull -> phase ev = v)
  /\ (forall pld,
         dict_get (raw ev) "phase" = JNull ->
         dict_get (raw ev) "pld" = JDict pld ->
         phase ev = dict_get pld "phase")
  /\ (dict_get (raw ev) "phase" = JNull ->
      (forall pld, dict_get (raw ev) "pld" <> JDict pld) ->
      phase ev = JNull)
  /\ (forall v, phase (mkEvent (("payload", v) :: raw ev)) = phase ev).
Proof.
  unfold phase. repeat split.
  - intros v Hv Hnn. unfold dict_get. rewrite Hv.
    destruct v; try reflexivity. contradiction.
  - intros pld Hp Hpld. rewrite Hp, Hpld. reflexivity.
  - intros Hp Hpld. rewrite Hp. simpl.
    destruct (dict_get (raw ev) "pld") eqn:E; try reflexivity.
    exfalso. apply (Hpld d). reflexivity.
Qed.

End PhaseAccessor.

Lemma phase_top_level_then_pld_witness :
  phase Examples.pld_phase = JStr "drift".
Proof.
  apply (proj1 (proj2 (phase_top_level_then_pld Examples.pld_phase))
               [("phase", JStr "drift")]); reflexivity.
Defined.

(** C2, as stated, fails: with no top-level ["phase"] and a ["payload"]
    that is a mapping holding a phase, [phase] does not return
    [payload.phase]. *)
Lemma phase_does_not_read_payload :
  lookup (raw Examples.payload_phase_only) "phase" = None
  /\ dict_get (raw Examples.payload_phase_only) "payload"
     = JDict [("phase", JStr "drift")]
  /\ dict_get (payload Examples.payload_phase_only) "phase" = JStr "drift"
  /\ phase Examples.payload_phase_only = JNull.
Proof. repeat split. Qed.

Section TurnAccessor.
Context {rt : Runtime}.

Lemma int_or_None_of_int (v : json) (n : Z) :
  int v = Ok n -> int_or_None v = Ok (Some n).
Proof.
  intros H. unfold int_or_None.
  destruct v as [| b | z | f | s | l | d]; simpl in *; try discriminate.
  - inversion H; reflexivity.
  - inversion H; reflexivity.
  - destruct f; simpl in *; try discriminate; inversion H; reflexivity.
  - destruct (int_of_str s); simpl in *; try discriminate;
      inversion H; reflexivity.
Qed.

(** The only exception [turn] lets through is the [OverflowError] of
    [int] on an infinite float. *)
Lemma int_or_None_raises (v : json) (e : exn) :
  int_or_None v = Raise e ->
  e = OverflowError /\ exists s, v = JFloat (S754_infinity s).
Proof.
  unfold int_or_None.
  destruct v as [| b | z | f | s | l | d]; cbn; try discriminate.
  - destruct f as [s|s| |s m x]; cbn; try discriminate.
    intros H; inversion H. split; [reflexivity|]. exists s. reflexivity.
  - destruct (int_of_str s); cbn; discriminate.
Qed.

(** C10: when the payload's ["turn"] is falsy (0, the empty string, ...)
    the accessor does not return it: the result is the integer coercion
    of the top-level ["turn"] field, and [None] when there is none. *)
Theorem turn_falsy_payload_falls_back (ev : Event) :
  truthy (dict_get (payload ev) "turn") = false ->
  turn ev = int_or_None (dict_get (raw ev) "turn")
  /\ (lookup (raw ev) "turn" = None -> turn ev = Ok None)
  /\ (forall n, int (dict_get (raw ev) "turn") = Ok n ->
                turn ev = Ok (Some n)).
Proof.
  intros Hfalsy. unfold turn, py_or. rewrite Hfalsy. repeat split.
  - intros Habs. unfold dict_get. rewrite Habs. reflexivity.
  - intros n Hn. apply int_or_None_of_int. exact Hn.
Qed.

End TurnAccessor.

Lemma turn_falsy_payload_falls_back_witness :
  dict_get (payload Examples.turn_zero_in_payload) "turn" = JInt 0
  /\ @turn Plain.runtime Examples.turn_zero_in_payload = Ok (Some 7).
Proof.
  split; [reflexivity|].
  apply (proj2 (proj2 (@turn_falsy_payload_falls_back Plain.runtime
                         Examples.turn_zero_in_payload eq_refl)) 7).
  reflexivity.
Defined.

(* ====================================================================== *)
(** * Results: stripping white space *)
(* ====================================================================== *)

Section Strings.

Lemma drop_prefix_length (p : string) :
  forall s r,
    drop_prefix p s = Some r ->
    String.length s = (String.length p + String.length r)%nat.
Proof.
  induction p as [|a p IH]; intros s r; cbn [drop_prefix].
  - intros H; inversion H. reflexivity.
  - destruct s as [|b s]; [discriminate|].
    destruct (Ascii.eqb a b); [|discriminate].
    intros H. cbn [String.length]. rewrite (IH _ _ H). reflexivity.
Qed.

Lemma drop_prefix_app (p : string) :
  forall s r, drop_prefix p s = Some r -> s = (p ++ r)%string.
Proof.
  induction p as [|a p IH]; intros s r; cbn [drop_prefix].
  - intros H; inversion H. reflexivity.
  - destruct s as [|b s]; [discriminate|].
    destruct (Ascii.eqb a b) eqn:E; [|discriminate].
    apply Ascii.eqb_eq in E. subst b.
    intros H. cbn [String.append]. rewrite <- (IH _ _ H). reflexivity.
Qed.

(** What [drop_space] removes is one white space character. *)
Lemma drop_space_char (s r : string) :
  drop_space s = Some r ->
  exists ch, isspace ch = true /\ s = (ch ++ r)%string.
Proof.
  unfold drop_space, isspace. induction whitespace as [|w ws IH];
    cbn [fold_right existsb]; [discriminate|].
  destruct (drop_prefix w s) as [rest|] eqn:E.
  - intros H; inversion H; subst rest. exists w. split.
    + rewrite String.eqb_refl. reflexivity.
    + apply drop_prefix_app. exact E.
  - intros H. destruct (IH H) as (ch & Hch & Hs). exists ch.
    split; [|exact Hs]. rewrite Hch. apply orb_true_r.
Qed.

Lemma drop_space_shorter (s r : string) :
  drop_space s = Some r -> (String.length r < String.length s)%nat.
Proof.
  unfold drop_space.
  assert (H : Forall (fun w => (0 < String.length w)%nat) whitespace)
    by (repeat constructor).
  induction H as [|w ws Hw Hws IH]; cbn [fold_right]; [discriminate|].
  destruct (drop_prefix w s) as [rest|] eqn:E; [|exact IH].
  intros H; inversion H; subst rest.
  apply drop_prefix_length in E. lia.
Qed.

Lemma lstrip_upto_done (n : nat) :
  forall s, (String.length s <= n)%nat -> drop_space (lstrip_upto n s) = None.
Proof.
  induction n as [|n IH]; intros s Hlen; cbn [lstrip_upto].
  - destruct (drop_space s) as [r|] eqn:E; [|reflexivity].
    apply drop_space_shorter in E. lia.
  - destruct (drop_space s) as [r|] eqn:E; [|exact E].
    apply IH. apply drop_space_shorter in E. lia.
Qed.

(** What [lstrip] returns does not start with a white space character:
    the bound on the number of characters removed is never met. *)
Lemma lstrip_done (s : string) : drop_space (lstrip s) = None.
Proof. apply lstrip_upto_done. constructor. Qed.

(** [lstrip] is the identity on what does not start with white
    space. *)
Lemma lstrip_none (s : string) : drop_space s = None -> lstrip s = s.
Proof.
  unfold lstrip. intros H. destruct (String.length s); cbn [lstrip_upto];
    [reflexivity|]. rewrite H. reflexivity.
Qed.

(** [lstrip] goes through a leading white space character. *)
Lemma lstrip_space (s r : string) :
  drop_space s = Some r -> lstrip s = lstrip r.
Proof.
  intros H. unfold lstrip. pose proof (drop_space_shorter _ _ H) as Hlen.
  destruct (String.length s) as [|n] eqn:En; [lia|].
  cbn [lstrip_upto]. rewrite H.
  assert (Hsame : forall n m t,
             (String.length t <= n)%nat -> (String.length t <= m)%nat ->
             lstrip_upto n t = lstrip_upto m t).
  { clear. induction n as [|n IH]; intros m t Hn Hm.
    - destruct t; [|cbn in Hn; lia]. destruct m; reflexivity.
    - destruct m as [|m].
      + destruct t; [reflexivity|cbn in Hm; lia].
      + cbn [lstrip_upto]. destruct (drop_space t) as [r|] eqn:E;
          [|reflexivity].
        apply drop_space_shorter in E. apply IH; lia. }
  apply Hsame; lia.
Qed.

(** What [rstrip] removes is white space up to the end. *)
Lemma rstrip_blanks (s : string) :
  exists blanks, s = (rstrip s ++ blanks)%string /\ lstrip blanks = "".
Proof.
  induction s as [|c s (blanks & Hs & Hb)].
  - exists "". split; reflexivity.
  - cbn [rstrip]. destruct (String.eqb (lstrip (String c s)) "") eqn:E.
    + apply String.eqb_eq in E. exists (String c s). split; [reflexivity|exact E].
    + exists blanks. split; [|exact Hb].
      cbn [String.append]. rewrite <- Hs. reflexivity.
Qed.

End Strings.

(** White space is stripped whatever its code point: a no-break space
    (U+00A0), an em space (U+2003), an ideographic space (U+3000). *)
Example strip_examples :
  strip ("ok" ++ chr 160) = "ok"
  /\ strip (chr 8195 ++ " done" ++ chr 12288 ++ chr 10) = "done"
  /\ strip ("a" ++ chr 160 ++ "b") = ("a" ++ chr 160 ++ "b")%string
  /\ strip (chr 233) = chr 233.
Proof. vm_compute. repeat split. Qed.

(** A [status] followed by a no-break space is looked up without it. *)
Example closure_strips_unicode_blanks :
  classify_session_closure
    (rt := Plain.runtime)
    [mkEvent [("payload", JDict [("status", JStr ("ok" ++ chr 160))])]]
  = "natural_completion".
Proof. vm_compute. reflexivity. Qed.

(* ====================================================================== *)
(** * Results: session closure *)
(* ====================================================================== *)

Section Closure.
Context {rt : Runtime}.

(** Every label of the lookup table is a non-empty string, so the
    test [if label:] only asks whether the key was found. *)
Lemma closure_labels_nonempty (key label : string) :
  labels_get CLOSURE_LABELS key = Some label -> String.eqb label "" = false.
Proof.
  unfold CLOSURE_LABELS. cbn [labels_get].
  repeat match goal with
         | |- context [String.eqb ?k key] => destruct (String.eqb k key)
         end;
    intros H; inversion H; reflexivity.
Qed.

Lemma first_label_cons (field : string) (rest : list (option string)) :
  first_label (or_None field :: rest)
  = match mapped_label field with
    | Some label => Some label
    | None => first_label rest
    end.
Proof.
  unfold or_None, mapped_label.
  destruct (String.eqb field ""); cbn [first_label]; [reflexivity|].
  destruct (labels_get CLOSURE_LABELS field) as [label|] eqn:E; [|reflexivity].
  rewrite (closure_labels_nonempty _ _ E). reflexivity.
Qed.

(** C5: the classification reads the last record only and follows the
    chain [status] > [final_status] > [pattern] (the first non-empty
    field found in the lookup table wins, an unmapped field lets the
    chain go on), then ["session_end_generic"] for a [session_end]
    record, then ["user_abandonment"] for a [user] record, else
    ["unknown"]; an empty session is ["unknown"]. *)
Theorem classify_session_closure_chain :
  classify_session_closure [] = "unknown"
  /\ forall (events : list Event) (last : Event),
       classify_session_closure (events ++ [last]) = closure_of_last last.
Proof.
  split; [reflexivity|].
  intros events last. unfold classify_session_closure, closure_of_last.
  rewrite rev_app_distr. cbn [rev app].
  fold (closure_field last "status").
  fold (closure_field last "final_status").
  fold (closure_field last "pattern").
  rewrite !first_label_cons. cbn [first_label].
  destruct (mapped_label (closure_field last "status")); [reflexivity|].
  destruct (mapped_label (closure_field last "final_status")); [reflexivity|].
  destruct (mapped_label (closure_field last "pattern")); reflexivity.
Qed.

End Closure.

(** The lookup table, and an unmapped [status] that lets [final_status]
    decide. *)
Example closure_examples :
  let last payload := mkEvent [("payload", JDict payload)] in
  @classify_session_closure Plain.runtime [last [("status", JStr "ok")]]
  = "natural_completion"
  /\ @classify_session_closure Plain.runtime
       [last [("status", JStr "halted"); ("final_status", JStr "error")]]
     = "forced_stop"
  /\ @classify_session_closure Plain.runtime
       [mkEvent [("event_type", JStr "session_end"); ("payload", JDict [])]]
     = "session_end_generic"
  /\ @classify_session_closure Plain.runtime
       [mkEvent [("component", JStr "user")]]
     = "user_abandonment".
Proof. repeat split. Qed.

(* ====================================================================== *)
(** * Results: post-correction relapse rate *)
(* ====================================================================== *)

Section Relapse.
Context {rt : Runtime}.

(** Once a correction was seen, the scan only looks for a drift-like
    record. *)
Lemma relapse_scan_after_correction (events : list Event) :
  relapse_scan events true false
  = (true, existsb is_drift_like events).
Proof.
  induction events as [|ev rest IH]; [reflexivity|].
  cbn [relapse_scan existsb negb andb].
  destruct (is_drift_like ev); [reflexivity|exact IH].
Qed.

Lemma relapse_scan_no_correction (events : list Event) :
  (forall ev, In ev events -> is_correction ev = false) ->
  relapse_scan events false false = (false, false).
Proof.
  induction events as [|ev rest IH]; intros H; [reflexivity|].
  cbn [relapse_scan negb andb].
  rewrite (H ev (or_introl eq_refl)).
  apply IH. intros e He. apply H. right. exact He.
Qed.

Lemma relapse_scan_split (before after : list Event) (c : Event) :
  (forall ev, In ev before -> is_correction ev = false) ->
  is_correction c = true ->
  relapse_scan (before ++ c :: after) false false
  = (true, existsb is_drift_like after).
Proof.
  induction before as [|ev rest IH]; intros H Hc.
  - cbn [app relapse_scan negb andb]. rewrite Hc.
    apply relapse_scan_after_correction.
  - cbn [app relapse_scan negb andb].
    rewrite (H ev (or_introl eq_refl)).
    apply IH; [|exact Hc]. intros e He. apply H. right. exact He.
Qed.

(** Every session either has no correction record or splits at its
    first one. *)
Lemma first_correction (events : list Event) :
  (forall ev, In ev events -> is_correction ev = false)
  \/ exists before c after,
       events = before ++ c :: after
       /\ (forall ev, In ev before -> is_correction ev = false)
       /\ is_correction c = true.
Proof.
  induction events as [|ev rest IH].
  - left. intros ev [].
  - destruct (is_correction ev) eqn:E.
    + right. exists [], ev, rest. repeat split; [intros e []|exact E].
    + destruct IH as [IH | (before & c & after & -> & Hb & Hc)].
      * left. intros e [<- | He]; [exact E|apply IH; exact He].
      * right. exists (ev :: before), c, after. repeat split; [|exact Hc].
        intros e [<- | He]; [exact E|apply Hb; exact He].
Qed.

Lemma session_had_correction_iff (events : list Event) :
  session_had_correction events = true <-> has_correction events.
Proof.
  unfold session_had_correction, has_correction.
  destruct (first_correction events)
    as [Hno | (before & c & after & -> & Hb & Hc)].
  - rewrite (relapse_scan_no_correction _ Hno). split; [discriminate|].
    intros (ev & Hin & Hev). rewrite (Hno ev Hin) in Hev. discriminate.
  - rewrite (relapse_scan_split _ _ _ Hb Hc). split; [|reflexivity].
    intros _. exists c. split; [|exact Hc].
    apply in_or_app. right. left. reflexivity.
Qed.

(** Two splits of a session at its first correction record agree. *)
Lemma first_correction_unique (b1 b2 a1 a2 : list Event) (c1 c2 : Event) :
  b1 ++ c1 :: a1 = b2 ++ c2 :: a2 ->
  (forall ev, In ev b1 -> is_correction ev = false) ->
  (forall ev, In ev b2 -> is_correction ev = false) ->
  is_correction c1 = true -> is_correction c2 = true ->
  a1 = a2.
Proof.
  revert b2. induction b1 as [|x b1 IH]; intros [|y b2] Heq H1 H2 Hc1 Hc2.
  - injection Heq as _ ->. reflexivity.
  - injection Heq as -> _. rewrite (H2 y (or_introl eq_refl)) in Hc1.
    discriminate.
  - injection Heq as -> _. rewrite (H1 c2 (or_introl eq_refl)) in Hc2.
    discriminate.
  - injection Heq as -> Heq. apply (IH b2 Heq); auto.
    + intros e He. apply H1. right. exact He.
    + intros e He. apply H2. right. exact He.
Qed.

Lemma session_relapsed_iff (events : list Event) :
  session_had_correction events && session_relapsed events = true
  <-> has_relapse events.
Proof.
  unfold session_had_correction, session_relapsed, has_relapse.
  destruct (first_correction events)
    as [Hno | (before & c & after & -> & Hb & Hc)].
  - rewrite (relapse_scan_no_correction _ Hno). split; [discriminate|].
    intros (b & c & a & d & -> & _ & Hc & _).
    rewrite (Hno c) in Hc; [discriminate|].
    apply in_or_app. right. left. reflexivity.
  - rewrite (relapse_scan_split _ _ _ Hb Hc). cbn [fst snd andb]. split.
    + intros Hex. apply existsb_exists in Hex as (d & Hin & Hd).
      exists before, c, after, d. repeat split; assumption.
    + intros (b & c' & a & d & Heq & Hb' & Hc' & Hin & Hd).
      rewrite (first_correction_unique _ _ _ _ _ _ Heq Hb Hb' Hc Hc').
      apply existsb_exists. exists d. split; assumption.
Qed.

Lemma relapse_fold (sessions : list (list Event)) (wc wr : Z) :
  fold_left
    (fun (acc : Z * Z) events =>
       let '(with_correction, with_relapse) := acc in
       let '(had_correction, relapsed) := relapse_scan events false false in
       if had_correction then
         (with_correction + 1,
          if relapsed then with_relapse + 1 else with_relapse)
       else (with_correction, with_relapse))
    sessions (wc, wr)
  = (wc + count session_had_correction sessions,
     wr + count (fun events =>
                   session_had_correction events && session_relapsed events)
                sessions).
Proof.
  revert wc wr. induction sessions as [|events rest IH]; intros wc wr.
  - unfold count. cbn. f_equal; lia.
  - cbn [fold_left]. unfold count, session_had_correction, session_relapsed.
    cbn [filter].
    destruct (relapse_scan events false false) as [had relapsed] eqn:E.
    cbn [fst snd].
    destruct had, relapsed; cbn [andb]; rewrite IH;
      unfold count, session_had_correction, session_relapsed;
      cbn [List.length]; f_equal; lia.
Qed.

(** C4: a session counts in [sessions_with_correction] iff it contains a
    correction or self-check record, and in [sessions_with_relapse] iff
    moreover a record strictly after its first correction record is
    drift-like; a session without correction counts in neither. *)
Theorem relapse_rate_counts (t : traces) :
  compute_post_correction_relapse_rate t
  = (count (fun events =>
              session_had_correction events && session_relapsed events)
           (values t),
     count session_had_correction (values t))
  /\ (forall events,
         session_had_correction events = true <-> has_correction events)
  /\ (forall events,
         session_had_correction events && session_relapsed events = true
         <-> has_relapse events).
Proof.
  split; [|split; [exact session_had_correction_iff
                  |exact session_relapsed_iff]].
  unfold compute_post_correction_relapse_rate.
  rewrite relapse_fold. reflexivity.
Qed.

End Relapse.

(* ====================================================================== *)
(** * Results: recovery turn distance *)
(* ====================================================================== *)

Section Recovery.
Context {rt : Runtime}.

Lemma recovery_body_step (s : recovery_state) (distances : list Z) (ev : Event) :
  recovery_body (onset_of s, distances) ev
  = r <- machine_step s ev ;; Ok (onset_of (fst r), distances ++ snd r).
Proof.
  destruct s as [|onset]; cbn [recovery_body onset_of machine_step].
  - destruct (String.eqb (event_type ev) "drift_like").
    + destruct (turn ev) as [[n|]|e]; cbn; rewrite ?app_nil_r; reflexivity.
    + cbn. rewrite app_nil_r. reflexivity.
  - destruct (eq_str (dict_get (payload ev) "stability_tag") "recovered").
    + destruct (turn ev) as [[n|]|e]; cbn; reflexivity.
    + cbn. rewrite app_nil_r. reflexivity.
Qed.

Lemma recovery_loop (events : list Event) :
  forall (s : recovery_state) (distances : list Z),
    for_each recovery_body events (onset_of s, distances)
    = r <- machine_run s events ;;
      Ok (onset_of (fst r), distances ++ snd r).
Proof.
  induction events as [|ev rest IH]; intros s distances.
  - cbn. rewrite app_nil_r. reflexivity.
  - cbn [for_each machine_run]. rewrite recovery_body_step.
    destruct (machine_step s ev) as [[s' out]|e]; [|reflexivity].
    cbn [bind fst snd]. rewrite IH.
    destruct (machine_run s' rest) as [[s'' out']|e]; [|reflexivity].
    cbn [bind fst snd]. rewrite app_assoc. reflexivity.
Qed.

Lemma recovery_sessions (sessions : list (list Event)) :
  forall distances : list Z,
    for_each
      (fun distances events =>
         st <- for_each recovery_body events (None, distances) ;; Ok (snd st))
      sessions distances
    = ds <- machine_distances sessions ;; Ok (distances ++ ds).
Proof.
  induction sessions as [|events rest IH]; intros distances.
  - cbn. rewrite app_nil_r. reflexivity.
  - cbn [for_each machine_distances].
    change (@None Z) with (onset_of idle). rewrite recovery_loop.
    unfold session_distances.
    destruct (machine_run idle events) as [[s out]|e]; [|reflexivity].
    cbn [bind fst snd]. rewrite IH.
    destruct (machine_distances rest) as [ds|e]; [|reflexivity].
    cbn [bind]. rewrite app_assoc. reflexivity.
Qed.

Lemma machine_step_nonneg (s s' : recovery_state) (ev : Event) (out : list Z) :
  machine_step s ev = Ok (s', out) -> Forall (fun d => 0 <= d) out.
Proof.
  destruct s as [|onset]; cbn [machine_step].
  - destruct (String.eqb (event_type ev) "drift_like");
      [destruct (turn ev) as [t|e]; cbn|];
      intros H; inversion H; constructor.
  - destruct (eq_str (dict_get (payload ev) "stability_tag") "recovered");
      [destruct (turn ev) as [t|e]; cbn|];
      intros H; inversion H; repeat constructor. apply Z.le_max_l.
Qed.

Lemma machine_run_nonneg (events : list Event) :
  forall (s s' : recovery_state) (out : list Z),
    machine_run s events = Ok (s', out) -> Forall (fun d => 0 <= d) out.
Proof.
  induction events as [|ev rest IH]; intros s s' out; cbn [machine_run].
  - intros H; inversion H; constructor.
  - destruct (machine_step s ev) as [[s1 o1]|e] eqn:E1; [|discriminate].
    cbn [bind fst snd].
    destruct (machine_run s1 rest) as [[s2 o2]|e] eqn:E2; [|discriminate].
    cbn [bind fst snd]. intros H; inversion H; subst.
    apply Forall_app. split.
    + exact (machine_step_nonneg _ _ _ _ E1).
    + exact (IH _ _ _ E2).
Qed.

Lemma machine_distances_nonneg (sessions : list (list Event)) :
  forall ds, machine_distances sessions = Ok ds -> Forall (fun d => 0 <= d) ds.
Proof.
  induction sessions as [|events rest IH]; intros ds; cbn [machine_distances].
  - intros H; inversion H; constructor.
  - unfold session_distances.
    destruct (machine_run idle events) as [[s out]|e] eqn:E; [|discriminate].
    cbn [bind snd].
    destruct (machine_distances rest) as [ds'|e]; [|discriminate].
    cbn [bind]. intros H; inversion H; subst.
    apply Forall_app. split; [exact (machine_run_nonneg _ _ _ _ E)|].
    apply IH. reflexivity.
Qed.

Lemma machine_run_app (a b : list Event) :
  forall s,
    machine_run s (a ++ b)
    = r <- machine_run s a ;;
      r' <- machine_run (fst r) b ;;
      Ok (fst r', snd r ++ snd r').
Proof.
  induction a as [|ev rest IH]; intros s.
  - cbn. destruct (machine_run s b) as [[s' out]|e]; reflexivity.
  - cbn [app machine_run].
    destruct (machine_step s ev) as [[s1 o1]|e]; [|reflexivity].
    cbn [bind fst snd]. rewrite IH.
    destruct (machine_run s1 rest) as [[s2 o2]|e]; [|reflexivity].
    cbn [bind fst snd].
    destruct (machine_run s2 b) as [[s3 o3]|e]; [|reflexivity].
    cbn [bind fst snd]. rewrite app_assoc. reflexivity.
Qed.

(** While no record carries the recovered tag, a pending onset stays
    pending and nothing is emitted. *)
Lemma machine_run_pending (events : list Event) (onset : Z) :
  (forall ev, In ev events ->
              eq_str (dict_get (payload ev) "stability_tag") "recovered" = false) ->
  machine_run (onset_pending onset) events = Ok (onset_pending onset, []).
Proof.
  induction events as [|ev rest IH]; intros H; [reflexivity|].
  cbn [machine_run machine_step]. rewrite (H ev (or_introl eq_refl)).
  cbn [bind fst snd]. rewrite IH; [reflexivity|].
  intros e He. apply H. right. exact He.
Qed.

(** C3: for every grouped input the distances are those of the
    two-state machine run on each session from [idle] (onset at a
    drift-like record, with turn 0 when undefined; distance
    [max(0, recovered_turn - onset_turn)] at the first later record
    tagged recovered, its turn defaulting to the onset's; then [idle]
    again), in order; every distance is non-negative; and an onset that
    meets no recovered record before the session ends adds nothing. *)
Theorem recovery_distances_machine (t : traces) :
  compute_recovery_turn_distances t = machine_distances (values t)
  /\ (forall ds, compute_recovery_turn_distances t = Ok ds ->
                 Forall (fun d => 0 <= d) ds)
  /\ (forall tid events d after ds onset,
         machine_run idle events = Ok (idle, ds) ->
         event_type d = "drift_like" ->
         turn d = Ok onset ->
         (forall ev, In ev after ->
            eq_str (dict_get (payload ev) "stability_tag") "recovered" = false) ->
         compute_recovery_turn_distances [(tid, events ++ d :: after)] = Ok ds).
Proof.
  assert (Hrun : forall t', compute_recovery_turn_distances t'
                            = machine_distances (values t')).
  { intros t'. unfold compute_recovery_turn_distances.
    rewrite recovery_sessions.
    destruct (machine_distances (values t')); reflexivity. }
  split; [apply Hrun|]. split.
  - intros ds H. rewrite Hrun in H. exact (machine_distances_nonneg _ _ H).
  - intros tid events d after ds onset Hev Hd Ht Hafter.
    rewrite Hrun. cbn [values map snd machine_distances].
    unfold session_distances. rewrite machine_run_app, Hev.
    cbn [bind fst snd machine_run machine_step]. rewrite Hd.
    cbn [String.eqb Ascii.eqb Bool.eqb]. rewrite Ht. cbn [bind fst snd].
    rewrite machine_run_pending by exact Hafter.
    cbn. rewrite !app_nil_r. reflexivity.
Qed.

End Recovery.

(* ====================================================================== *)
(** * Results: relative latency gap *)
(* ====================================================================== *)

Section LatencyGaps.
Context {rt : Runtime}.

(** The floor [1.0] keeps the divisor away from zero. *)
Lemma max3_one_not_zero (a b : float) : fis_zero (max3 a b fone) = false.
Proof.
  unfold max3.
  set (m := if fgtb b a then b else a).
  destruct (fgtb fone m) eqn:E; [reflexivity|].
  destruct m; try reflexivity. discriminate E.
Qed.

Lemma fdiv_max3_one (x a b : float) :
  fdiv x (max3 a b fone) = Ok (SFdiv prec emax x (max3 a b fone)).
Proof. unfold fdiv. rewrite max3_one_not_zero. reflexivity. Qed.

(** The only exception [latency_ms] lets through is the [OverflowError]
    of [float] on an integer beyond the range of a double. *)
Lemma latency_ms_raises (ev : Event) (e : exn) :
  latency_ms ev = Raise e ->
  e = OverflowError
  /\ exists z, dict_get (payload ev) "latency_ms" = JInt z.
Proof.
  unfold latency_ms.
  destruct (dict_get (payload ev) "latency_ms") as [| b | z | f | s | l | d];
    cbn; try discriminate.
  - destruct (float_of_Z z); cbn; try discriminate.
    intros H; inversion H. split; [reflexivity|]. exists z. reflexivity.
  - destruct (float_of_str s); cbn; discriminate.
Qed.

Lemma gap_loop (events : list Event) :
  forall (prev : option float) (gaps : list float),
    match for_each gap_body events (prev, gaps) with
    | Ok (_, gaps') =>
        List.length gaps'
        = (List.length gaps
           + pairs_from prev (List.length (filter has_latency events)))%nat
    | Raise e => exists ev, In ev events /\ latency_ms ev = Raise e
    end.
Proof.
  induction events as [|ev rest IH]; intros prev gaps.
  - cbn. destruct prev; cbn; lia.
  - cbn [for_each filter]. unfold gap_body at 1, has_latency at 1.
    destruct (latency_ms ev) as [[lat|]|e] eqn:E; cbn [bind].
    + destruct prev as [p|].
      * rewrite fdiv_max3_one. cbn [bind].
        specialize (IH (Some lat)
                       (gaps ++ [SFdiv prec emax (fabs (fsub p lat))
                                       (max3 p lat fone)])).
        destruct (for_each gap_body rest _) as [[prev' gaps']|e'].
        -- cbv beta iota in IH |- *. rewrite IH, length_app.
           cbn [List.length pairs_from]. lia.
        -- destruct IH as (ev' & Hin & Hev'). exists ev'.
           split; [right; exact Hin|exact Hev'].
      * cbn [bind]. specialize (IH (Some lat) gaps).
        destruct (for_each gap_body rest _) as [[prev' gaps']|e'].
        -- cbv beta iota in IH |- *. rewrite IH.
           cbn [List.length pairs_from]. lia.
        -- destruct IH as (ev' & Hin & Hev'). exists ev'.
           split; [right; exact Hin|exact Hev'].
    + cbn [bind]. specialize (IH prev gaps).
      destruct (for_each gap_body rest _) as [[prev' gaps']|e'].
      * exact IH.
      * destruct IH as (ev' & Hin & Hev'). exists ev'.
        split; [right; exact Hin|exact Hev'].
    + exists ev. split; [left; reflexivity|exact E].
Qed.

Lemma gap_sessions (sessions : list (list Event)) :
  forall gaps : list float,
    match
      for_each
        (fun gaps events =>
           st <- for_each gap_body events (None, gaps) ;; Ok (snd st))
        sessions gaps
    with
    | Ok gaps' =>
        Z.of_nat (List.length gaps')
        = Z.of_nat (List.length gaps) + sum_Z (map expected_gap_count sessions)
    | Raise e =>
        exists events ev,
          In events sessions /\ In ev events /\ latency_ms ev = Raise e
    end.
Proof.
  induction sessions as [|events rest IH]; intros gaps.
  - cbn. lia.
  - cbn [for_each map sum_Z].
    pose proof (gap_loop events None gaps) as Hloop.
    destruct (for_each gap_body events (None, gaps)) as [[prev' gaps']|e];
      cbn [bind snd].
    + specialize (IH gaps').
      destruct (for_each _ rest gaps') as [gaps''|e].
      * rewrite IH. unfold expected_gap_count.
        cbn [pairs_from] in Hloop. lia.
      * destruct IH as (evs & ev & Hin & Hev & Hr). exists evs, ev.
        repeat split; [right; exact Hin|exact Hev|exact Hr].
    + destruct Hloop as (ev & Hin & Hr). exists events, ev.
      repeat split; [left; reflexivity|exact Hin|exact Hr].
Qed.

(** C7: the number of gaps is the sum over the sessions of
    [max(0, n_s - 1)], [n_s] counting the records of the session with a
    defined latency; records without one are skipped and do not break a
    pair.  (No list is returned only when some record's [latency_ms]
    itself raises.) *)
Theorem latency_gap_count (t : traces) :
  match compute_relative_latency_gaps t with
  | Ok gaps =>
      Z.of_nat (List.length gaps) = sum_Z (map expected_gap_count (values t))
  | Raise e =>
      exists events ev,
        In events (values t) /\ In ev events /\ latency_ms ev = Raise e
  end.
Proof.
  unfold compute_relative_latency_gaps.
  pose proof (gap_sessions (values t) []) as H.
  destruct (for_each _ (values t) []) as [gaps|e]; [|exact H].
  rewrite H. cbn. reflexivity.
Qed.

(** [|a - b|] does not depend on the order of [a] and [b]. *)
Lemma binary_round_aux_abs (s : bool) (m e : Z) (l : location) :
  fabs (binary_round_aux prec emax s m e l)
  = fabs (binary_round_aux prec emax false m e l).
Proof.
  unfold binary_round_aux.
  destruct (shr_fexp prec emax m e l) as [mrs' e'].
  destruct (shr_fexp prec emax _ e' loc_Exact) as [mrs'' e''].
  destruct (shr_m mrs''); try reflexivity.
  destruct (e'' <=? emax - prec); reflexivity.
Qed.

Lemma binary_normalize_abs_opp (m e : Z) :
  fabs (binary_normalize prec emax (- m) e false)
  = fabs (binary_normalize prec emax m e false).
Proof.
  destruct m as [|p|p]; cbn [Z.opp binary_normalize]; [reflexivity| |];
    unfold binary_round;
    destruct (shl_align p e _) as [mz ez];
    [apply binary_round_aux_abs | symmetry; apply binary_round_aux_abs].
Qed.

Lemma fabs_fsub_sym (a b : float) : fabs (fsub a b) = fabs (fsub b a).
Proof.
  destruct a as [sa|sa| |sa ma ea], b as [sb|sb| |sb mb eb];
    try reflexivity;
    try (destruct sa, sb; reflexivity).
  unfold fsub, SFsub. rewrite (Z.min_comm eb ea).
  rewrite <- binary_normalize_abs_opp. f_equal. f_equal. lia.
Qed.

Lemma SFcompare_antisym (a b : float) :
  SFcompare b a = option_map CompOpp (SFcompare a b).
Proof.
  destruct a as [sa|sa| |sa ma ea], b as [sb|sb| |sb mb eb];
    try reflexivity;
    try (destruct sa; reflexivity); try (destruct sb; reflexivity);
    try (destruct sa, sb; reflexivity).
  cbn [SFcompare option_map].
  change (PosDef.Pos.compare_cont Eq mb ma) with (Pos.compare mb ma).
  change (PosDef.Pos.compare_cont Eq ma mb) with (Pos.compare ma mb).
  rewrite (Z.compare_antisym ea eb), (Pos.compare_antisym ma mb).
  destruct sa, sb, (ea ?= eb), (ma ?= mb)%positive; reflexivity.
Qed.

(** Two positive floats that compare equal are the same float. *)
Lemma positive_compare_eq (a b : float) :
  fltb fzero a = true -> SFcompare a b = Some Eq -> a = b.
Proof.
  unfold fltb, SFltb, fzero.
  destruct a as [sa|sa| |sa ma ea], b as [sb|sb| |sb mb eb];
    cbn [SFcompare]; try discriminate;
    try (destruct sa; discriminate); try (destruct sb; discriminate);
    try (destruct sa, sb; discriminate).
  - destruct sa, sb; try discriminate. reflexivity.
  - destruct sa; [discriminate|]. destruct sb; [discriminate|].
    intros _ H.
    destruct (ea ?= eb) eqn:E; try discriminate.
    apply Z.compare_eq in E. subst eb.
    change (PosDef.Pos.compare_cont Eq ma mb) with (Pos.compare ma mb) in H.
    destruct (ma ?= mb)%positive eqn:E'; try discriminate.
    apply Pos.compare_eq in E'. subst mb. reflexivity.
Qed.

Lemma max3_sym (a b : float) :
  fltb fzero a = true -> fltb fzero b = true ->
  max3 a b fone = max3 b a fone.
Proof.
  intros Ha Hb. unfold max3.
  destruct (fgtb b a) eqn:Eba, (fgtb a b) eqn:Eab; try reflexivity;
    unfold fgtb, SFltb in Eba, Eab; rewrite (SFcompare_antisym a b) in Eab.
  - destruct (SFcompare a b) as [[| |]|]; discriminate.
  - assert (Hcmp : SFcompare a b = Some Eq).
    { destruct (SFcompare a b) as [[| |]|] eqn:E; try discriminate;
        [reflexivity|].
      exfalso. revert Ha Hb E. unfold fltb, SFltb, fzero.
      destruct a as [sa|sa| |sa ma ea], b as [sb|sb| |sb mb eb];
        cbn [SFcompare]; try discriminate;
        try (destruct sa; discriminate); try (destruct sb; discriminate). }
    rewrite (positive_compare_eq a b Ha Hcmp). reflexivity.
Qed.

Lemma relative_gap_sym (a b : float) :
  fltb fzero a = true -> fltb fzero b = true ->
  relative_gap a b = relative_gap b a.
Proof.
  intros Ha Hb. unfold relative_gap.
  rewrite (fabs_fsub_sym a b), (max3_sym a b Ha Hb). reflexivity.
Qed.

(** C6: for a session of two records with latencies [a > 0] and
    [b > 0] the single gap is [|a - b| / max(a, b, 1)], and it is the
    same when the two records are swapped. *)
Theorem two_record_gap (tid : string) (e1 e2 : Event) (a b : float) :
  latency_ms e1 = Ok (Some a) ->
  latency_ms e2 = Ok (Some b) ->
  fltb fzero a = true ->
  fltb fzero b = true ->
  compute_relative_latency_gaps [(tid, [e1; e2])] = Ok [relative_gap a b]
  /\ compute_relative_latency_gaps [(tid, [e2; e1])] = Ok [relative_gap a b]
  /\ relative_gap a b = relative_gap b a.
Proof.
  intros H1 H2 Ha Hb.
  assert (Hgap : forall x y u v,
             latency_ms x = Ok (Some u) -> latency_ms y = Ok (Some v) ->
             compute_relative_latency_gaps [(tid, [x; y])]
             = Ok [relative_gap u v]).
  { intros x y u v Hx Hy. unfold compute_relative_latency_gaps.
    cbn [values map snd for_each gap_body]. rewrite Hx.
    cbn [bind for_each gap_body]. rewrite Hy.
    cbn [bind]. rewrite fdiv_max3_one. reflexivity. }
  repeat split.
  - apply Hgap; assumption.
  - rewrite (relative_gap_sym a b Ha Hb). apply Hgap; assumption.
  - apply relative_gap_sym; assumption.
Qed.

End LatencyGaps.

(* ====================================================================== *)
(** * Results: timestamp monotonicity *)
(* ====================================================================== *)

Section Monotonicity.
Context {rt : Runtime}.

Lemma monotonicity_loop_from (events : list Sanity.Event) :
  forall (prev : datetime) (v : Z),
    st <- for_each Sanity.monotonicity_body events (Some prev, v) ;; Ok (snd st)
    = n <- count_earlier prev (parsed_timestamps events) ;; Ok (v + n).
Proof.
  induction events as [|ev rest IH]; intros prev v.
  - cbn. f_equal. lia.
  - cbn [for_each parsed_timestamps flat_map].
    unfold Sanity.monotonicity_body at 1.
    destruct (Sanity.timestamp ev) as [ts|].
    + cbn [app count_earlier].
      destruct (dt_lt ts prev) as [earlier|e]; [|reflexivity].
      cbn [bind]. fold (parsed_timestamps rest). rewrite IH.
      destruct (count_earlier ts (parsed_timestamps rest)) as [n|e];
        [|reflexivity].
      cbn [bind]. f_equal. destruct earlier; lia.
    + cbn [bind app]. apply IH.
Qed.

Lemma monotonicity_loop (events : list Sanity.Event) :
  forall v : Z,
    st <- for_each Sanity.monotonicity_body events (None, v) ;; Ok (snd st)
    = n <- violations (parsed_timestamps events) ;; Ok (v + n).
Proof.
  induction events as [|ev rest IH]; intros v.
  - cbn. f_equal. lia.
  - cbn [for_each parsed_timestamps flat_map].
    unfold Sanity.monotonicity_body at 1.
    destruct (Sanity.timestamp ev) as [ts|].
    + cbn [bind app violations]. apply monotonicity_loop_from.
    + cbn [bind app]. apply IH.
Qed.

Lemma check_timestamp_monotonicity_spec (events : list Sanity.Event) :
  Sanity.check_timestamp_monotonicity events
  = n <- violations (parsed_timestamps events) ;; Ok (n =? 0, n).
Proof.
  unfold Sanity.check_timestamp_monotonicity.
  pose proof (monotonicity_loop events 0) as H.
  destruct (for_each Sanity.monotonicity_body events (None, 0)) as [st|e];
    destruct (violations (parsed_timestamps events)) as [n|e'];
    cbn [bind] in H |- *; inversion H; subst; reflexivity.
Qed.

Lemma parsed_timestamps_none (events : list Sanity.Event) :
  (forall ev, In ev events -> Sanity.timestamp ev = None) ->
  parsed_timestamps events = [].
Proof.
  induction events as [|ev rest IH]; intros H; [reflexivity|].
  cbn [parsed_timestamps flat_map]. rewrite (H ev (or_introl eq_refl)).
  apply IH. intros e He. apply H. right. exact He.
Qed.

(** C8: the check counts the records whose parsed timestamp is strictly
    earlier than the previous parseable one; a record whose timestamp
    does not parse is skipped, neither counted nor taken as the new
    baseline.  The session [10:00:00, 10:00:05, 09:59:59] has exactly
    one violation, and a session without any parseable timestamp has
    none. *)
Theorem timestamp_monotonicity_counts :
  (forall events,
      Sanity.check_timestamp_monotonicity events
      = n <- violations (parsed_timestamps events) ;; Ok (n =? 0, n))
  /\ (forall e1 e2 e3,
         Sanity.timestamp e1 = Some (at_time 10 0 0) ->
         Sanity.timestamp e2 = Some (at_time 10 0 5) ->
         Sanity.timestamp e3 = Some (at_time 9 59 59) ->
         Sanity.check_timestamp_monotonicity [e1; e2; e3] = Ok (false, 1))
  /\ (forall events,
         (forall ev, In ev events -> Sanity.timestamp ev = None) ->
         Sanity.check_timestamp_monotonicity events = Ok (true, 0)).
Proof.
  split; [exact check_timestamp_monotonicity_spec|]. split.
  - intros e1 e2 e3 H1 H2 H3. rewrite check_timestamp_monotonicity_spec.
    cbn [parsed_timestamps flat_map]. rewrite H1, H2, H3. reflexivity.
  - intros events H. rewrite check_timestamp_monotonicity_spec.
    rewrite (parsed_timestamps_none events H). reflexivity.
Qed.

End Monotonicity.

(* ====================================================================== *)
(** * Results: the loader *)
(* ====================================================================== *)

Section Loader.
Context {rt : Runtime}.

Lemma nonempty_ids_snoc (events : list Event) (ev : Event) :
  nonempty_ids (events ++ [ev])
  = nonempty_ids events
    ++ (if negb (String.eqb (trace_id ev) "") then [trace_id ev] else []).
Proof.
  unfold nonempty_ids. rewrite map_app, filter_app. reflexivity.
Qed.

Lemma in_nonempty_ids (events : list Event) (tid : string) :
  In tid (nonempty_ids events) <-> In tid (map trace_id events) /\ tid <> "".
Proof.
  unfold nonempty_ids. rewrite filter_In, negb_true_iff, String.eqb_neq.
  reflexivity.
Qed.

Lemma set_add_length (tid : string) (seen : list string) :
  List.length (set_add string_dec tid seen)
  = if in_dec string_dec tid seen then List.length seen
    else S (List.length seen).
Proof.
  induction seen as [|x seen IH]; [reflexivity|].
  cbn [set_add]. destruct (string_dec tid x) as [->|Hne].
  - destruct (in_dec string_dec x (x :: seen)) as [_|Hn]; [reflexivity|].
    exfalso. apply Hn. left. reflexivity.
  - cbn [List.length]. rewrite IH.
    destruct (in_dec string_dec tid seen) as [Hin|Hnin];
      destruct (in_dec string_dec tid (x :: seen)) as [Hin'|Hnin'];
      try reflexivity.
    + exfalso. apply Hnin'. right. exact Hin.
    + exfalso. destruct Hin' as [->|Hin']; [apply Hne; reflexivity|].
      apply Hnin. exact Hin'.
Qed.

(** A duplicate-free list with the elements of [l] is as long as
    [nodup l]. *)
Lemma length_distinct (seen l : list string) :
  NoDup seen -> (forall x, In x seen <-> In x l) ->
  List.length seen = List.length (nodup string_dec l).
Proof.
  intros Hnd Hiff. apply Nat.le_antisymm.
  - apply NoDup_incl_length; [exact Hnd|].
    intros x Hx. apply nodup_In, Hiff, Hx.
  - apply NoDup_incl_length; [apply NoDup_nodup|].
    intros x Hx. apply Hiff. apply nodup_In in Hx. exact Hx.
Qed.

(** The loop invariant: [seen_traces] holds exactly the non-empty trace
    ids of the records appended so far, and the cap is not exceeded. *)
Lemma load_loop_capped (n : Z) (lines : list file_line) :
  forall (events : list Event) (seen : list string) (evs : list Event),
    NoDup seen ->
    (forall x, In x seen <-> In x (nonempty_ids events)) ->
    Z.of_nat (List.length seen) <= Z.max 0 n ->
    load_loop (Some n) lines events seen = Ok evs ->
    Z.of_nat (List.length (distinct_sessions evs)) <= Z.max 0 n
    /\ exists rest,
         events ++ object_events lines = evs ++ rest
         /\ match rest with
            | [] => True
            | ev :: _ =>
                trace_id ev <> ""
                /\ ~ In (trace_id ev) (map trace_id evs)
                /\ Z.of_nat (List.length (distinct_sessions evs)) = Z.max 0 n
            end.
Proof.
  induction lines as [|line rest IH]; intros events seen evs Hnd Hiff Hlen.
  - cbn [load_loop object_events]. intros H; inversion H; subst evs.
    unfold distinct_sessions.
    rewrite <- (length_distinct seen _ Hnd Hiff).
    split; [exact Hlen|]. exists []. split; [reflexivity|exact I].
  - destruct line as [| |obj|e]; cbn [load_loop object_events];
      try (apply IH; assumption); try discriminate.
    destruct obj as [| b | z | f | s | l | obj]; try discriminate.
    set (ev := mkEvent obj). destruct (String.eqb (trace_id ev) "") eqn:Etid;
      cbn [negb].
    + (* empty trace id: appended, the set is unchanged *)
      intros H.
      destruct (IH (events ++ [ev]) seen evs Hnd) as (Hc & tl & Heq & Htl);
        try assumption.
      * intros x. rewrite nonempty_ids_snoc, Etid. cbn [negb].
        rewrite app_nil_r. apply Hiff.
      * split; [exact Hc|]. exists tl. rewrite <- app_assoc in Heq.
        split; [exact Heq|exact Htl].
    + (* non-empty trace id *)
      pose proof (set_add_length (trace_id ev) seen) as Hadd.
      destruct (over_cap (Some n) (set_add string_dec (trace_id ev) seen))
        eqn:Ecap; cbn [over_cap] in Ecap.
      * (* break: the capping record is not appended *)
        intros H; inversion H; subst evs.
        apply Z.ltb_lt in Ecap.
        assert (Hnew : ~ In (trace_id ev) seen).
        { intros Hin. destruct (in_dec string_dec (trace_id ev) seen);
            [|contradiction].
          destruct seen; [destruct Hin|cbn [List.length] in *; lia]. }
        destruct (in_dec string_dec (trace_id ev) seen) as [Hin|_];
          [contradiction|].
        assert (Hcount : Z.of_nat (List.length (distinct_sessions events))
                         = Z.of_nat (List.length seen)).
        { unfold distinct_sessions.
          rewrite <- (length_distinct seen _ Hnd Hiff). reflexivity. }
        split; [lia|]. exists (ev :: object_events rest).
        split; [reflexivity|]. apply String.eqb_neq in Etid.
        repeat split; [exact Etid| |lia].
        intros Hin. apply Hnew, Hiff, in_nonempty_ids. split; assumption.
      * (* under the cap: appended *)
        intros H. apply Z.ltb_ge in Ecap.
        destruct (IH (events ++ [ev]) (set_add string_dec (trace_id ev) seen)
                     evs) as (Hc & tl & Heq & Htl); try assumption.
        -- apply set_add_nodup. exact Hnd.
        -- intros x. rewrite set_add_iff, nonempty_ids_snoc, Etid.
           cbn [negb]. rewrite in_app_iff, Hiff. cbn [In].
           intuition (subst; auto).
        -- lia.
        -- split; [exact Hc|]. exists tl. rewrite <- app_assoc in Heq.
           split; [exact Heq|exact Htl].
Qed.

(** Without a cap every decoded object line yields a record. *)
Lemma load_loop_uncapped (lines : list file_line) :
  forallb (fun line => match line with
                       | Parsed (JDict _) | Blank | Malformed => true
                       | Parsed _ | Fails _ => false
                       end) lines = true ->
  forall (events : list Event) (seen : list string),
    load_loop None lines events seen = Ok (events ++ object_events lines).
Proof.
  induction lines as [|line rest IH]; intros Hall events seen.
  - cbn. rewrite app_nil_r. reflexivity.
  - cbn [forallb] in Hall. apply andb_true_iff in Hall as [Hline Hrest].
    destruct line as [| |obj|e]; cbn [load_loop object_events];
      try (apply IH; exact Hrest); try discriminate.
    destruct obj as [| b | z | f | s | l | obj]; try discriminate.
    cbn [over_cap].
    destruct (negb (String.eqb (trace_id (mkEvent obj)) ""));
      rewrite IH by exact Hrest; rewrite <- app_assoc; reflexivity.
Qed.

(** With or without a cap, the loader returns a list as long as no
    step fails and no decoded line is something else than an object. *)
Lemma load_loop_returns (cap : option Z) (lines : list file_line) :
  forallb (fun line => match line with
                       | Parsed (JDict _) | Blank | Malformed => true
                       | Parsed _ | Fails _ => false
                       end) lines = true ->
  forall (events : list Event) (seen : list string),
    exists evs, load_loop cap lines events seen = Ok evs.
Proof.
  induction lines as [|line rest IH]; intros Hall events seen.
  - exists events. reflexivity.
  - cbn [forallb] in Hall. apply andb_true_iff in Hall as [Hline Hrest].
    destruct line as [| |obj|e]; cbn [load_loop];
      try (apply IH; exact Hrest); try discriminate.
    destruct obj as [| b | z | f | s | l | obj]; try discriminate.
    destruct (negb (String.eqb (trace_id (mkEvent obj)) ""));
      [|apply IH; exact Hrest].
    destruct (over_cap cap _); [eexists; reflexivity|apply IH; exact Hrest].
Qed.

(** C1 (as amended): with a cap [N], [load_events] stops at the record
    that would bring the number of distinct non-empty trace ids above
    [N] and does not append it: the result is the list of records read
    before it, and holds at most [N] distinct non-empty trace ids
    (exactly [N] when the loader stopped on a capping record). *)
Theorem load_events_cap (lines : list file_line) (n : Z) (evs : list Event) :
  load_events lines (Some n) = Ok evs ->
  Z.of_nat (List.length (distinct_sessions evs)) <= Z.max 0 n
  /\ exists rest,
       object_events lines = evs ++ rest
       /\ match rest with
          | [] => True
          | ev :: _ =>
              trace_id ev <> ""
              /\ ~ In (trace_id ev) (map trace_id evs)
              /\ Z.of_nat (List.length (distinct_sessions evs)) = Z.max 0 n
          end.
Proof.
  intros H. unfold load_events in H.
  apply (load_loop_capped n lines [] [] evs); try assumption.
  - constructor.
  - intros x. reflexivity.
  - cbn. lia.
Qed.

End Loader.

(* ====================================================================== *)
(** * Results: the simple_correction_loop generator, end to end *)
(* ====================================================================== *)

Section EndToEnd.
Context {rt : Runtime}.

Lemma group_from (tid : string) (events : list Event) :
  Forall (fun ev => trace_id ev = tid) events ->
  forall group : list Event,
    fold_left (fun grouped ev => append_to grouped (trace_id ev) ev)
              events [(tid, group)]
    = [(tid, group ++ events)].
Proof.
  intros H. induction H as [|ev rest Hev Hrest IH]; intros group.
  - cbn. rewrite app_nil_r. reflexivity.
  - cbn [fold_left append_to]. rewrite Hev, String.eqb_refl, IH.
    rewrite <- app_assoc. reflexivity.
Qed.

(** The records of one session form one group, in their order. *)
Lemma group_by_trace_single (tid : string) (ev : Event) (events : list Event) :
  Forall (fun ev => trace_id ev = tid) (ev :: events) ->
  group_by_trace (ev :: events) = [(tid, ev :: events)].
Proof.
  intros H. apply Forall_cons_iff in H as [Hev Hrest].
  unfold group_by_trace. cbn [fold_left append_to].
  rewrite Hev. apply (group_from tid events Hrest [ev]).
Qed.

(** C9: whatever the random draws, the session printed by
    [generate_simple_correction_loop_session] loads as one group, for
    which the relapse metric returns [sessions_with_relapse = 0] and
    [sessions_with_correction = 1], and the recovery metric exactly one
    episode, of distance [4 - 2 = 2]. *)
Theorem simple_correction_loop_metrics (trace_idx : Z) (r : Generator.random) :
  exists events,
    load_events (Generator.simple_correction_loop_lines trace_idx r) None
    = Ok events
    /\ List.length (group_by_trace events) = 1%nat
    /\ compute_post_correction_relapse_rate (group_by_trace events) = (0, 1)
    /\ compute_recovery_turn_distances (group_by_trace events) = Ok [2].
Proof.
  unfold Generator.simple_correction_loop_lines.
  cbv beta iota zeta delta
      [Generator.generate_simple_correction_loop_session Generator.emit
       Generator.draw Generator.randint Generator._base_start_time
       Generator.rng Generator.ts Generator.span_counter Generator.draws
       Generator.position fst snd map Generator.to_json
       Generator.timestamp Generator.trace_id Generator.span_id
       Generator.component Generator.event_type Generator.execution_stage
       Generator.payload].
  eexists. split.
  - unfold load_events. rewrite load_loop_uncapped by reflexivity.
    cbn [object_events app]. reflexivity.
  - rewrite (group_by_trace_single ("loop_" ++ format_0d 3 trace_idx)%string)
      by (repeat constructor).
    repeat split.
Qed.

End EndToEnd.

(* ====================================================================== *)
(** * The results on the example records *)
(* ====================================================================== *)

Lemma load_events_cap_witness :
  @load_events Plain.runtime Examples.three_sessions_file (Some 2)
  = Ok [Examples.record "a" "user_message";
        Examples.record "b" "user_message";
        Examples.record "a" "agent_step"]
  /\ Z.of_nat
       (List.length
          (@distinct_sessions Plain.runtime
             [Examples.record "a" "user_message";
              Examples.record "b" "user_message";
              Examples.record "a" "agent_step"])) <= Z.max 0 2.
Proof.
  split; [reflexivity|].
  apply (@load_events_cap Plain.runtime Examples.three_sessions_file 2).
  reflexivity.
Defined.

(** C1, as stated, fails: with a cap of 1 the record that brings the
    second session is not appended, and the output holds the records of
    one session only. *)
Lemma load_events_drops_capping_record :
  exists out,
    @load_events Plain.runtime Examples.two_sessions_file (Some 1) = Ok out
    /\ ~ In (Examples.record "b" "user_message") out
    /\ List.length (@distinct_sessions Plain.runtime out) = 1%nat.
Proof.
  exists [Examples.record "a" "user_message"].
  split; [reflexivity|]. split; [|reflexivity].
  intros [H|[]]. discriminate H.
Qed.

Lemma recovery_distances_machine_witness :
  @compute_recovery_turn_distances Plain.runtime
    [("s", Examples.recovery_session)] = Ok [3; 0]
  /\ Forall (fun d => 0 <= d) [3; 0].
Proof.
  split; [reflexivity|].
  apply (proj1 (proj2 (@recovery_distances_machine Plain.runtime
                         [("s", Examples.recovery_session)]))).
  reflexivity.
Defined.

Lemma relapse_rate_counts_witness :
  @compute_post_correction_relapse_rate Plain.runtime Examples.relapse_traces
  = (1, 2)
  /\ @has_relapse Plain.runtime Examples.relapsing_session
  /\ @has_correction Plain.runtime Examples.corrected_session.
Proof.
  split; [reflexivity|]. split.
  - apply (proj2 (proj2 (@relapse_rate_counts Plain.runtime
                           Examples.relapse_traces))).
    reflexivity.
  - apply (proj1 (proj2 (@relapse_rate_counts Plain.runtime
                           Examples.relapse_traces))).
    reflexivity.
Defined.

Lemma latency_gap_count_witness :
  exists gaps,
    @compute_relative_latency_gaps Plain.runtime Examples.latency_traces
    = Ok gaps
    /\ Z.of_nat (List.length gaps) = 2.
Proof.
  eexists. split; [reflexivity|].
  exact (@latency_gap_count Plain.runtime Examples.latency_traces).
Defined.

(** The one way for the gap metric to return no list. *)
Example gap_overflow :
  @latency_ms Plain.runtime Examples.huge_latency = Raise OverflowError
  /\ @compute_relative_latency_gaps Plain.runtime
       [("s", [Examples.huge_latency])] = Raise OverflowError.
Proof. split; reflexivity. Qed.

Lemma two_record_gap_witness :
  @latency_ms Plain.runtime (Examples.with_latency 200)
  = Ok (Some (float_of_Z 200))
  /\ @latency_ms Plain.runtime (Examples.with_latency 300)
     = Ok (Some (float_of_Z 300))
  /\ fltb fzero (float_of_Z 200) = true
  /\ fltb fzero (float_of_Z 300) = true
  /\ @compute_relative_latency_gaps Plain.runtime
       [("s", [Examples.with_latency 200; Examples.with_latency 300])]
     = Ok [relative_gap (float_of_Z 200) (float_of_Z 300)]
  /\ @compute_relative_latency_gaps Plain.runtime
       [("s", [Examples.with_latency 300; Examples.with_latency 200])]
     = Ok [relative_gap (float_of_Z 200) (float_of_Z 300)].
Proof.
  do 4 (split; [reflexivity|]).
  destruct (@two_record_gap Plain.runtime "s"
              (Examples.with_latency 200) (Examples.with_latency 300)
              (float_of_Z 200) (float_of_Z 300)
              eq_refl eq_refl eq_refl eq_refl) as (H1 & H2 & _).
  split; [exact H1|exact H2].
Defined.

Lemma timestamp_monotonicity_counts_witness :
  @Sanity.check_timestamp_monotonicity Plain.runtime
    [Examples.stamped "2025-01-01T10:00:00Z";
     Examples.stamped "2025-01-01T10:00:05Z";
     Examples.stamped "2025-01-01T09:59:59Z"] = Ok (false, 1)
  /\ @Sanity.check_timestamp_monotonicity Plain.runtime
       [Examples.stamped "yesterday"; Examples.stamped ""] = Ok (true, 0).
Proof.
  split.
  - apply (proj1 (proj2 (@timestamp_monotonicity_counts Plain.runtime)));
      vm_compute; reflexivity.
  - apply (proj2 (proj2 (@timestamp_monotonicity_counts Plain.runtime))).
    intros ev [<-|[<-|[]]]; vm_compute; reflexivity.
Defined.

(** An unparseable timestamp is not counted and does not move the
    baseline: the third record is compared with the first. *)
Example monotonicity_skips_unparseable :
  @Sanity.check_timestamp_monotonicity Plain.runtime
    [Examples.stamped "2025-01-01T10:00:05Z";
     Examples.stamped "not a time";
     Examples.stamped "2025-01-01T10:00:00Z"] = Ok (false, 1).
Proof. vm_compute. reflexivity. Qed.

(* ====================================================================== *)
(** * Further results: grouping by session *)
(* ====================================================================== *)

Section Grouping.
Context {rt : Runtime}.

Lemma append_to_append_item (grouped : traces) (k : string) (ev : Event) :
  append_to grouped k ev = append_item String.eqb grouped k ev.
Proof.
  induction grouped as [|[k' evs] rest IH]; [reflexivity|].
  cbn [append_to append_item]. rewrite IH. reflexivity.
Qed.

Lemma item_append_item {V : Type} (d : list (string * list V))
      (k q : string) (v : V) :
  item String.eqb (append_item String.eqb d k v) q
  = if String.eqb k q
    then Some (match item String.eqb d k with
               | Some vs => vs ++ [v]
               | None => [v]
               end)
    else item String.eqb d q.
Proof.
  induction d as [|[k' vs] rest IH]; cbn [append_item item].
  - destruct (String.eqb k q); reflexivity.
  - destruct (String.eqb k' k) eqn:Ek; cbn [item].
    + apply String.eqb_eq in Ek. subst k'.
      destruct (String.eqb k q); reflexivity.
    + rewrite IH. destruct (String.eqb k q) eqn:Eq; [|reflexivity].
      apply String.eqb_eq in Eq. subst q. rewrite Ek. reflexivity.
Qed.

Lemma keys_append_item {V : Type} (d : list (string * list V))
      (k : string) (v : V) :
  map fst (append_item String.eqb d k v)
  = if existsb (String.eqb k) (map fst d) then map fst d
    else map fst d ++ [k].
Proof.
  induction d as [|[k' vs] rest IH]; [reflexivity|].
  cbn [append_item map fst existsb].
  rewrite (String.eqb_sym k k').
  destruct (String.eqb k' k); cbn [orb map fst]; [reflexivity|].
  rewrite IH. destruct (existsb (String.eqb k) (map fst rest)); reflexivity.
Qed.

Lemma values_append_item {V : Type} (d : list (string * list V))
      (k : string) (v : V) :
  Permutation (List.concat (map snd (append_item String.eqb d k v)))
              (List.concat (map snd d) ++ [v]).
Proof.
  induction d as [|[k' vs] rest IH]; [reflexivity|].
  cbn [append_item]. destruct (String.eqb k' k); cbn [map snd List.concat].
  - rewrite <- !app_assoc. apply Permutation_app_head.
    apply Permutation_app_comm.
  - rewrite <- app_assoc. apply Permutation_app_head. exact IH.
Qed.

Lemma filter_none {A : Type} (p : A -> bool) (l : list A) :
  existsb p l = false -> filter p l = [].
Proof.
  induction l as [|x l IH]; [reflexivity|].
  cbn [existsb filter]. destruct (p x); [discriminate|exact IH].
Qed.

(** What [fold_left] has built after the events [done], continued with
    [events]. *)
Lemma group_fold_item (events : list Event) :
  forall (grouped : traces) (done : list Event),
    (forall tid,
        item String.eqb grouped tid
        = if existsb (fun ev => String.eqb (trace_id ev) tid) done
          then Some (records_of tid done) else None) ->
    forall tid,
      item String.eqb
           (fold_left (fun g ev => append_to g (trace_id ev) ev) events grouped)
           tid
      = if existsb (fun ev => String.eqb (trace_id ev) tid) (done ++ events)
        then Some (records_of tid (done ++ events)) else None.
Proof.
  induction events as [|ev rest IH]; intros grouped done Hinv tid.
  - cbn [fold_left]. rewrite app_nil_r. apply Hinv.
  - cbn [fold_left].
    replace (done ++ ev :: rest) with ((done ++ [ev]) ++ rest)
      by (rewrite <- app_assoc; reflexivity).
    apply IH. intros q.
    rewrite append_to_append_item, item_append_item, Hinv.
    unfold records_of. rewrite existsb_app, filter_app.
    cbn [existsb filter]. rewrite orb_false_r.
    destruct (String.eqb (trace_id ev) q) eqn:E.
    + apply String.eqb_eq in E. subst q. rewrite orb_true_r.
      destruct (existsb _ done) eqn:Ed; [reflexivity|].
      rewrite (filter_none _ _ Ed). reflexivity.
    + rewrite orb_false_r, app_nil_r. rewrite Hinv. reflexivity.
Qed.

(** X1: after grouping, the entry of a session id is exactly the list
    of the records with that id, in file order; an id that no record
    carries has no entry, so no group is empty. *)
Theorem group_by_trace_item (events : list Event) (tid : string) :
  item String.eqb (group_by_trace events) tid
  = if existsb (fun ev => String.eqb (trace_id ev) tid) events
    then Some (records_of tid events) else None.
Proof.
  unfold group_by_trace.
  apply (group_fold_item events [] []). intros q. reflexivity.
Qed.

Lemma filter_filter_key (keys : list string) (k : string) (l : list string) :
  filter (fun y => negb (existsb (String.eqb y) (keys ++ [k]))) l
  = filter (fun y => negb (existsb (String.eqb y) keys))
           (filter (fun y => negb (String.eqb y k)) l).
Proof.
  induction l as [|x l IH]; [reflexivity|].
  cbn [filter]. rewrite existsb_app. cbn [existsb]. rewrite orb_false_r.
  destruct (String.eqb x k); cbn [negb filter].
  - rewrite orb_true_r. exact IH.
  - rewrite orb_false_r.
    destruct (existsb (String.eqb x) keys); cbn [negb]; rewrite IH;
      reflexivity.
Qed.

Lemma filter_known_key (keys : list string) (k : string) (l : list string) :
  existsb (String.eqb k) keys = true ->
  filter (fun y => negb (existsb (String.eqb y) keys))
         (filter (fun y => negb (String.eqb y k)) l)
  = filter (fun y => negb (existsb (String.eqb y) keys)) l.
Proof.
  intros Hk. induction l as [|x l IH]; [reflexivity|].
  cbn [filter]. destruct (String.eqb x k) eqn:E; cbn [negb filter].
  - apply String.eqb_eq in E. subst x. rewrite Hk. exact IH.
  - rewrite IH. reflexivity.
Qed.

Lemma group_fold_keys (events : list Event) :
  forall grouped : traces,
    map fst (fold_left (fun g ev => append_to g (trace_id ev) ev)
                       events grouped)
    = map fst grouped
      ++ filter (fun y => negb (existsb (String.eqb y) (map fst grouped)))
                (first_occurrences (map trace_id events)).
Proof.
  induction events as [|ev rest IH]; intros grouped.
  - cbn. rewrite app_nil_r. reflexivity.
  - cbn [fold_left map first_occurrences filter].
    rewrite IH, append_to_append_item, keys_append_item.
    destruct (existsb (String.eqb (trace_id ev)) (map fst grouped)) eqn:E;
      cbn [negb].
    + rewrite (filter_known_key _ _ _ E). reflexivity.
    + rewrite filter_filter_key, <- app_assoc. reflexivity.
Qed.

Lemma first_occurrences_NoDup (l : list string) : NoDup (first_occurrences l).
Proof.
  induction l as [|x l IH]; cbn [first_occurrences]; constructor.
  - rewrite filter_In, String.eqb_refl. intros [_ H]. discriminate H.
  - apply NoDup_filter. exact IH.
Qed.

Lemma first_occurrences_In (l : list string) (x : string) :
  In x (first_occurrences l) <-> In x l.
Proof.
  induction l as [|y l IH]; cbn [first_occurrences In]; [reflexivity|].
  rewrite filter_In, IH, negb_true_iff, String.eqb_neq.
  destruct (string_dec y x) as [->|Hne]; [tauto|].
  split; [tauto|]. intros [H|H]; [tauto|]. right. split; [exact H|].
  intros ->. apply Hne. reflexivity.
Qed.

(** X2: the groups come in the order in which their ids first appear
    in the file, one group per distinct id (the empty id of records
    without [trace_id] included). *)
Theorem group_by_trace_keys (events : list Event) :
  map fst (group_by_trace events) = first_occurrences (map trace_id events)
  /\ NoDup (map fst (group_by_trace events))
  /\ (forall tid, In tid (map fst (group_by_trace events))
                  <-> exists ev, In ev events /\ trace_id ev = tid).
Proof.
  assert (Hkeys : map fst (group_by_trace events)
                  = first_occurrences (map trace_id events)).
  { unfold group_by_trace. rewrite group_fold_keys. cbn [map app existsb negb].
    clear. induction (first_occurrences (map trace_id events)) as [|x l IH];
      [reflexivity|]. cbn [filter]. rewrite IH. reflexivity. }
  split; [exact Hkeys|]. rewrite Hkeys. split.
  - apply first_occurrences_NoDup.
  - intros tid. rewrite first_occurrences_In, in_map_iff.
    split; intros (ev & H1 & H2); exists ev; split; assumption.
Qed.

Lemma group_fold_values (events : list Event) :
  forall grouped : traces,
    Permutation
      (List.concat (values (fold_left (fun g ev => append_to g (trace_id ev) ev)
                                      events grouped)))
      (List.concat (values grouped) ++ events).
Proof.
  induction events as [|ev rest IH]; intros grouped.
  - cbn. rewrite app_nil_r. reflexivity.
  - cbn [fold_left]. rewrite IH. unfold values.
    rewrite append_to_append_item, values_append_item, <- app_assoc.
    reflexivity.
Qed.

(** X3: grouping neither loses nor duplicates a record: the groups put
    end to end are a rearrangement of the input, and their sizes add up
    to the number of records. *)
Theorem group_by_trace_permutation (events : list Event) :
  Permutation (List.concat (values (group_by_trace events))) events
  /\ sum_Z (map (fun evs => Z.of_nat (List.length evs))
                (values (group_by_trace events)))
     = Z.of_nat (List.length events).
Proof.
  assert (Hperm : Permutation (List.concat (values (group_by_trace events)))
                              events).
  { unfold group_by_trace. rewrite group_fold_values. reflexivity. }
  split; [exact Hperm|].
  rewrite <- (Permutation_length Hperm).
  generalize (values (group_by_trace events)). clear.
  intros l. induction l as [|x l IH]; [reflexivity|].
  cbn [map sum_Z List.concat]. rewrite IH, length_app. lia.
Qed.

End Grouping.

(* ====================================================================== *)
(** * Further results: closure profile *)
(* ====================================================================== *)

Section ClosureProfile.
Context {rt : Runtime}.

Lemma labels_get_range (key label : string) :
  labels_get CLOSURE_LABELS key = Some label -> In label closure_labels.
Proof.
  unfold CLOSURE_LABELS, closure_labels. cbn [labels_get].
  repeat match goal with
         | |- context [String.eqb ?k key] => destruct (String.eqb k key)
         end;
    intros H; inversion H; cbn; tauto.
Qed.

Lemma first_label_range (keys : list (option string)) (label : string) :
  first_label keys = Some label -> In label closure_labels.
Proof.
  induction keys as [|[key|] rest IH]; cbn [first_label];
    [discriminate| |exact IH].
  destruct (labels_get CLOSURE_LABELS key) as [l|] eqn:E; [|exact IH].
  destruct (negb (String.eqb l "")); [|exact IH].
  intros H; inversion H; subst. exact (labels_get_range _ _ E).
Qed.

(** X4: whatever the session, its closure is one of the seven labels
    [natural_completion], [completed_after_correction], [incomplete],
    [forced_stop], [session_end_generic], [user_abandonment],
    [unknown]. *)
Theorem classify_session_closure_range (events : list Event) :
  In (classify_session_closure events) closure_labels.
Proof.
  unfold classify_session_closure.
  destruct (rev events) as [|last rest]; [cbn; tauto|].
  destruct (first_label _) as [label|] eqn:E.
  - exact (first_label_range _ _ E).
  - destruct (String.eqb (event_type last) "session_end"); [cbn; tauto|].
    destruct (String.eqb (component last) "user"); cbn; tauto.
Qed.

Lemma item_incr (c : list (string * Z)) (k q : string) :
  item String.eqb (incr String.eqb c k) q
  = if String.eqb k q
    then Some (match item String.eqb c k with
               | Some n => n + 1
               | None => 1
               end)
    else item String.eqb c q.
Proof.
  induction c as [|[k' n] rest IH]; cbn [incr item].
  - destruct (String.eqb k q); reflexivity.
  - destruct (String.eqb k' k) eqn:Ek; cbn [item].
    + apply String.eqb_eq in Ek. subst k'.
      destruct (String.eqb k q); reflexivity.
    + rewrite IH. destruct (String.eqb k q) eqn:Eq; [|reflexivity].
      apply String.eqb_eq in Eq. subst q. rewrite Ek. reflexivity.
Qed.

Lemma sum_incr {K : Type} (eqb : K -> K -> bool) (c : list (K * Z)) (k : K) :
  sum_Z (map snd (incr eqb c k)) = sum_Z (map snd c) + 1.
Proof.
  induction c as [|[k' n] rest IH]; [reflexivity|].
  cbn [incr]. destruct (eqb k' k); cbn [map snd sum_Z]; [lia|].
  rewrite IH. lia.
Qed.

Lemma profile_fold (sessions : list (list Event)) :
  forall (counts : list (string * Z)) (done : list (list Event)),
    (forall label,
        item String.eqb counts label
        = stored (count (fun evs =>
                           String.eqb (classify_session_closure evs) label)
                        done)) ->
    forall label,
      item String.eqb
           (fold_left
              (fun counts events =>
                 incr String.eqb counts (classify_session_closure events))
              sessions counts) label
      = stored (count (fun evs =>
                         String.eqb (classify_session_closure evs) label)
                      (done ++ sessions)).
Proof.
  induction sessions as [|events rest IH]; intros counts done Hinv label.
  - cbn [fold_left]. rewrite app_nil_r. apply Hinv.
  - cbn [fold_left].
    replace (done ++ events :: rest) with ((done ++ [events]) ++ rest)
      by (rewrite <- app_assoc; reflexivity).
    apply IH. intros q. rewrite item_incr, !Hinv.
    unfold count, stored. rewrite !filter_app, !length_app.
    cbn [filter].
    destruct (String.eqb (classify_session_closure events) q) eqn:E.
    + apply String.eqb_eq in E. subst q.
      cbn [List.length].
      destruct (Z.of_nat (List.length (filter _ done)) =? 0) eqn:E0.
      * apply Z.eqb_eq in E0.
        destruct (_ =? 0) eqn:E1; [apply Z.eqb_eq in E1; lia|].
        f_equal. lia.
      * destruct (_ =? 0) eqn:E1 in |- *; [apply Z.eqb_eq in E1; lia|].
        f_equal. lia.
    + cbn [List.length]. rewrite Nat.add_0_r. reflexivity.
Qed.

(** X5: in the closure profile the count of a label is the number of
    sessions classified with it (a label no session takes has no
    entry), and the counts add up to the number of sessions. *)
Theorem closure_profile_counts (t : traces) :
  (forall label,
      item String.eqb (compute_session_closure_profile t) label
      = stored (count (fun evs =>
                         String.eqb (classify_session_closure evs) label)
                      (values t)))
  /\ sum_Z (map snd (compute_session_closure_profile t))
     = Z.of_nat (List.length t).
Proof.
  split.
  - intros label. unfold compute_session_closure_profile.
    apply (profile_fold (values t) [] []). intros q. reflexivity.
  - unfold compute_session_closure_profile, values.
    rewrite <- (length_map snd t). generalize (map snd t). clear.
    intros l. rewrite <- (Z.add_0_l (Z.of_nat (List.length l))).
    change 0 with (sum_Z (map snd (@nil (string * Z)))) at 1.
    generalize (@nil (string * Z)).
    induction l as [|x l IH]; intros c.
    + cbn. lia.
    + cbn [fold_left List.length]. rewrite IH, sum_incr. lia.
Qed.

End ClosureProfile.

(* ====================================================================== *)
(** * Further results: what the accessors and the metrics never do *)
(* ====================================================================== *)

Section Safety.
Context {rt : Runtime}.

Ltac coercion_cases :=
  cbn; repeat split; intros;
  repeat match goal with
         | H : _ /\ _ |- _ => destruct H
         | H : exists _, _ |- _ => destruct H
         | H : _ \/ _ |- _ => destruct H
         | H : Ok _ = Ok _ |- _ => inversion H; clear H
         | H : Raise _ = Raise _ |- _ => inversion H; clear H
         end;
  subst; try discriminate; repeat split; try congruence; eauto 10.

(** [float(val) if val is not None else None] under
    [except (TypeError, ValueError)], value by value. *)
Lemma float_or_None_cases (val : json) :
  let r := except_TypeError_ValueError
             (if is_None val then Ok None
              else f <- to_float val ;; Ok (Some f)) None in
  (forall e, r = Raise e <->
             e = OverflowError
             /\ exists z s, val = JInt z /\ float_of_Z z = S754_infinity s)
  /\ (r = Ok None <->
      val = JNull
      \/ (exists s, val = JStr s /\ float_of_str s = None)
      \/ (exists l, val = JList l)
      \/ (exists d, val = JDict d))
  /\ (forall f, r = Ok (Some f) <-> to_float val = Ok f).
Proof.
  destruct val as [| b | z | f | s | l | d].
  - coercion_cases.
  - coercion_cases.
  - cbn. destruct (float_of_Z z) eqn:E; coercion_cases.
  - coercion_cases.
  - cbn. destruct (float_of_str s) eqn:E; coercion_cases.
  - coercion_cases.
  - coercion_cases.
Qed.

(** [int(val) if val is not None else None] under
    [except (TypeError, ValueError)], value by value. *)
Lemma int_or_None_cases (val : json) :
  (forall e, int_or_None val = Raise e <->
             e = OverflowError /\ exists s, val = JFloat (S754_infinity s))
  /\ (int_or_None val = Ok None <->
      val = JNull
      \/ val = JFloat S754_nan
      \/ (exists s, val = JStr s /\ int_of_str s = None)
      \/ (exists l, val = JList l)
      \/ (exists d, val = JDict d))
  /\ (forall n, int_or_None val = Ok (Some n) <-> int val = Ok n).
Proof.
  unfold int_or_None.
  destruct val as [| b | z | f | s | l | d].
  - coercion_cases.
  - coercion_cases.
  - coercion_cases.
  - destruct f; coercion_cases.
  - cbn. destruct (int_of_str s) eqn:E; coercion_cases.
  - coercion_cases.
  - coercion_cases.
Qed.

(** X6: the accessors [latency_ms] and [turn] raise in one case each,
    which their [except] clause lets through, with [OverflowError]:
    [float] of an integer too large for a double (one that rounds to an
    infinity), and [int] of an infinite float.  They return [None] on
    [None] and on every other value that cannot be coerced (a string
    that does not parse, a list, an object, and a NaN for [int]), and
    the coerced value everywhere else. *)
Theorem accessors_raise_only_overflow (ev : Event) :
  let val := dict_get (payload ev) "latency_ms" in
  let tval :=
    py_or (dict_get (payload ev) "turn") (dict_get (raw ev) "turn") in
  (forall e, latency_ms ev = Raise e <->
             e = OverflowError
             /\ exists z s, val = JInt z /\ float_of_Z z = S754_infinity s)
  /\ (forall e, turn ev = Raise e <->
                e = OverflowError
                /\ exists s, tval = JFloat (S754_infinity s))
  /\ (latency_ms ev = Ok None <->
      val = JNull
      \/ (exists s, val = JStr s /\ float_of_str s = None)
      \/ (exists l, val = JList l)
      \/ (exists d, val = JDict d))
  /\ (turn ev = Ok None <->
      tval = JNull
      \/ tval = JFloat S754_nan
      \/ (exists s, tval = JStr s /\ int_of_str s = None)
      \/ (exists l, tval = JList l)
      \/ (exists d, tval = JDict d))
  /\ (forall f, latency_ms ev = Ok (Some f) <-> to_float val = Ok f)
  /\ (forall n, turn ev = Ok (Some n) <-> int tval = Ok n).
Proof.
  intros val tval.
  destruct (float_or_None_cases val) as (F1 & F2 & F3).
  destruct (int_or_None_cases tval) as (I1 & I2 & I3).
  exact (conj F1 (conj I1 (conj F2 (conj I2 (conj F3 I3))))).
Qed.

Lemma binary_round_aux_not_negative (m e : Z) (l : location) :
  not_negative (binary_round_aux prec emax false m e l).
Proof.
  unfold binary_round_aux, not_negative.
  destruct (shr_fexp prec emax m e l) as [mrs' e'].
  destruct (shr_fexp prec emax _ e' loc_Exact) as [mrs'' e''].
  destruct (shr_m mrs''); try reflexivity.
  destruct (e'' <=? emax - prec); reflexivity.
Qed.

(** [max(a, b, 1.0)] is NaN or at least 1. *)
Lemma max3_one_positive (a b : float) :
  max3 a b fone = S754_nan
  \/ max3 a b fone = S754_infinity false
  \/ exists m e, max3 a b fone = S754_finite false m e.
Proof.
  unfold max3. set (m := if fgtb b a then b else a).
  destruct (fgtb fone m) eqn:E.
  - right. right. eexists. eexists. reflexivity.
  - destruct m as [s|s| |s p x]; try (destruct s); try discriminate E;
      auto.
    right. right. eexists. eexists. reflexivity.
Qed.

Lemma gap_not_negative (x a b : float) :
  not_negative (SFdiv prec emax (fabs x) (max3 a b fone)).
Proof.
  destruct (max3_one_positive a b) as [-> | [-> | (m & e & ->)]];
    destruct x as [s|s| |s p q]; try reflexivity.
  unfold fabs, SFabs, SFdiv.
  destruct (SFdiv_core_binary prec emax (Z.pos p) q (Z.pos m) e)
    as [[mz ez] lz].
  apply binary_round_aux_not_negative.
Qed.

Lemma gap_loop_not_negative (events : list Event) :
  forall (prev : option float) (gaps : list float) st,
    Forall not_negative gaps ->
    for_each gap_body events (prev, gaps) = Ok st ->
    Forall not_negative (snd st).
Proof.
  induction events as [|ev rest IH]; intros prev gaps st Hg.
  - cbn. intros H; inversion H; subst. exact Hg.
  - cbn [for_each]. unfold gap_body at 1.
    destruct (latency_ms ev) as [[lat|]|e]; cbn [bind]; [| |discriminate].
    + destruct prev as [p|].
      * rewrite fdiv_max3_one. cbn [bind]. apply IH.
        apply Forall_app. split; [exact Hg|].
        constructor; [apply gap_not_negative|constructor].
      * cbn [bind]. apply IH. exact Hg.
    + apply IH. exact Hg.
Qed.

(** X7: the gap metric returns no negative value: every gap is
    positive, zero, or NaN (when a latency is NaN or both are
    infinite). *)
Theorem gaps_not_negative (t : traces) (gaps : list float) :
  compute_relative_latency_gaps t = Ok gaps -> Forall not_negative gaps.
Proof.
  unfold compute_relative_latency_gaps.
  assert (H : forall sessions acc out,
             Forall not_negative acc ->
             for_each
               (fun gaps events =>
                  st <- for_each gap_body events (None, gaps) ;; Ok (snd st))
               sessions acc = Ok out ->
             Forall not_negative out).
  { induction sessions as [|events rest IH]; intros acc out Hacc.
    - cbn. intros H; inversion H; subst. exact Hacc.
    - cbn [for_each].
      destruct (for_each gap_body events (None, acc)) as [st|e] eqn:E;
        cbn [bind]; [|discriminate].
      apply IH. exact (gap_loop_not_negative _ _ _ _ Hacc E). }
  apply H. constructor.
Qed.

Lemma count_le {A : Type} (p q : A -> bool) (l : list A) :
  (forall x, p x = true -> q x = true) -> count p l <= count q l.
Proof.
  intros H. unfold count. apply inj_le.
  induction l as [|x l IH]; [apply Nat.le_refl|].
  cbn [filter]. destruct (p x) eqn:E.
  - rewrite (H x E). cbn [List.length]. lia.
  - destruct (q x); cbn [List.length]; lia.
Qed.

Lemma count_bounds {A : Type} (p : A -> bool) (l : list A) :
  0 <= count p l <= Z.of_nat (List.length l).
Proof.
  unfold count. split; [lia|]. apply inj_le. apply filter_length_le.
Qed.

(** X8: the relapse metric returns [(with_relapse, with_correction)]
    with [0 <= with_relapse <= with_correction <= number of sessions]. *)
Theorem relapse_counts_ordered (t : traces) :
  let '(with_relapse, with_correction) :=
    compute_post_correction_relapse_rate t in
  0 <= with_relapse
  /\ with_relapse <= with_correction
  /\ with_correction <= Z.of_nat (List.length t).
Proof.
  unfold compute_post_correction_relapse_rate. rewrite relapse_fold.
  cbn [Z.add]. repeat split.
  - apply count_bounds.
  - apply count_le. intros evs H. apply andb_true_iff in H. apply H.
  - unfold values. rewrite <- (length_map snd t). apply count_bounds.
Qed.

Lemma machine_run_bounds (events : list Event) :
  forall s s' out,
    machine_run s events = Ok (s', out) ->
    (List.length out + pending s'
     <= pending s + List.length (filter is_drift_like events))%nat
    /\ (List.length out <= List.length (filter is_recovered events))%nat.
Proof.
  induction events as [|ev rest IH]; intros s s' out; cbn [machine_run].
  - intros H; inversion H; subst. cbn. lia.
  - destruct (machine_step s ev) as [[s1 o1]|e] eqn:E1; [|discriminate].
    cbn [bind fst snd].
    destruct (machine_run s1 rest) as [[s2 o2]|e] eqn:E2; [|discriminate].
    cbn [bind fst snd]. intros H; inversion H; subst.
    destruct (IH _ _ _ E2) as [IH1 IH2]. rewrite length_app.
    cbn [filter]. unfold is_drift_like at 1, is_recovered at 1.
    destruct s as [|onset]; cbn [machine_step] in E1.
    + destruct (String.eqb (event_type ev) "drift_like").
      * destruct (turn ev) as [t|e]; [|discriminate].
        cbn [bind] in E1. inversion E1; subst.
        cbn [List.length pending] in *.
        destruct (eq_str _ _); cbn [List.length]; lia.
      * inversion E1; subst. cbn [List.length pending] in *.
        destruct (eq_str _ _); cbn [List.length]; lia.
    + destruct (eq_str (dict_get (payload ev) "stability_tag") "recovered").
      * destruct (turn ev) as [t|e]; [|discriminate].
        cbn [bind] in E1. inversion E1; subst.
        cbn [List.length pending] in *.
        destruct (String.eqb _ _); cbn [List.length]; lia.
      * inversion E1; subst. cbn [List.length pending] in *.
        destruct (String.eqb _ _); cbn [List.length]; lia.
Qed.

Lemma machine_distances_bounds (sessions : list (list Event)) :
  forall ds,
    machine_distances sessions = Ok ds ->
    (List.length ds
     <= List.length (filter is_drift_like (List.concat sessions)))%nat
    /\ (List.length ds
        <= List.length (filter is_recovered (List.concat sessions)))%nat.
Proof.
  induction sessions as [|events rest IH]; intros ds; cbn [machine_distances].
  - intros H; inversion H; subst. cbn. lia.
  - unfold session_distances.
    destruct (machine_run idle events) as [[s out]|e] eqn:E; [|discriminate].
    cbn [bind snd].
    destruct (machine_distances rest) as [ds'|e] eqn:E'; [|discriminate].
    cbn [bind]. intros H; inversion H; subst.
    destruct (machine_run_bounds _ _ _ _ E) as [B1 B2].
    destruct (IH _ eq_refl) as [B3 B4].
    cbn [List.concat]. rewrite !filter_app, !length_app.
    cbn [pending] in B1. lia.
Qed.

(** X9: the recovery metric returns at most one distance per drift-like
    record and at most one per record tagged recovered; a trace without
    either yields no episode. *)
Theorem recovery_episodes_bounded (t : traces) (ds : list Z) :
  compute_recovery_turn_distances t = Ok ds ->
  Z.of_nat (List.length ds) <= count is_drift_like (List.concat (values t))
  /\ Z.of_nat (List.length ds) <= count is_recovered (List.concat (values t)).
Proof.
  unfold compute_recovery_turn_distances. rewrite recovery_sessions.
  destruct (machine_distances (values t)) as [ds'|e] eqn:E; [|discriminate].
  cbn [bind app]. intros H; inversion H; subst.
  destruct (machine_distances_bounds _ _ E) as [B1 B2].
  unfold count. split; apply inj_le; assumption.
Qed.

End Safety.

(* ====================================================================== *)
(** * Further results: the loader *)
(* ====================================================================== *)

Section LoaderMore.
Context {rt : Runtime}.

Lemma load_loop_skips (cap : option Z) (lines : list file_line) :
  forall events seen,
    load_loop cap lines events seen
    = load_loop cap (filter is_decoded lines) events seen.
Proof.
  induction lines as [|line rest IH]; intros events seen; [reflexivity|].
  destruct line as [| |obj|e]; cbn [filter is_decoded load_loop];
    try (apply IH); try reflexivity.
  destruct obj as [| b | z | f | s | l | obj]; try reflexivity.
  destruct (negb (String.eqb (trace_id (mkEvent obj)) "")); [|apply IH].
  destruct (over_cap cap _); [reflexivity|apply IH].
Qed.

(** X10: empty lines and lines that are not valid JSON are dropped
    without trace: the result, with or without a cap, is that of the
    file without them (a failure included, when a step fails). *)
Theorem load_events_skips_blank_and_malformed
        (lines : list file_line) (cap : option Z) :
  load_events lines cap = load_events (filter is_decoded lines) cap.
Proof. unfold load_events. apply load_loop_skips. Qed.

Lemma load_loop_raises (cap : option Z) (lines : list file_line) :
  forall events seen e,
    load_loop cap lines events seen = Raise e ->
    exists line, In line lines /\ raised_by line = Some e.
Proof.
  induction lines as [|line rest IH]; intros events seen e;
    cbn [load_loop]; [discriminate|].
  assert (Hrest : forall events seen,
             load_loop cap rest events seen = Raise e ->
             exists l, In l (line :: rest) /\ raised_by l = Some e).
  { intros ev' seen' H. destruct (IH _ _ _ H) as (l & Hin & Hl).
    exists l. split; [right; exact Hin|exact Hl]. }
  destruct line as [| |obj|e']; try (apply Hrest).
  - destruct obj as [| b | z | f | s | l | obj];
      try (intros H; inversion H;
           eexists; split; [left; reflexivity|reflexivity]).
    destruct (negb (String.eqb (trace_id (mkEvent obj)) "")); [|apply Hrest].
    destruct (over_cap cap _); [discriminate|apply Hrest].
  - intros H; inversion H. exists (Fails e).
    split; [left; reflexivity|reflexivity].
Qed.

Lemma first_raised_none (lines : list file_line) :
  first_raised lines = None <-> only_objects lines = true.
Proof.
  unfold only_objects.
  induction lines as [|line rest IH]; [split; reflexivity|].
  cbn [first_raised forallb].
  destruct line as [| |obj|e]; cbn [raised_by andb]; try exact IH.
  - destruct obj; cbn [andb]; try exact IH; split; discriminate.
  - split; discriminate.
Qed.

Lemma load_loop_first_raised (lines : list file_line) (e : exn) :
  first_raised lines = Some e ->
  forall events seen, load_loop None lines events seen = Raise e.
Proof.
  induction lines as [|line rest IH]; cbn [first_raised]; [discriminate|].
  intros H events seen.
  destruct line as [| |obj|e']; cbn [raised_by load_loop over_cap] in *;
    try (apply IH; exact H).
  - destruct obj as [| b | z | f | s | l | obj];
      try (injection H as <-; reflexivity).
    destruct (negb (String.eqb (trace_id (mkEvent obj)) ""));
      apply IH; exact H.
  - injection H as <-. reflexivity.
Qed.

(** X11: [load_events] raises only what a step of its loop raises: the
    exception of a step that fails (the file cannot be opened, read or
    decoded, or [json.loads] raises something else than
    [JSONDecodeError]), and [AttributeError] on a decoded line that is
    not a JSON object (a number, a string, a list, [null], ...).
    Without a cap it raises what the first such step raises and
    otherwise returns one record per object line, in file order; with
    a cap it returns as soon as no step raises. *)
Theorem load_events_failures (lines : list file_line) (cap : option Z) :
  (forall e, load_events lines cap = Raise e ->
             exists line, In line lines /\ raised_by line = Some e)
  /\ load_events lines None
     = match first_raised lines with
       | Some e => Raise e
       | None => Ok (object_events lines)
       end
  /\ (only_objects lines = true ->
      first_raised lines = None
      /\ exists evs, load_events lines cap = Ok evs).
Proof.
  split; [|split].
  - intros e. unfold load_events. apply load_loop_raises.
  - unfold load_events. destruct (first_raised lines) as [e|] eqn:E.
    + apply load_loop_first_raised. exact E.
    + rewrite load_loop_uncapped by (apply first_raised_none; exact E).
      reflexivity.
  - intros H. split; [apply first_raised_none; exact H|].
    unfold load_events. apply load_loop_returns. exact H.
Qed.

End LoaderMore.

(** A file that cannot be opened, and an integer literal that
    [json.loads] refuses after a first record. *)
Example load_events_failure_examples :
  load_events (rt := Plain.runtime) [Fails OSError] None = Raise OSError
  /\ load_events (rt := Plain.runtime)
       [Parsed (Examples.line "a" "user_message"); Fails ValueError;
        Parsed (JInt 1)] None
     = Raise ValueError
  /\ load_events (rt := Plain.runtime)
       [Parsed (Examples.line "a" "user_message");
        Parsed (Examples.line "b" "user_message"); Fails ValueError]
       (Some 1)
     = Ok [Examples.record "a" "user_message"].
Proof. repeat split. Qed.

(* ====================================================================== *)
(** * Further results: the trace sanity checks *)
(* ====================================================================== *)

Section Counters.

Lemma count_fold_item (keys : list string) :
  forall (c : list (string * Z)) (done : list string),
    (forall k, item String.eqb c k = stored (count (String.eqb k) done)) ->
    forall k,
      item String.eqb (fold_left (incr String.eqb) keys c) k
      = stored (count (String.eqb k) (done ++ keys)).
Proof.
  induction keys as [|x rest IH]; intros c done Hinv k.
  - cbn [fold_left]. rewrite app_nil_r. apply Hinv.
  - cbn [fold_left].
    replace (done ++ x :: rest) with ((done ++ [x]) ++ rest)
      by (rewrite <- app_assoc; reflexivity).
    apply IH. intros q. rewrite item_incr, !Hinv.
    unfold count, stored. rewrite !filter_app, !length_app.
    cbn [filter]. rewrite (String.eqb_sym q x).
    destruct (String.eqb x q) eqn:E.
    + apply String.eqb_eq in E. subst q.
      cbn [List.length].
      destruct (Z.of_nat (List.length (filter _ done)) =? 0) eqn:E0.
      * apply Z.eqb_eq in E0.
        destruct (_ =? 0) eqn:E1; [apply Z.eqb_eq in E1; lia|].
        f_equal. lia.
      * destruct (_ =? 0) eqn:E1 in |- *; [apply Z.eqb_eq in E1; lia|].
        f_equal. lia.
    + cbn [List.length]. rewrite Nat.add_0_r. reflexivity.
Qed.

Lemma count_fold_sum {K : Type} (eqb : K -> K -> bool) (keys : list K) :
  forall c : list (K * Z),
    sum_Z (map snd (fold_left (incr eqb) keys c))
    = sum_Z (map snd c) + Z.of_nat (List.length keys).
Proof.
  induction keys as [|x rest IH]; intros c.
  - cbn. lia.
  - cbn [fold_left List.length]. rewrite IH, sum_incr. lia.
Qed.

End Counters.

Section SanityChecks.
Context {rt : Runtime}.

Lemma fanout_as_keys (events : list Sanity.Event) :
  forall children : list (string * Z),
    fold_left
      (fun children ev =>
         match Sanity.parent_id ev with
         | Some parent =>
             if negb (String.eqb parent "")
             then incr String.eqb children parent
             else children
         | None => children
         end)
      events children
    = fold_left (incr String.eqb) (parents events) children.
Proof.
  induction events as [|ev rest IH]; intros children; [reflexivity|].
  cbn [fold_left parents flat_map]. rewrite fold_left_app, IH.
  destruct (Sanity.parent_id ev) as [parent|]; [|reflexivity].
  destruct (String.eqb parent ""); reflexivity.
Qed.

Lemma span_fanout_sum (events : list Sanity.Event) :
  sum_Z (map snd (Sanity.compute_span_fanout events))
  = Z.of_nat (List.length (parents events)).
Proof.
  unfold Sanity.compute_span_fanout.
  rewrite fanout_as_keys, count_fold_sum. reflexivity.
Qed.

(** X12: in the fan-out of a session the count of a parent id is the
    number of records that name it as their parent; ids that no record
    names, and the empty id, have no entry, and the counts add up to
    the number of records that have a parent. *)
Theorem span_fanout_counts (events : list Sanity.Event) :
  (forall parent,
      item String.eqb (Sanity.compute_span_fanout events) parent
      = stored (count (String.eqb parent) (parents events)))
  /\ sum_Z (map snd (Sanity.compute_span_fanout events))
     = Z.of_nat (List.length (parents events))
  /\ ~ In "" (map fst (Sanity.compute_span_fanout events)).
Proof.
  unfold Sanity.compute_span_fanout. rewrite fanout_as_keys.
  assert (Hitem : forall parent,
             item String.eqb (fold_left (incr String.eqb) (parents events) [])
                  parent
             = stored (count (String.eqb parent) (parents events))).
  { intros parent.
    apply (count_fold_item (parents events) [] []). intros q. reflexivity. }
  split; [exact Hitem|]. split.
  - rewrite count_fold_sum. reflexivity.
  - intros Hin.
    assert (Hsome : exists n,
               item String.eqb (fold_left (incr String.eqb) (parents events) [])
                    "" = Some n).
    { revert Hin. generalize (fold_left (incr String.eqb) (parents events) []).
      intros c. induction c as [|[k n] c IH]; cbn [map fst In item];
        [intros []|].
      intros [->|Hin]; [exists n; reflexivity|].
      destruct (String.eqb k ""); [exists n; reflexivity|apply IH, Hin]. }
    destruct Hsome as (n & Hn). rewrite Hitem in Hn.
    unfold stored, count in Hn.
    replace (filter (String.eqb "") (parents events)) with (@nil string)
      in Hn; [discriminate|].
    symmetry. apply filter_none. unfold parents. clear.
    induction events as [|ev rest IH]; [reflexivity|].
    cbn [flat_map]. rewrite existsb_app, IH, orb_false_r.
    destruct (Sanity.parent_id ev) as [parent|]; [|reflexivity].
    destruct (String.eqb parent "") eqn:E; [reflexivity|].
    cbn [existsb]. rewrite String.eqb_sym, E. reflexivity.
Qed.

Lemma weighted_incr (h : list (Z * Z)) (k : Z) :
  weighted (incr Z.eqb h k) = weighted h + k.
Proof.
  unfold weighted. induction h as [|[k' n] rest IH]; cbn [incr].
  - cbn. lia.
  - destruct (Z.eqb k' k) eqn:E; cbn [map sum_Z fst snd].
    + apply Z.eqb_eq in E. subst k'. lia.
    + rewrite IH. lia.
Qed.

Lemma weighted_fold (counts : list Z) :
  forall h : list (Z * Z),
    weighted (fold_left (fun fanouts count => incr Z.eqb fanouts count)
                        counts h)
    = weighted h + sum_Z counts.
Proof.
  induction counts as [|x rest IH]; intros h.
  - cbn [fold_left sum_Z]. lia.
  - cbn [fold_left sum_Z]. rewrite IH, weighted_incr. lia.
Qed.

(** X13: the fan-out histogram printed by [main] accounts for every
    record that has a parent exactly once: the sum of
    [children * spans] over its entries is the number of such records,
    counted session by session. *)
Theorem fanout_histogram_weight (traces : list (string * list Sanity.Event)) :
  weighted (Sanity.fanout_histogram traces)
  = sum_Z (map (fun item => Z.of_nat (List.length (parents (snd item))))
               traces).
Proof.
  unfold Sanity.fanout_histogram.
  rewrite <- (Z.add_0_l (sum_Z _)).
  change 0 with (weighted []) at 1. generalize (@nil (Z * Z)).
  induction traces as [|[tid evs] rest IH]; intros h.
  - cbn [map fold_left sum_Z]. lia.
  - cbn [map fold_left snd sum_Z]. rewrite IH, weighted_fold.
    rewrite span_fanout_sum. lia.
Qed.

End SanityChecks.

Section SanityGrouping.
Context {rt : Runtime}.

Lemma sanity_group_fold_item (events : list Sanity.Event) :
  forall (grouped : list (string * list Sanity.Event))
         (done : list Sanity.Event),
    (forall tid,
        item String.eqb grouped tid
        = if existsb (fun ev => String.eqb (Sanity.trace_id ev) tid) done
          then Some (session_records tid done) else None) ->
    forall tid,
      item String.eqb
           (fold_left (fun g ev =>
                         append_item String.eqb g (Sanity.trace_id ev) ev)
                      events grouped)
           tid
      = if existsb (fun ev => String.eqb (Sanity.trace_id ev) tid)
                   (done ++ events)
        then Some (session_records tid (done ++ events)) else None.
Proof.
  induction events as [|ev rest IH]; intros grouped done Hinv tid.
  - cbn [fold_left]. rewrite app_nil_r. apply Hinv.
  - cbn [fold_left].
    replace (done ++ ev :: rest) with ((done ++ [ev]) ++ rest)
      by (rewrite <- app_assoc; reflexivity).
    apply IH. intros q. rewrite item_append_item, Hinv.
    unfold session_records. rewrite existsb_app, filter_app.
    cbn [existsb filter]. rewrite orb_false_r.
    destruct (String.eqb (Sanity.trace_id ev) q) eqn:E.
    + apply String.eqb_eq in E. subst q. rewrite orb_true_r.
      destruct (existsb _ done) eqn:Ed; [reflexivity|].
      rewrite (filter_none _ _ Ed). reflexivity.
    + rewrite orb_false_r, app_nil_r. rewrite Hinv. reflexivity.
Qed.

Lemma sanity_group_fold_keys (events : list Sanity.Event) :
  forall grouped : list (string * list Sanity.Event),
    map fst (fold_left (fun g ev =>
                          append_item String.eqb g (Sanity.trace_id ev) ev)
                       events grouped)
    = map fst grouped
      ++ filter (fun y => negb (existsb (String.eqb y) (map fst grouped)))
                (first_occurrences (map Sanity.trace_id events)).
Proof.
  induction events as [|ev rest IH]; intros grouped.
  - cbn. rewrite app_nil_r. reflexivity.
  - cbn [fold_left map first_occurrences filter].
    rewrite IH, keys_append_item.
    destruct (existsb (String.eqb (Sanity.trace_id ev)) (map fst grouped))
      eqn:E; cbn [negb].
    + rewrite (filter_known_key _ _ _ E). reflexivity.
    + rewrite filter_filter_key, <- app_assoc. reflexivity.
Qed.

(** A dictionary is the list of its keys, each with its entry. *)
Lemma items_of_keys {V : Type} (d : list (string * list V)) :
  NoDup (map fst d) ->
  d = map (fun k => (k, match item String.eqb d k with
                        | Some vs => vs
                        | None => []
                        end)) (map fst d).
Proof.
  induction d as [|[k vs] rest IH]; intros Hnd; [reflexivity|].
  cbn [map fst item]. rewrite String.eqb_refl. f_equal.
  inversion Hnd as [|? ? Hnotin Hnd']; subst.
  rewrite (IH Hnd') at 1. apply map_ext_in. intros q Hq.
  destruct (String.eqb k q) eqn:E; [|reflexivity].
  apply String.eqb_eq in E. subst q. contradiction.
Qed.

Lemma sanity_group_structure (events : list Sanity.Event) :
  Sanity.group_by_trace events
  = map (fun tid => (tid, session_records tid events))
        (first_occurrences (map Sanity.trace_id events)).
Proof.
  assert (Hkeys : map fst (Sanity.group_by_trace events)
                  = first_occurrences (map Sanity.trace_id events)).
  { unfold Sanity.group_by_trace. rewrite sanity_group_fold_keys.
    cbn [map app existsb negb]. clear.
    induction (first_occurrences (map Sanity.trace_id events)) as [|x l IH];
      [reflexivity|]. cbn [filter]. rewrite IH. reflexivity. }
  rewrite (items_of_keys (Sanity.group_by_trace events)) at 1
    by (rewrite Hkeys; apply first_occurrences_NoDup).
  rewrite Hkeys. apply map_ext_in. intros tid Hin. f_equal.
  unfold Sanity.group_by_trace.
  rewrite (sanity_group_fold_item events [] [])
    by (intros q; reflexivity).
  cbn [app]. apply first_occurrences_In, in_map_iff in Hin.
  destruct Hin as (ev & Hev & Hin).
  replace (existsb _ events) with true; [reflexivity|].
  symmetry. apply existsb_exists. exists ev. split; [exact Hin|].
  apply String.eqb_eq. exact Hev.
Qed.

Lemma filter_map_fst {A B : Type} (f : A -> B) (p : B -> bool) (l : list A) :
  map fst (filter (fun item => p (snd item)) (map (fun a => (a, f a)) l))
  = filter (fun a => p (f a)) l.
Proof.
  induction l as [|a l IH]; [reflexivity|].
  cbn [map filter snd]. destruct (p (f a)); cbn [map fst]; rewrite IH;
    reflexivity.
Qed.

(** X14: run on the grouped file, the short-session check lists, in
    order of first appearance, the ids that occur on fewer than
    [min_events] records; every id of the file has at least one record,
    so a threshold of 1 or less flags nothing. *)
Theorem short_sessions_of_file (events : list Sanity.Event) (min_events : Z) :
  Sanity.detect_short_sessions (Sanity.group_by_trace events) min_events
  = filter (fun tid =>
              Z.of_nat (List.length (session_records tid events)) <? min_events)
           (first_occurrences (map Sanity.trace_id events))
  /\ (min_events <= 1 ->
      Sanity.detect_short_sessions (Sanity.group_by_trace events) min_events
      = []).
Proof.
  assert (H : Sanity.detect_short_sessions (Sanity.group_by_trace events)
                                            min_events
              = filter (fun tid =>
                          Z.of_nat (List.length (session_records tid events))
                          <? min_events)
                       (first_occurrences (map Sanity.trace_id events))).
  { unfold Sanity.detect_short_sessions. rewrite sanity_group_structure.
    apply (filter_map_fst (fun tid => session_records tid events)
                          (fun evs => Z.of_nat (List.length evs) <? min_events)). }
  split; [exact H|]. intros Hmin. rewrite H.
  apply filter_none. apply not_true_iff_false. intros Hex.
  apply existsb_exists in Hex as (tid & Hin & Hlt).
  apply Z.ltb_lt in Hlt.
  apply first_occurrences_In, in_map_iff in Hin.
  destruct Hin as (ev & Hev & Hin).
  assert (Hrec : In ev (session_records tid events)).
  { apply filter_In. split; [exact Hin|]. apply String.eqb_eq. exact Hev. }
  destruct (session_records tid events); [destruct Hrec|].
  cbn [List.length] in Hlt. lia.
Qed.

End SanityGrouping.

Section MonotonicityMore.
Context {rt : Runtime}.

Lemma count_earlier_bounds (ts : list datetime) :
  forall prev n,
    count_earlier prev ts = Ok n -> 0 <= n <= Z.of_nat (List.length ts).
Proof.
  induction ts as [|t rest IH]; intros prev n; cbn [count_earlier].
  - intros H; inversion H; subst. cbn. lia.
  - destruct (dt_lt t prev) as [earlier|e]; [|discriminate]. cbn [bind].
    destruct (count_earlier t rest) as [m|e] eqn:E; [|discriminate].
    cbn [bind]. intros H; inversion H; subst.
    specialize (IH _ _ E). cbn [List.length]. destruct earlier; lia.
Qed.

(** X15: the violation count lies between 0 and the number of
    parseable timestamps minus one, and the flag [is_monotonic] is true
    exactly when the count is 0. *)
Theorem monotonicity_bounds (events : list Sanity.Event) (ok : bool) (v : Z) :
  Sanity.check_timestamp_monotonicity events = Ok (ok, v) ->
  0 <= v <= Z.max 0 (Z.of_nat (List.length (parsed_timestamps events)) - 1)
  /\ (ok = true <-> v = 0).
Proof.
  rewrite check_timestamp_monotonicity_spec.
  destruct (violations (parsed_timestamps events)) as [n|e] eqn:E;
    [|discriminate].
  cbn [bind]. intros H; inversion H; subst. split.
  - unfold violations in E.
    destruct (parsed_timestamps events) as [|t rest].
    + inversion E; subst. cbn. lia.
    + apply count_earlier_bounds in E. cbn [List.length]. lia.
  - apply Z.eqb_eq.
Qed.

Lemma nondecreasing_cons (a b : datetime) (l : list datetime) :
  nondecreasing (a :: b :: l) <-> dt_us a <= dt_us b /\ nondecreasing (b :: l).
Proof.
  unfold nondecreasing. split.
  - intros H. split.
    + apply (H [] a b l). reflexivity.
    + intros before x y after Heq. apply (H (a :: before) x y after).
      rewrite Heq. reflexivity.
  - intros [Hab H] before x y after Heq.
    destruct before as [|z before].
    + inversion Heq; subst. exact Hab.
    + inversion Heq; subst. apply (H before x y after). assumption.
Qed.

Lemma nondecreasing_one (a : datetime) : nondecreasing [a].
Proof.
  intros before x y after Heq.
  destruct before as [|z [|z' before]]; inversion Heq.
Qed.

Lemma count_earlier_naive (ts : list datetime) :
  forall prev,
    naive prev -> Forall naive ts ->
    exists n, count_earlier prev ts = Ok n
              /\ 0 <= n
              /\ (n = 0 <-> nondecreasing (prev :: ts)).
Proof.
  induction ts as [|t rest IH]; intros prev Hp Hts.
  - exists 0. split; [reflexivity|]. split; [lia|].
    split; [intros _; apply nondecreasing_one|reflexivity].
  - inversion Hts as [|? ? Ht Hrest]; subst.
    destruct (IH t Ht Hrest) as (m & Hm & Hm0 & Hiff).
    cbn [count_earlier]. unfold dt_lt. unfold naive in Hp, Ht.
    rewrite Ht, Hp. cbn [bind]. rewrite Hm. cbn [bind].
    eexists. split; [reflexivity|]. rewrite nondecreasing_cons, <- Hiff.
    destruct (dt_us t <? dt_us prev) eqn:E.
    + apply Z.ltb_lt in E. split; [lia|]. split; [lia|]. intros [H _]. lia.
    + apply Z.ltb_ge in E. split; [lia|]. split; [lia|]. intros [_ H]. lia.
Qed.

(** X16: when the timestamps that parse carry no UTC offset the check
    returns, and it reports a monotonic session exactly when no
    parseable timestamp is earlier than the parseable one before it
    (equal timestamps are not violations). *)
Theorem monotonic_iff_nondecreasing (events : list Sanity.Event) :
  Forall naive (parsed_timestamps events) ->
  exists v,
    Sanity.check_timestamp_monotonicity events = Ok (v =? 0, v)
    /\ (v = 0 <-> nondecreasing (parsed_timestamps events)).
Proof.
  intros Hnaive. rewrite check_timestamp_monotonicity_spec.
  unfold violations.
  destruct (parsed_timestamps events) as [|t rest].
  - exists 0. split; [reflexivity|]. split; [|reflexivity].
    intros _ before x y after Heq. destruct before; inversion Heq.
  - inversion Hnaive as [|? ? Ht Hrest]; subst.
    destruct (count_earlier_naive rest t Ht Hrest) as (n & Hn & _ & Hiff).
    rewrite Hn. cbn [bind]. exists n. split; [reflexivity|exact Hiff].
Qed.

Lemma count_earlier_raises (ts : list datetime) :
  forall prev e,
    count_earlier prev ts = Raise e ->
    e = TypeError
    /\ (exists a, In a (prev :: ts) /\ dt_utcoffset a = None)
    /\ (exists b, In b (prev :: ts) /\ dt_utcoffset b <> None).
Proof.
  induction ts as [|t rest IH]; intros prev e; cbn [count_earlier];
    [discriminate|].
  unfold dt_lt.
  destruct (dt_utcoffset t) as [ot|] eqn:Et,
           (dt_utcoffset prev) as [op|] eqn:Ep; cbn [bind].
  - destruct (count_earlier t rest) as [n|e'] eqn:E; cbn [bind];
      [discriminate|].
    intros H; inversion H; subst.
    destruct (IH _ _ E) as (He & (a & Ha & Hna) & (b & Hb & Hnb)).
    split; [exact He|].
    split; [exists a|exists b]; (split; [right; assumption|assumption]).
  - intros H; inversion H; subst. split; [reflexivity|].
    split; [exists prev|exists t]; cbn [In].
    + split; [left; reflexivity|exact Ep].
    + split; [right; left; reflexivity|]. rewrite Et. discriminate.
  - intros H; inversion H; subst. split; [reflexivity|].
    split; [exists t|exists prev]; cbn [In].
    + split; [right; left; reflexivity|exact Et].
    + split; [left; reflexivity|]. rewrite Ep. discriminate.
  - destruct (count_earlier t rest) as [n|e'] eqn:E; cbn [bind];
      [discriminate|].
    intros H; inversion H; subst.
    destruct (IH _ _ E) as (He & (a & Ha & Hna) & (b & Hb & Hnb)).
    split; [exact He|].
    split; [exists a|exists b]; (split; [right; assumption|assumption]).
Qed.

(** X17: the check fails only with [TypeError], and only on a session
    where a timestamp without UTC offset and one with an offset both
    parse. *)
Theorem monotonicity_fails_only_on_mixed_offsets
        (events : list Sanity.Event) (e : exn) :
  Sanity.check_timestamp_monotonicity events = Raise e ->
  e = TypeError
  /\ (exists a, In a (parsed_timestamps events) /\ dt_utcoffset a = None)
  /\ (exists b, In b (parsed_timestamps events) /\ dt_utcoffset b <> None).
Proof.
  rewrite check_timestamp_monotonicity_spec. unfold violations.
  destruct (parsed_timestamps events) as [|t rest]; [discriminate|].
  destruct (count_earlier t rest) as [n|e'] eqn:E; cbn [bind];
    [discriminate|].
  intros H; inversion H; subst. exact (count_earlier_raises _ _ _ E).
Qed.

End MonotonicityMore.

Section MonotonicityReport.
Context {rt : Runtime}.

Lemma check_result_shape (events : list Sanity.Event) (ok : bool) (v : Z) :
  Sanity.check_timestamp_monotonicity events = Ok (ok, v) ->
  0 <= v /\ (negb ok = true -> 1 <= v) .
Proof.
  rewrite check_timestamp_monotonicity_spec.
  destruct (violations (parsed_timestamps events)) as [n|e] eqn:E;
    [|discriminate].
  cbn [bind]. intros H. injection H as Hok Hv. subst ok v.
  assert (Hn : 0 <= n).
  { unfold violations in E. destruct (parsed_timestamps events) as [|t rest].
    - inversion E; lia.
    - apply count_earlier_bounds in E. lia. }
  split; [exact Hn|]. intros Hneg. apply negb_true_iff, Z.eqb_neq in Hneg. lia.
Qed.

(** X18: in the report of [main] the number of sessions with
    violations is at most the total number of violations and at most
    the number of sessions; both are 0 together. *)
Theorem monotonicity_totals_ordered
        (traces : list (string * list Sanity.Event)) (non_mono total : Z) :
  Sanity.monotonicity_totals traces = Ok (non_mono, total) ->
  0 <= non_mono <= total
  /\ non_mono <= Z.of_nat (List.length traces)
  /\ (non_mono = 0 <-> total = 0).
Proof.
  unfold Sanity.monotonicity_totals.
  assert (H : forall l nm tv nm' tv',
             0 <= nm <= tv -> (nm = 0 <-> tv = 0) ->
             for_each
               (fun (acc : Z * Z) (item : string * list Sanity.Event) =>
                  let '(non_mono, total_violations) := acc in
                  r <- Sanity.check_timestamp_monotonicity (snd item) ;;
                  let '(ok, violations) := r in
                  if negb ok
                  then Ok (non_mono + 1, total_violations + violations)
                  else Ok (non_mono, total_violations))
               l (nm, tv) = Ok (nm', tv') ->
             0 <= nm' <= tv'
             /\ nm' <= nm + Z.of_nat (List.length l)
             /\ (nm' = 0 <-> tv' = 0)).
  { induction l as [|[tid evs] rest IH]; intros nm tv nm' tv' Hb Hz.
    - cbn. intros H; inversion H; subst. repeat split; try lia; apply Hz.
    - cbn [for_each snd].
      destruct (Sanity.check_timestamp_monotonicity evs) as [[ok v]|e] eqn:E;
        cbn [bind]; [|discriminate].
      destruct (check_result_shape _ _ _ E) as [Hv Hneg].
      destruct (negb ok) eqn:En; cbn [bind]; intros H.
      + specialize (Hneg eq_refl).
        destruct (IH (nm + 1) (tv + v) nm' tv') as (B1 & B2 & B3);
          [lia|lia|exact H|].
        cbn [List.length]. repeat split; try lia; apply B3.
      + destruct (IH nm tv nm' tv' Hb Hz H) as (B1 & B2 & B3).
        cbn [List.length]. repeat split; try lia; apply B3. }
  intros Hrun. destruct (H traces 0 0 non_mono total) as (B1 & B2 & B3);
    [lia|tauto|exact Hrun|].
  repeat split; try lia; apply B3.
Qed.

End MonotonicityReport.

(* ====================================================================== *)
(** * Further results: the generator *)
(* ====================================================================== *)

Section Printed.
Context {rt : Runtime}.

Lemma drop_trailing_Z_app (s : string) :
  drop_trailing_Z (s ++ "Z") = s.
Proof.
  induction s as [|c s IH]; [reflexivity|].
  cbn [append drop_trailing_Z]. rewrite IH.
  destruct s; reflexivity.
Qed.

(** X19: what a generated event prints is read back field by field:
    the metrics script finds its session id, event type, component and
    payload, and no phase; the sanity script finds its span id, no
    parent, and as timestamp whatever [fromisoformat] makes of the
    printed time without its final ["Z"]. *)
Theorem printed_event_fields (ev : Generator.Event) :
  trace_id (printed ev) = Generator.trace_id ev
  /\ event_type (printed ev) = Generator.event_type ev
  /\ component (printed ev) = Generator.component ev
  /\ payload (printed ev) = Generator.payload ev
  /\ phase (printed ev) = JNull
  /\ Sanity.trace_id (printed_sanity ev) = Generator.trace_id ev
  /\ Sanity.span_id (printed_sanity ev) = Generator.span_id ev
  /\ Sanity.parent_id (printed_sanity ev) = None
  /\ Sanity.timestamp (printed_sanity ev)
     = fromisoformat (isoformat_ms (Generator.timestamp ev)).
Proof.
  repeat split.
  unfold Sanity.timestamp, printed_sanity. cbn.
  rewrite drop_trailing_Z_app. reflexivity.
Qed.

End Printed.

Section Generated.
Context {rt : Runtime}.

Import Generator.

Lemma draw_eq (a b : Z) (st st' : session_state) (x : Z) :
  draw a b st = (x, st') ->
  ts st' = ts st /\ span_counter st' = span_counter st
  /\ (a <= b -> a <= x <= b).
Proof.
  unfold draw, randint. intros H; inversion H; subst;
    cbn -[Z.mul Z.add Z.sub Z.modulo].
  repeat split; intros; pose proof (Z.mod_pos_bound
    (draws (rng st) (position (rng st))) (b - a + 1)); lia.
Qed.

Lemma emit_after_eq (lo hi : Z) (tid c e s : string) (p : dict)
      (st st' : session_state) (ev : Event) :
  0 < lo <= hi ->
  emit_after lo hi tid c e s p st = (ev, st') ->
  ev = mkEvent (ts st') tid
               (tid ++ "_s" ++ format_0d 4 (span_counter st + 1))%string
               c e s p
  /\ span_counter st' = span_counter st + 1
  /\ dt_utcoffset (ts st') = dt_utcoffset (ts st)
  /\ dt_us (ts st) < dt_us (ts st').
Proof.
  intros Hlo. unfold emit_after, draw, randint.
  intros H; inversion H; subst; cbn -[Z.mul Z.add Z.sub Z.modulo].
  repeat split.
  pose proof (Z.mod_pos_bound
    (draws (rng st) (position (rng st))) (hi - lo + 1)). lia.
Qed.

Lemma emit_emit_after (tid c e s : string) (p : dict) (st : session_state) :
  emit tid c e s p st = emit_after 40 140 tid c e s p st.
Proof. reflexivity. Qed.

Lemma base_start_time_eq (r r' : random) (base : datetime) :
  _base_start_time r = (base, r') ->
  naive base
  /\ dt_us datetime_2025_01_01_10_00_00 <= dt_us base.
Proof.
  unfold _base_start_time, randint. intros H; inversion H; subst;
    cbn -[Z.mul Z.add Z.sub Z.modulo].
  split; [reflexivity|].
  pose proof (Z.mod_pos_bound (draws r (position r)) 61). lia.
Qed.

Lemma choice_eq (seq : list string) (r r' : random) (x : string) :
  seq <> [] -> choice seq r = (x, r') -> In x seq.
Proof.
  intros Hne. unfold choice. intros H; inversion H; subst.
  apply nth_In.
  assert (0 < Z.of_nat (List.length seq)) by (destruct seq; [contradiction|cbn; lia]).
  pose proof (Z.mod_pos_bound (draws r (position r))
                              (Z.of_nat (List.length seq))). lia.
Qed.

Lemma session_from_weaken (tid : string) (events : list Event) :
  forall c t t', t' <= t -> session_from tid c t events ->
                 session_from tid c t' events.
Proof.
  destruct events as [|ev rest]; intros c t t' Hle; cbn [session_from];
    [tauto|].
  intros (H1 & H2 & H3 & H4 & H5). repeat split; try assumption. lia.
Qed.

Lemma session_from_app (tid : string) (a : list Event) :
  forall c t b,
    session_from tid c t (a ++ b)
    <-> session_from tid c t a
        /\ session_from tid (c + Z.of_nat (List.length a)) (last_us t a) b.
Proof.
  induction a as [|ev rest IH]; intros c t b.
  - cbn [app session_from List.length last_us Z.of_nat].
    rewrite Z.add_0_r. tauto.
  - cbn [app session_from last_us List.length]. rewrite IH.
    replace (c + 1 + Z.of_nat (List.length rest))
      with (c + Z.of_nat (S (List.length rest))) by lia.
    tauto.
Qed.

Lemma last_us_app (a b : list Event) :
  forall t, last_us t (a ++ b) = last_us (last_us t a) b.
Proof.
  induction a as [|ev rest IH]; intros t; [reflexivity|].
  cbn [app last_us]. apply IH.
Qed.


(** One step through a generator: name the result of the next draw or
    emission and keep what is known of the state after it. *)
Ltac gen_step :=
  match goal with
  | |- context [_base_start_time ?r] =>
      let base := fresh "base" in
      let r' := fresh "r" in
      let E := fresh "E" in
      destruct (_base_start_time r) as [base r'] eqn:E;
      apply base_start_time_eq in E; destruct E as [? ?]
  | |- context [emit ?tid ?c ?e ?s ?p ?st] =>
      let ev := fresh "ev" in
      let st' := fresh "st" in
      let E := fresh "E" in
      destruct (emit tid c e s p st) as [ev st'] eqn:E;
      rewrite emit_emit_after in E;
      apply emit_after_eq in E;
      [destruct E as (? & ? & ? & ?); subst ev | lia]
  | |- context [emit_after ?lo ?hi ?tid ?c ?e ?s ?p ?st] =>
      let ev := fresh "ev" in
      let st' := fresh "st" in
      let E := fresh "E" in
      destruct (emit_after lo hi tid c e s p st) as [ev st'] eqn:E;
      apply emit_after_eq in E;
      [destruct E as (? & ? & ? & ?); subst ev | lia]
  | |- context [draw ?a ?b ?st] =>
      let x := fresh "x" in
      let st' := fresh "st" in
      let E := fresh "E" in
      destruct (draw a b st) as [x st'] eqn:E;
      apply draw_eq in E;
      let Hts := fresh "Hts" in
      destruct E as (Hts & ? & ?);
      assert (dt_us (ts st') = dt_us (ts st)) by (rewrite Hts; reflexivity);
      assert (dt_utcoffset (ts st') = dt_utcoffset (ts st))
        by (rewrite Hts; reflexivity);
      clear Hts
  end; cbv beta iota zeta.

Ltac gen_steps := repeat gen_step.

Lemma span_id_eq (tid : string) (a b : Z) :
  a = b ->
  (tid ++ "_s" ++ format_0d 4 a)%string = (tid ++ "_s" ++ format_0d 4 b)%string.
Proof. intros ->. reflexivity. Qed.

(** Close a goal about the emitted events from the facts gathered on the
    successive states. *)
Ltac gen_finish :=
  cbn [session_from fst snd ts span_counter rng
       timestamp trace_id span_id event_type component payload
       List.length last_us] in *;
  unfold naive in *;
  repeat split;
  first [ apply span_id_eq; lia | lia | congruence ].

Lemma simple_loop_session (i : Z) (r : random) :
  session_from ("loop_" ++ format_0d 3 i) 0
               (dt_us datetime_2025_01_01_10_00_00)
               (fst (generate_simple_correction_loop_session i r))
  /\ List.length (fst (generate_simple_correction_loop_session i r)) = 7%nat.
Proof.
  unfold generate_simple_correction_loop_session.
  gen_steps. gen_finish.
Qed.


Lemma noisy_mixed_session (i : Z) (noise : string) (r : random) :
  session_from ("mix_" ++ format_0d 3 i) 0
               (dt_us datetime_2025_01_01_10_00_00)
               (fst (generate_noisy_mixed_session i noise r))
  /\ (List.length (fst (generate_noisy_mixed_session i noise r)) = 5%nat
      \/ List.length (fst (generate_noisy_mixed_session i noise r)) = 8%nat).
Proof.
  unfold generate_noisy_mixed_session.
  destruct (choice ["stable"; "corrected"; "incomplete"] r) as [mode r1] eqn:E1.
  apply choice_eq in E1; [|discriminate].
  assert (Hmode : exists mode' r',
             (if String.eqb noise "high"
              then choice ["corrected"; "incomplete"; "incomplete"] r1
              else (mode, r1)) = (mode', r')
             /\ In mode' ["stable"; "corrected"; "incomplete"]).
  { destruct (String.eqb noise "high").
    - destruct (choice _ r1) as [mode' r'] eqn:E2.
      exists mode', r'. split; [reflexivity|].
      apply choice_eq in E2; [|discriminate].
      cbn [In] in *. tauto.
    - exists mode, r1. split; [reflexivity|exact E1]. }
  destruct Hmode as (mode' & r' & -> & Hin). clear E1.
  cbv beta iota zeta.
  cbn [In] in Hin. destruct Hin as [<-|[<-|[<-|[]]]];
    cbn [String.eqb Ascii.eqb Bool.eqb];
    gen_steps; gen_finish; auto.
Qed.


Lemma session_from_eq (tid : string) (c c' t t' : Z) (events : list Event) :
  c = c' -> t = t' ->
  session_from tid c t events -> session_from tid c' t' events.
Proof. intros -> ->. exact (fun H => H). Qed.

Lemma long_horizon_turns_session (tid : string) (d rc rl : Z) (n : nat) :
  forall (turn : Z) (st : session_state),
    naive (ts st) ->
    session_from tid (span_counter st) (dt_us (ts st))
                 (fst (long_horizon_turns n turn d rc rl tid st))
    /\ span_counter (snd (long_horizon_turns n turn d rc rl tid st))
       = span_counter st
         + Z.of_nat (List.length (fst (long_horizon_turns n turn d rc rl tid st)))
    /\ dt_us (ts (snd (long_horizon_turns n turn d rc rl tid st)))
       = last_us (dt_us (ts st))
                 (fst (long_horizon_turns n turn d rc rl tid st))
    /\ naive (ts (snd (long_horizon_turns n turn d rc rl tid st)))
    /\ loop_events_ok (fst (long_horizon_turns n turn d rc rl tid st))
    /\ (n <= List.length (fst (long_horizon_turns n turn d rc rl tid st))
        <= 2 * n)%nat.
Proof.
  induction n as [|n IH]; intros turn st Hnaive.
  - cbn. repeat split; try lia; try exact Hnaive. constructor.
  - cbn [long_horizon_turns].
    destruct (draw 90 160 st) as [base_latency st1] eqn:E1.
    apply draw_eq in E1. destruct E1 as (Hts1 & Hc1 & _).
    set (noisy :=
           if (d <=? turn) && (turn <? rc)
           then let '(x, st) := draw 60 220 st1 in (base_latency + x, st)
           else if (rc <=? turn) && (turn <? rl)
                then let '(x, st) := draw (-30) 40 st1 in (base_latency + x, st)
                else if rl <=? turn
                     then let '(x, st) := draw 80 260 st1 in
                          (base_latency + x, st)
                     else (base_latency, st1)).
    assert (Hnoisy : ts (snd noisy) = ts st1
                     /\ span_counter (snd noisy) = span_counter st1).
    { subst noisy.
      destruct ((d <=? turn) && (turn <? rc));
        [|destruct ((rc <=? turn) && (turn <? rl)); [|destruct (rl <=? turn)]];
        try (split; reflexivity);
        match goal with
        | |- context [draw ?a ?b ?s] =>
            destruct (draw a b s) as [x s'] eqn:E;
            apply draw_eq in E; destruct E as (? & ? & _);
            cbn [snd]; split; assumption
        end. }
    destruct noisy as [latency st2]. cbn [snd] in Hnoisy.
    destruct Hnoisy as [Hts2 Hc2].
    destruct (emit_after 20 120 tid "agent" "reason_step" "processing" _ st2)
      as [step st3] eqn:E3.
    apply emit_after_eq in E3; [|lia].
    destruct E3 as (Hstep & Hc3 & Ho3 & Hlt3).
    set (checked :=
           if (turn =? d + 1) || (turn =? rc) || (turn =? rl)
           then let '(lat, st) := draw 80 180 st3 in
                let '(check, st) :=
                  emit_after 20 120 tid "agent" "self_check" "recovery"
                    [("turn", JInt turn);
                     ("kind", JStr "lightweight_correction");
                     ("latency_ms", JInt lat)] st in
                ([check], st)
           else ([], st3)).
    assert (Hchecked :
              session_from tid (span_counter st3) (dt_us (ts st3)) (fst checked)
              /\ span_counter (snd checked)
                 = span_counter st3 + Z.of_nat (List.length (fst checked))
              /\ dt_us (ts (snd checked))
                 = last_us (dt_us (ts st3)) (fst checked)
              /\ dt_utcoffset (ts (snd checked)) = dt_utcoffset (ts st3)
              /\ loop_events_ok (fst checked)
              /\ (List.length (fst checked) <= 1)%nat).
    { subst checked.
      destruct ((turn =? d + 1) || (turn =? rc) || (turn =? rl)).
      - destruct (draw 80 180 st3) as [lat st4] eqn:E4.
        apply draw_eq in E4. destruct E4 as (Hts4 & Hc4 & _).
        destruct (emit_after 20 120 tid "agent" "self_check" "recovery" _ st4)
          as [check st5] eqn:E5.
        apply emit_after_eq in E5; [|lia].
        destruct E5 as (Hcheck & Hc5 & Ho5 & Hlt5). subst check.
        rewrite Hts4 in Ho5, Hlt5.
        cbn [fst snd session_from List.length last_us
             timestamp trace_id span_id event_type].
        unfold naive. repeat split; try lia; try congruence;
          try (apply span_id_eq; lia).
        constructor; [right; reflexivity|constructor].
      - cbn. repeat split; try lia. constructor. }
    destruct checked as [checks st6]. cbn [fst snd] in Hchecked.
    destruct Hchecked as (Hs6 & Hc6 & Hl6 & Ho6 & Hok6 & Hlen6).
    assert (Hnaive6 : naive (ts st6)).
    { unfold naive in *. rewrite Ho6, Ho3, Hts2, Hts1. exact Hnaive. }
    specialize (IH (turn + 1) st6 Hnaive6).
    destruct (long_horizon_turns n (turn + 1) d rc rl tid st6)
      as [rest st7].
    cbn [fst snd] in IH |- *.
    destruct IH as (Hs7 & Hc7 & Hl7 & Hn7 & Hok7 & Hlen7).
    subst step. rewrite Hts2, Hts1 in Hlt3, Ho3.
    split; [|split; [|split; [|split; [|split; [|split]]]]].
    + cbn [session_from timestamp trace_id span_id].
      split; [reflexivity|]. split; [apply span_id_eq; lia|].
      split; [unfold naive in *; congruence|]. split; [exact Hlt3|].
      apply session_from_app. split.
      * apply (session_from_eq tid (span_counter st3) _ (dt_us (ts st3)) _);
          [lia|reflexivity|exact Hs6].
      * apply (session_from_eq tid (span_counter st6) _ (dt_us (ts st6)) _);
          [lia|exact Hl6|exact Hs7].
    + rewrite Hc7. cbn [List.length]. rewrite length_app. lia.
    + rewrite Hl7. cbn [last_us timestamp]. rewrite last_us_app, <- Hl6.
      reflexivity.
    + exact Hn7.
    + constructor; [left; reflexivity|].
      apply Forall_app. split; assumption.
    + cbn [List.length]. rewrite length_app. lia.
    + cbn [List.length]. rewrite length_app. lia.
Qed.


(** The session of the long-horizon generator: an init record, the
    user's goal, the records of the main loop, and a final record. *)
Lemma long_horizon_shape (i turns : Z) (noise : string) (r : random) :
  exists e_init e_user steps e_end drift_turn recovery_turn relapse_turn,
    fst (generate_long_horizon_session i turns noise r)
    = e_init :: e_user :: steps ++ [e_end]
    /\ event_type e_init = "session_init"
    /\ event_type e_user = "user_message"
    /\ loop_events_ok steps
    /\ (Z.to_nat turns <= List.length steps <= 2 * Z.to_nat turns)%nat
    /\ event_type e_end = "session_end"
    /\ payload e_end
       = [("turns", JInt turns);
          ("drift_turn", JInt drift_turn);
          ("recovery_turn", JInt recovery_turn);
          ("relapse_turn", JInt relapse_turn);
          ("final_status", JStr "relapse_after_recovery")]
    /\ relapse_turn < turns
    /\ session_from ("lh_" ++ format_0d 3 i) 0
                    (dt_us datetime_2025_01_01_10_00_00)
                    (e_init :: e_user :: steps ++ [e_end]).
Proof.
  unfold generate_long_horizon_session.
  do 3 gen_step.
  assert (Hdrift : exists drift_turn st',
             (if String.eqb noise "low"
              then draw (Z.max 3 (turns / 4)) (Z.max 4 (turns / 3)) st0
              else if String.eqb noise "high"
                   then draw 2 (Z.max 3 (turns / 5)) st0
                   else draw (Z.max 3 (turns / 5)) (Z.max 4 (turns / 3)) st0)
             = (drift_turn, st')
             /\ ts st' = ts st0 /\ span_counter st' = span_counter st0).
  { destruct (String.eqb noise "low"); [|destruct (String.eqb noise "high")];
      match goal with
      | |- context [draw ?a ?b ?s] =>
          destruct (draw a b s) as [x s'] eqn:E;
          apply draw_eq in E; destruct E as (? & ? & _);
          exists x, s'; repeat split; assumption
      end. }
  destruct Hdrift as (drift_turn & st1 & -> & Hts1 & Hc1).
  assert (Hus1 : dt_us (ts st1) = dt_us (ts st0))
    by (rewrite Hts1; reflexivity).
  cbv beta iota zeta.
  do 2 gen_step.
  set (recovery_turn := Z.min (turns - 3) (drift_turn + x)).
  set (relapse_turn := Z.min (turns - 1) (recovery_turn + x0)).
  assert (Hnaive3 : naive (ts st3)).
  { unfold naive in *. cbn [ts] in *. congruence. }
  pose proof (long_horizon_turns_session
                ("lh_" ++ format_0d 3 i) drift_turn recovery_turn relapse_turn
                (Z.to_nat turns) 1 st3 Hnaive3) as Hloop.
  destruct (long_horizon_turns (Z.to_nat turns) 1 drift_turn recovery_turn
                               relapse_turn ("lh_" ++ format_0d 3 i) st3)
    as [steps st4].
  cbn [fst snd] in Hloop.
  destruct Hloop as (Hs4 & Hc4 & Hl4 & Hn4 & Hok4 & Hlen4).
  cbv beta iota zeta.
  replace (turns <? relapse_turn) with false
    by (symmetry; apply Z.ltb_ge; subst relapse_turn; lia).
  gen_step. cbn [fst].
  do 7 eexists. split; [reflexivity|].
  cbn [event_type payload].
  do 3 (split; [first [reflexivity | assumption]|]).
  split; [exact Hlen4|]. split; [reflexivity|]. split; [reflexivity|].
  split; [subst relapse_turn; lia|].
  cbn [session_from timestamp trace_id span_id ts span_counter] in *.
  unfold naive in *.
  split; [reflexivity|]. split; [apply span_id_eq; lia|].
  split; [congruence|]. split; [lia|].
  split; [reflexivity|]. split; [apply span_id_eq; lia|].
  split; [congruence|]. split; [lia|].
  apply session_from_app. split.
  - apply (session_from_eq _ (span_counter st3) _ (dt_us (ts st3)) _);
      [lia|lia|exact Hs4].
  - cbn [session_from timestamp trace_id span_id].
    split; [reflexivity|]. split; [apply span_id_eq; lia|].
    split; [congruence|]. split; [|exact I].
    replace (last_us (dt_us (ts st0)) steps) with (dt_us (ts st4)); [lia|].
    rewrite Hl4. f_equal. lia.
Qed.

End Generated.

Section GeneratedSessions.
Context {rt : Runtime}.

Import Generator.

Lemma generate_session_shape
      (variant : string) (i turns : Z) (noise : string) (r : random) :
  session_from (session_id variant i) 0 (dt_us datetime_2025_01_01_10_00_00)
               (fst (generate_session variant i turns noise r))
  /\ (3 <= List.length (fst (generate_session variant i turns noise r)))%nat.
Proof.
  unfold generate_session, session_id.
  destruct (String.eqb variant "long_horizon").
  - destruct (long_horizon_shape i turns noise r)
      as (e1 & e2 & steps & e3 & d & rc & rl
          & -> & _ & _ & _ & _ & _ & _ & _ & H).
    split; [exact H|].
    cbn [List.length]. rewrite length_app. cbn [List.length]. lia.
  - destruct (String.eqb variant "simple_correction_loop").
    + destruct (simple_loop_session i r) as [H Hlen].
      split; [exact H|]. rewrite Hlen. lia.
    + destruct (noisy_mixed_session i noise r) as [H Hlen].
      split; [exact H|]. lia.
Qed.

(** X20: every session that one of the three generators emits carries
    one session id, made of the prefix of its variant and the index on
    three digits, span ids numbered 0001, 0002, ... in emission order,
    and timestamps without UTC offset that increase strictly, starting
    after 2025-01-01 10:00:00; it has at least three events. *)
Theorem generated_sessions_well_formed
        (variant : string) (i turns : Z) (noise : string) (r : random) :
  session_from (session_id variant i) 0 (dt_us datetime_2025_01_01_10_00_00)
               (fst (generate_session variant i turns noise r))
  /\ (3 <= List.length (fst (generate_session variant i turns noise r)))%nat.
Proof. exact (generate_session_shape variant i turns noise r). Qed.

Lemma session_from_trace_ids (tid : string) (events : list Event) :
  forall c t, session_from tid c t events ->
              Forall (fun ev => trace_id ev = tid) events.
Proof.
  induction events as [|ev rest IH]; intros c t; cbn [session_from];
    [constructor|].
  intros (H1 & _ & _ & _ & H5). constructor; [exact H1|exact (IH _ _ H5)].
Qed.

Lemma session_from_in_order (tid : string) (events : list Event) :
  forall c t prev,
    naive prev -> dt_us prev <= t ->
    session_from tid c t events ->
    count_earlier prev (map timestamp events) = Ok 0.
Proof.
  induction events as [|ev rest IH]; intros c t prev Hp Hle;
    cbn [session_from map count_earlier]; [reflexivity|].
  intros (_ & _ & Hn & Hlt & Hrest).
  unfold dt_lt. unfold naive in Hp, Hn. rewrite Hn, Hp. cbn [bind].
  rewrite (IH _ _ (timestamp ev) Hn (Z.le_refl _) Hrest). cbn [bind].
  replace (dt_us (timestamp ev) <? dt_us prev) with false
    by (symmetry; apply Z.ltb_ge; lia).
  reflexivity.
Qed.

Lemma load_printed (events : list Event) :
  Metrics.load_events (map (fun ev => Metrics.Parsed (to_json ev)) events) None
  = Ok (map printed events).
Proof.
  unfold Metrics.load_events. rewrite load_loop_uncapped.
  - cbn [app]. f_equal. induction events as [|ev rest IH]; [reflexivity|].
    cbn [map object_events to_json]. rewrite IH. reflexivity.
  - induction events as [|ev rest IH]; [reflexivity|].
    cbn [map forallb to_json andb]. exact IH.
Qed.

Lemma group_printed (tid : string) (ev : Event) (events : list Event) :
  Forall (fun ev => trace_id ev = tid) (ev :: events) ->
  Metrics.group_by_trace (map printed (ev :: events))
  = [(tid, map printed (ev :: events))].
Proof.
  intros H. cbn [map]. apply group_by_trace_single.
  change (printed ev :: map printed events) with (map printed (ev :: events)).
  apply Forall_map. revert H. apply Forall_impl. intros x Hx. exact Hx.
Qed.

Lemma no_drift_recovery (events : list Metrics.Event) :
  (forall ev, In ev events -> is_drift_like ev = false) ->
  forall acc, for_each recovery_body events (None, acc) = Ok (None, acc).
Proof.
  induction events as [|ev rest IH]; intros H acc; [reflexivity|].
  cbn [for_each recovery_body].
  pose proof (H ev (or_introl eq_refl)) as Hev. unfold is_drift_like in Hev.
  rewrite Hev. cbn [bind]. apply IH. intros e He. apply H. right. exact He.
Qed.

Lemma no_drift_relapse (events : list Metrics.Event) :
  (forall ev, In ev events -> is_drift_like ev = false) ->
  forall had, snd (relapse_scan events had false) = false.
Proof.
  induction events as [|ev rest IH]; intros H had; [reflexivity|].
  cbn [relapse_scan]. rewrite (H ev (or_introl eq_refl)), andb_false_r.
  assert (Hrest : forall e, In e rest -> is_drift_like e = false)
    by (intros e He; apply H; right; exact He).
  destruct (negb had && is_correction ev); apply IH; exact Hrest.
Qed.

(** X21: the long-horizon generator never emits a drift-like record and
    always ends on [final_status = "relapse_after_recovery"] (the branch
    ["stable"] cannot be taken, the relapse turn being at most
    [turns - 1]).  Read by the metrics script its session is one group,
    classified [session_end_generic], without recovery episode and
    without relapse. *)
Theorem long_horizon_outcome (i turns : Z) (noise : string) (r : random) :
  exists events last,
    Metrics.load_events
      (map (fun ev => Metrics.Parsed (to_json ev))
           (fst (generate_long_horizon_session i turns noise r))) None
    = Ok (events ++ [last])
    /\ dict_get (Metrics.payload last) "final_status"
       = JStr "relapse_after_recovery"
    /\ (forall ev, In ev (events ++ [last]) -> is_drift_like ev = false)
    /\ List.length (Metrics.group_by_trace (events ++ [last])) = 1%nat
    /\ classify_session_closure (events ++ [last]) = "session_end_generic"
    /\ compute_recovery_turn_distances
         (Metrics.group_by_trace (events ++ [last])) = Ok []
    /\ fst (compute_post_correction_relapse_rate
              (Metrics.group_by_trace (events ++ [last]))) = 0.
Proof.
  destruct (long_horizon_shape i turns noise r)
    as (e1 & e2 & steps & e3 & d & rc & rl
        & Heq & Ht1 & Ht2 & Hok & _ & Ht3 & Hp3 & _ & Hs).
  rewrite Heq, load_printed.
  exists (map printed (e1 :: e2 :: steps)), (printed e3).
  assert (Hmap : map printed (e1 :: e2 :: steps ++ [e3])
                 = map printed (e1 :: e2 :: steps) ++ [printed e3]).
  { cbn [map]. rewrite map_app. reflexivity. }
  split; [rewrite Hmap; reflexivity|].
  assert (Hpay : Metrics.payload (printed e3) = payload e3) by reflexivity.
  assert (Hty : forall ev, Metrics.event_type (printed ev) = event_type ev)
    by (intros ev; reflexivity).
  split; [rewrite Hpay, Hp3; reflexivity|].
  assert (Hnodrift : forall ev,
             In ev (map printed (e1 :: e2 :: steps) ++ [printed e3]) ->
             is_drift_like ev = false).
  { rewrite <- Hmap. intros ev Hin. apply in_map_iff in Hin.
    destruct Hin as (g & <- & Hin). unfold is_drift_like. rewrite Hty.
    destruct Hin as [<-|[<-|Hin]]; [rewrite Ht1; reflexivity
                                   |rewrite Ht2; reflexivity|].
    apply in_app_or in Hin. destruct Hin as [Hin|[<-|[]]].
    - unfold loop_events_ok in Hok. rewrite Forall_forall in Hok.
      destruct (Hok g Hin) as [-> | ->]; reflexivity.
    - rewrite Ht3. reflexivity. }
  split; [exact Hnodrift|].
  assert (Hgroup : Metrics.group_by_trace
                     (map printed (e1 :: e2 :: steps) ++ [printed e3])
                   = [(("lh_" ++ format_0d 3 i)%string,
                       map printed (e1 :: e2 :: steps) ++ [printed e3])]).
  { rewrite <- Hmap. apply group_printed.
    exact (session_from_trace_ids _ _ _ _ Hs). }
  rewrite Hgroup. split; [reflexivity|]. split.
  - unfold classify_session_closure. rewrite rev_app_distr. cbn [rev app].
    rewrite Hpay, Hp3, Hty, Ht3. reflexivity.
  - split.
    + unfold compute_recovery_turn_distances.
      cbn [values map snd for_each].
      rewrite (no_drift_recovery _ Hnodrift). reflexivity.
    + unfold compute_post_correction_relapse_rate.
      cbn [values map snd fold_left].
      pose proof (no_drift_relapse _ Hnodrift false) as Hrel.
      destruct (relapse_scan _ false false) as [had relapsed].
      cbn [snd] in Hrel. subst relapsed. destruct had; reflexivity.
Qed.

End GeneratedSessions.

Section GeneratedOutcomes.
Context {rt : Runtime}.

Import Generator.

(** The metrics of a printed session, once its records are laid out. *)
Ltac session_metrics tid :=
  cbv beta iota zeta delta
      [emit_after draw randint _base_start_time
       rng ts span_counter draws position fst snd map printed to_json
       timestamp trace_id span_id component event_type execution_stage
       payload];
  rewrite (group_by_trace_single tid) by (repeat constructor);
  split; [reflexivity|].

(** X22: a session of the noisy-mixed generator is read by the metrics
    script as one group with one of three outcomes: closure
    [natural_completion] without correction nor episode (never under
    [--noise high]); closure [completed_after_correction] with one
    corrected session, no relapse and one recovery episode of distance
    2; or closure [incomplete] without correction nor episode. *)
Theorem noisy_mixed_outcomes (i : Z) (noise : string) (r : random) :
  exists events,
    Metrics.load_events
      (map (fun ev => Metrics.Parsed (to_json ev))
           (fst (generate_noisy_mixed_session i noise r))) None
    = Ok events
    /\ List.length (Metrics.group_by_trace events) = 1%nat
    /\ ((classify_session_closure events = "natural_completion"
         /\ compute_post_correction_relapse_rate
              (Metrics.group_by_trace events) = (0, 0)
         /\ compute_recovery_turn_distances
              (Metrics.group_by_trace events) = Ok []
         /\ noise <> "high")
        \/ (classify_session_closure events = "completed_after_correction"
            /\ compute_post_correction_relapse_rate
                 (Metrics.group_by_trace events) = (0, 1)
            /\ compute_recovery_turn_distances
                 (Metrics.group_by_trace events) = Ok [2])
        \/ (classify_session_closure events = "incomplete"
            /\ compute_post_correction_relapse_rate
                 (Metrics.group_by_trace events) = (0, 0)
            /\ compute_recovery_turn_distances
                 (Metrics.group_by_trace events) = Ok [])).
Proof.
  eexists. split; [apply load_printed|].
  unfold generate_noisy_mixed_session.
  destruct (choice ["stable"; "corrected"; "incomplete"] r) as [mode r1] eqn:E1.
  apply choice_eq in E1; [|discriminate].
  destruct (String.eqb noise "high") eqn:Eh.
  - destruct (choice ["corrected"; "incomplete"; "incomplete"] r1)
      as [mode' r2] eqn:E2.
    apply choice_eq in E2; [|discriminate]. clear E1.
    cbn [In] in E2. destruct E2 as [<-|[<-|[<-|[]]]];
      cbn [String.eqb Ascii.eqb Bool.eqb];
      session_metrics ("mix_" ++ format_0d 3 i)%string.
    + right. left. repeat split.
    + right. right. repeat split.
    + right. right. repeat split.
  - apply String.eqb_neq in Eh.
    cbn [In] in E1. destruct E1 as [<-|[<-|[<-|[]]]];
      cbn [String.eqb Ascii.eqb Bool.eqb];
      session_metrics ("mix_" ++ format_0d 3 i)%string.
    + left. repeat split. exact Eh.
    + right. left. repeat split.
    + right. right. repeat split.
Qed.

Lemma parsed_printed (events : list Event) :
  (forall ev, In ev events ->
              fromisoformat (isoformat_ms (timestamp ev)) = Some (timestamp ev)) ->
  parsed_timestamps (map printed_sanity events) = map timestamp events.
Proof.
  induction events as [|ev rest IH]; intros H; [reflexivity|].
  cbn [map parsed_timestamps flat_map].
  assert (Hts : Sanity.timestamp (printed_sanity ev)
                = fromisoformat (isoformat_ms (timestamp ev))).
  { unfold Sanity.timestamp, printed_sanity. cbn.
    rewrite drop_trailing_Z_app. reflexivity. }
  rewrite Hts, (H ev (or_introl eq_refl)). cbn [app]. f_equal.
  apply IH. intros e He. apply H. right. exact He.
Qed.

Lemma parents_printed (events : list Event) :
  parents (map printed_sanity events) = [].
Proof.
  induction events as [|ev rest IH]; [reflexivity|].
  cbn [map parents flat_map]. fold (parents (map printed_sanity rest)).
  rewrite IH. reflexivity.
Qed.

Lemma sanity_group_from (tid : string) (events : list Sanity.Event) :
  Forall (fun ev => Sanity.trace_id ev = tid) events ->
  forall group : list Sanity.Event,
    fold_left (fun traces ev =>
                 append_item String.eqb traces (Sanity.trace_id ev) ev)
              events [(tid, group)]
    = [(tid, group ++ events)].
Proof.
  intros H. induction H as [|ev rest Hev Hrest IH]; intros group.
  - cbn. rewrite app_nil_r. reflexivity.
  - cbn [fold_left append_item]. rewrite Hev, String.eqb_refl, IH.
    rewrite <- app_assoc. reflexivity.
Qed.

Lemma sanity_group_printed (tid : string) (ev : Event) (events : list Event) :
  Forall (fun ev => trace_id ev = tid) (ev :: events) ->
  Sanity.group_by_trace (map printed_sanity (ev :: events))
  = [(tid, map printed_sanity (ev :: events))].
Proof.
  intros H. apply Forall_cons_iff in H as [Hev Hrest].
  unfold Sanity.group_by_trace. cbn [map fold_left append_item].
  change (Sanity.trace_id (printed_sanity ev)) with (trace_id ev).
  rewrite Hev.
  assert (HF : Forall (fun e => Sanity.trace_id e = tid)
                      (map printed_sanity events)).
  { apply Forall_map. revert Hrest. apply Forall_impl.
    intros x Hx. exact Hx. }
  exact (sanity_group_from tid _ HF [printed_sanity ev]).
Qed.

Lemma session_monotonic (tid : string) (events : list Event) :
  session_from tid 0 (dt_us datetime_2025_01_01_10_00_00) events ->
  (forall ev, In ev events ->
              fromisoformat (isoformat_ms (timestamp ev))
              = Some (timestamp ev)) ->
  Sanity.check_timestamp_monotonicity (map printed_sanity events)
  = Ok (true, 0).
Proof.
  intros Hs Hround. rewrite check_timestamp_monotonicity_spec.
  rewrite (parsed_printed _ Hround).
  destruct events as [|ev rest]; [reflexivity|].
  cbn [map violations]. cbn [session_from] in Hs.
  destruct Hs as (_ & _ & Hn & _ & Hrest).
  rewrite (session_from_in_order _ _ _ _ (timestamp ev) Hn (Z.le_refl _) Hrest).
  reflexivity.
Qed.

(** X23: run on the printed lines of a generated session, the sanity
    checks see one session, in which no span has a parent and which is
    not short for the threshold 3. *)
Theorem generated_sessions_pass_sanity_checks
        (variant : string) (i turns : Z) (noise : string) (r : random) :
  let records :=
    map printed_sanity (fst (generate_session variant i turns noise r)) in
  Sanity.group_by_trace records = [(session_id variant i, records)]
  /\ Sanity.compute_span_fanout records = []
  /\ Sanity.detect_short_sessions (Sanity.group_by_trace records) 3 = [].
Proof.
  intros records. subst records.
  destruct (generate_session_shape variant i turns noise r) as [Hs Hlen].
  generalize dependent (fst (generate_session variant i turns noise r)).
  intros events Hs Hlen.
  destruct events as [|ev rest]; [cbn in Hlen; lia|].
  rewrite (sanity_group_printed (session_id variant i))
    by exact (session_from_trace_ids _ _ _ _ Hs).
  split; [reflexivity|]. split.
  - unfold Sanity.compute_span_fanout.
    rewrite fanout_as_keys, parents_printed. reflexivity.
  - unfold Sanity.detect_short_sessions.
    cbn [filter snd]. rewrite length_map.
    replace (Z.of_nat (List.length (ev :: rest)) <? 3) with false
      by (symmetry; apply Z.ltb_ge; lia).
    reflexivity.
Qed.

(** X24: when [fromisoformat] reads back the times that the generator
    prints, the timestamp check finds the printed lines of a generated
    session monotonic, without violation. *)
Theorem generated_sessions_monotonic
        (variant : string) (i turns : Z) (noise : string) (r : random) :
  (forall ev, In ev (fst (generate_session variant i turns noise r)) ->
              fromisoformat (isoformat_ms (timestamp ev))
              = Some (timestamp ev)) ->
  Sanity.check_timestamp_monotonicity
    (map printed_sanity (fst (generate_session variant i turns noise r)))
  = Ok (true, 0).
Proof.
  apply (session_monotonic (session_id variant i)).
  apply generate_session_shape.
Qed.

End GeneratedOutcomes.

(* ====================================================================== *)
(** * Further results: the output of the generator's [main] *)
(* ====================================================================== *)

Section Blocks.
Context {A : Type} (key : A -> string).

Lemma append_item_fresh (acc : list (string * list A)) (tid : string) (x : A) :
  ~ In tid (map fst acc) ->
  append_item String.eqb acc tid x = acc ++ [(tid, [x])].
Proof.
  induction acc as [|[k vs] rest IH]; intros Hnew; [reflexivity|].
  cbn [append_item app]. cbn [map fst In] in Hnew.
  destruct (String.eqb k tid) eqn:E.
  - apply String.eqb_eq in E. tauto.
  - rewrite IH by tauto. reflexivity.
Qed.

Lemma append_item_last (acc : list (string * list A)) (tid : string)
      (group : list A) (x : A) :
  ~ In tid (map fst acc) ->
  append_item String.eqb (acc ++ [(tid, group)]) tid x
  = acc ++ [(tid, group ++ [x])].
Proof.
  induction acc as [|[k vs] rest IH]; intros Hnew.
  - cbn [append_item app]. rewrite String.eqb_refl. reflexivity.
  - cbn [append_item app]. cbn [map fst In] in Hnew.
    destruct (String.eqb k tid) eqn:E.
    + apply String.eqb_eq in E. tauto.
    + rewrite IH by tauto. reflexivity.
Qed.

Lemma fold_block (acc : list (string * list A)) (tid : string) (block : list A) :
  ~ In tid (map fst acc) ->
  Forall (fun x => key x = tid) block ->
  forall group,
    fold_left (fun t x => append_item String.eqb t (key x) x) block
              (acc ++ [(tid, group)])
    = acc ++ [(tid, group ++ block)].
Proof.
  intros Hnew H. induction H as [|x rest Hx Hrest IH]; intros group.
  - cbn [fold_left]. rewrite app_nil_r. reflexivity.
  - cbn [fold_left]. rewrite Hx, (append_item_last _ _ _ _ Hnew), IH.
    rewrite <- app_assoc. reflexivity.
Qed.

(** Sessions that come one after the other, under ids that differ, are
    grouped as they come. *)
Lemma fold_blocks (f : Generator.Event -> A)
      (Hkey : forall ev, key (f ev) = Generator.trace_id ev) :
  forall ids sessions,
    Forall2 (fun tid s =>
               s <> [] /\ Forall (fun ev => Generator.trace_id ev = tid) s)
            ids sessions ->
    forall acc,
      NoDup (map fst acc ++ ids) ->
      fold_left (fun t x => append_item String.eqb t (key x) x)
                (map f (List.concat sessions)) acc
      = acc ++ combine ids (map (map f) sessions).
Proof.
  intros ids sessions H.
  induction H as [|tid s ids sessions [Hne Hs] Hrest IH]; intros acc Hnd.
  - cbn. rewrite app_nil_r. reflexivity.
  - cbn [List.concat map combine]. rewrite map_app, fold_left_app.
    assert (Hnew : ~ In tid (map fst acc)).
    { apply NoDup_remove_2 in Hnd. intros Hin. apply Hnd.
      apply in_or_app. left. exact Hin. }
    destruct s as [|ev rest]; [congruence|].
    apply Forall_cons_iff in Hs as [Hev Hs].
    cbn [map fold_left]. rewrite Hkey, Hev, (append_item_fresh _ _ _ Hnew).
    rewrite (fold_block acc tid (map f rest) Hnew).
    + rewrite IH.
      * rewrite <- app_assoc. reflexivity.
      * rewrite map_app, <- app_assoc. exact Hnd.
    + apply Forall_map. revert Hs. apply Forall_impl.
      intros x Hx. rewrite Hkey. exact Hx.
Qed.

End Blocks.

Section SessionIds.

Lemma zeros_decoded (k : nat) (s : string) (d : Decimal.uint) :
  NilEmpty.uint_of_string s = Some d ->
  exists d', NilEmpty.uint_of_string (zeros k ++ s) = Some d'
             /\ N.of_uint d' = N.of_uint d.
Proof.
  intros H. induction k as [|k (d' & Hd' & Hn)].
  - exists d. split; [exact H|reflexivity].
  - exists (Decimal.D0 d'). split; [|exact Hn].
    cbn [zeros String.append NilEmpty.uint_of_string]. rewrite Hd'.
    reflexivity.
Qed.

Lemma format_0d_decoded (width : nat) (z : Z) :
  0 <= z ->
  exists d, NilEmpty.uint_of_string (format_0d width z) = Some d
            /\ N.of_uint d = Z.abs_N z.
Proof.
  intros Hz. unfold format_0d.
  replace (z <? 0) with false by (symmetry; apply Z.ltb_ge; exact Hz).
  cbn [String.append].
  destruct (zeros_decoded
              (width - String.length "" -
               String.length (NilZero.string_of_uint (N.to_uint (Z.abs_N z))))
              (NilZero.string_of_uint (N.to_uint (Z.abs_N z)))
              (match N.to_uint (Z.abs_N z) with
               | Decimal.Nil => Decimal.D0 Decimal.Nil
               | d => d
               end)) as (d & Hd & Hn).
  - destruct (N.to_uint (Z.abs_N z)) eqn:E;
      try (cbn [NilZero.string_of_uint]; apply NilEmpty.usu).
    reflexivity.
  - exists d. split; [exact Hd|]. rewrite Hn.
    rewrite <- (DecimalN.Unsigned.of_to (Z.abs_N z)) at 2.
    destruct (N.to_uint (Z.abs_N z)); reflexivity.
Qed.

Lemma format_0d_injective (width : nat) (a b : Z) :
  0 <= a -> 0 <= b -> format_0d width a = format_0d width b -> a = b.
Proof.
  intros Ha Hb H.
  destruct (format_0d_decoded width a Ha) as (da & Ea & Na).
  destruct (format_0d_decoded width b Hb) as (db & Eb & Nb).
  rewrite H, Eb in Ea. injection Ea as <-.
  rewrite Nb in Na. apply (f_equal Z.of_N) in Na.
  rewrite !N2Z.inj_abs_N in Na. lia.
Qed.

Lemma append_injective (p a b : string) :
  (p ++ a)%string = (p ++ b)%string -> a = b.
Proof.
  induction p as [|c p IH]; cbn [String.append]; intros H; [exact H|].
  injection H as H. exact (IH H).
Qed.

Lemma session_id_injective (variant : string) (a b : Z) :
  0 <= a -> 0 <= b -> session_id variant a = session_id variant b -> a = b.
Proof.
  intros Ha Hb H. unfold session_id in H. apply append_injective in H.
  exact (format_0d_injective 3 a b Ha Hb H).
Qed.

Lemma range_from_lower (n : nat) :
  forall i j, In j (range_from n i) -> i <= j.
Proof.
  induction n as [|n IH]; intros i j; cbn [range_from In]; [tauto|].
  intros [<-|H]; [lia|]. apply IH in H. lia.
Qed.

Lemma session_ids_NoDup (variant : string) (n : nat) :
  forall i, 0 <= i -> NoDup (map (session_id variant) (range_from n i)).
Proof.
  induction n as [|n IH]; intros i Hi; cbn [range_from map]; constructor.
  - intros Hin. apply in_map_iff in Hin as (j & Hj & Hin).
    apply range_from_lower in Hin.
    apply session_id_injective in Hj; lia.
  - apply IH. lia.
Qed.

Lemma range_from_length (n : nat) :
  forall i, List.length (range_from n i) = n.
Proof.
  induction n as [|n IH]; intros i; cbn [range_from List.length];
    [reflexivity|].
  rewrite IH. reflexivity.
Qed.

End SessionIds.

Section MainOutput.
Context {rt : Runtime}.

Import Generator.

Lemma main_from_sessions (n : nat) :
  forall i variant turns noise r,
    main_from n i variant turns noise r
    = map to_json (List.concat (sessions_from n i variant turns noise r)).
Proof.
  induction n as [|n IH]; intros i variant turns noise r;
    cbn [main_from sessions_from]; [reflexivity|].
  destruct (generate_session variant i turns noise r) as [events r'].
  cbn [List.concat]. rewrite map_app, IH. reflexivity.
Qed.

Lemma sessions_from_shape (n : nat) :
  forall i variant turns noise r,
    Forall2 (fun tid s =>
               session_from tid 0 (dt_us datetime_2025_01_01_10_00_00) s
               /\ (3 <= List.length s)%nat)
            (map (session_id variant) (range_from n i))
            (sessions_from n i variant turns noise r).
Proof.
  induction n as [|n IH]; intros i variant turns noise r;
    cbn [range_from map sessions_from]; [constructor|].
  pose proof (generate_session_shape variant i turns noise r) as H.
  destruct (generate_session variant i turns noise r) as [events r'].
  constructor; [exact H|apply IH].
Qed.

Lemma sessions_from_blocks (n : nat) (i : Z) (variant : string) (turns : Z)
      (noise : string) (r : random) :
  Forall2 (fun tid s =>
             s <> [] /\ Forall (fun ev => trace_id ev = tid) s)
          (map (session_id variant) (range_from n i))
          (sessions_from n i variant turns noise r).
Proof.
  pose proof (sessions_from_shape n i variant turns noise r) as H.
  induction H as [|tid s ids ss [Hs Hlen] Hrest IH]; constructor;
    [|exact IH].
  split.
  - intros ->. cbn in Hlen. lia.
  - exact (session_from_trace_ids _ _ _ _ Hs).
Qed.

Lemma sessions_from_length (n : nat) (i : Z) (variant : string) (turns : Z)
      (noise : string) (r : random) :
  List.length (sessions_from n i variant turns noise r) = n.
Proof.
  pose proof (sessions_from_shape n i variant turns noise r) as H.
  apply Forall2_length in H.
  rewrite length_map, range_from_length in H. symmetry. exact H.
Qed.

Lemma group_fold_append_item (events : list Metrics.Event) :
  forall grouped,
    fold_left (fun grouped ev => append_to grouped (Metrics.trace_id ev) ev)
              events grouped
    = fold_left (fun t x => append_item String.eqb t (Metrics.trace_id x) x)
                events grouped.
Proof.
  induction events as [|ev rest IH]; intros grouped; [reflexivity|].
  cbn [fold_left]. rewrite append_to_append_item. apply IH.
Qed.

(** X25: the metrics script reads back every line that the generator's
    [main] prints, and groups the records into the generated sessions,
    in order, under ids that number them from 000 on: [--sessions n]
    gives [n] groups, none when [n] is negative. *)
Theorem main_sessions_read_back
        (variant : string) (sessions turns : Z) (noise : string) (r : random) :
  let generated :=
    sessions_from (Z.to_nat sessions) 0 variant turns noise r in
  exists events,
    Metrics.load_events
      (map Metrics.Parsed (main variant sessions turns noise r)) None
    = Ok events
    /\ events = map printed (List.concat generated)
    /\ Metrics.group_by_trace events
       = combine (map (session_id variant)
                      (range_from (Z.to_nat sessions) 0))
                 (map (map printed) generated)
    /\ List.length (Metrics.group_by_trace events) = Z.to_nat sessions.
Proof.
  intros generated. subst generated. eexists. split.
  { unfold main. rewrite main_from_sessions, map_map. apply load_printed. }
  split; [reflexivity|].
  assert (Hgroup :
            Metrics.group_by_trace
              (map printed
                   (List.concat (sessions_from (Z.to_nat sessions) 0
                                          variant turns noise r)))
            = combine (map (session_id variant)
                           (range_from (Z.to_nat sessions) 0))
                      (map (map printed)
                           (sessions_from (Z.to_nat sessions) 0
                                          variant turns noise r))).
  { unfold Metrics.group_by_trace.
    rewrite group_fold_append_item.
    rewrite (fold_blocks Metrics.trace_id printed (fun ev => eq_refl)
                         _ _ (sessions_from_blocks _ _ _ _ _ _) []).
    - reflexivity.
    - apply session_ids_NoDup. lia. }
  split; [exact Hgroup|].
  rewrite Hgroup, length_combine, !length_map, range_from_length,
    sessions_from_length.
  apply Nat.min_id.
Qed.

Lemma sanity_main_traces (n : nat) (variant : string) (turns : Z)
      (noise : string) (r : random) :
  Sanity.group_by_trace
    (map printed_sanity (List.concat (sessions_from n 0 variant turns noise r)))
  = combine (map (session_id variant) (range_from n 0))
            (map (map printed_sanity) (sessions_from n 0 variant turns noise r)).
Proof.
  unfold Sanity.group_by_trace.
  rewrite (fold_blocks Sanity.trace_id printed_sanity (fun ev => eq_refl)
                       _ _ (sessions_from_blocks _ _ _ _ _ _) []).
  - reflexivity.
  - apply session_ids_NoDup. lia.
Qed.

Lemma combine_Forall {B C : Type} (P : string -> B -> Prop) (Q : C -> Prop)
      (g : B -> C) :
  (forall tid s, P tid s -> Q (g s)) ->
  forall ids ss,
    Forall2 P ids ss ->
    Forall (fun item : string * C => Q (snd item)) (combine ids (map g ss)).
Proof.
  intros HPQ ids ss H. induction H as [|tid s ids ss Hs Hrest IH];
    cbn [map combine]; constructor; [|exact IH].
  exact (HPQ tid s Hs).
Qed.

Lemma fanout_histogram_none (traces : list (string * list Sanity.Event)) :
  Forall (fun item => Sanity.compute_span_fanout (snd item) = []) traces ->
  Sanity.fanout_histogram traces = [].
Proof.
  unfold Sanity.fanout_histogram. generalize (@nil (Z * Z)).
  intros fanouts H. induction H as [|item rest Hitem Hrest IH];
    [reflexivity|].
  cbn [map fold_left]. rewrite Hitem. exact IH.
Qed.

Lemma short_sessions_none (traces : list (string * list Sanity.Event)) :
  Forall (fun item => (3 <= List.length (snd item))%nat) traces ->
  Sanity.detect_short_sessions traces 3 = [].
Proof.
  unfold Sanity.detect_short_sessions.
  intros H. induction H as [|item rest Hitem Hrest IH]; [reflexivity|].
  cbn [filter].
  replace (Z.of_nat (List.length (snd item)) <? 3) with false
    by (symmetry; apply Z.ltb_ge; lia).
  exact IH.
Qed.

Lemma monotonicity_totals_none (traces : list (string * list Sanity.Event)) :
  Forall (fun item =>
            Sanity.check_timestamp_monotonicity (snd item) = Ok (true, 0))
         traces ->
  Sanity.monotonicity_totals traces = Ok (0, 0).
Proof.
  unfold Sanity.monotonicity_totals. intros H.
  generalize 0 at 1 3. generalize 0 at 1 2. intros tv nm. revert nm tv.
  induction H as [|item rest Hitem Hrest IH]; intros nm tv; [reflexivity|].
  cbn [for_each]. rewrite Hitem. cbn [bind negb]. apply IH.
Qed.

(** X26: on the lines that the generator's [main] prints, the sanity
    script finds as many sessions as were asked for, no parent-child
    relationship and no session of fewer than 3 events. *)
Theorem main_output_sanity_report
        (variant : string) (sessions turns : Z) (noise : string) (r : random) :
  let events :=
    List.concat (sessions_from (Z.to_nat sessions) 0 variant turns noise r) in
  let traces := Sanity.group_by_trace (map printed_sanity events) in
  main variant sessions turns noise r = map to_json events
  /\ List.length traces = Z.to_nat sessions
  /\ Sanity.fanout_histogram traces = []
  /\ Sanity.detect_short_sessions traces 3 = [].
Proof.
  intros events traces. subst events traces.
  split; [apply main_from_sessions|].
  rewrite sanity_main_traces.
  pose proof (sessions_from_shape (Z.to_nat sessions) 0 variant turns noise r)
    as Hshape.
  split; [|split].
  - rewrite length_combine, !length_map, range_from_length,
      sessions_from_length.
    apply Nat.min_id.
  - apply fanout_histogram_none.
    refine (combine_Forall _ (fun evs => Sanity.compute_span_fanout evs = [])
                           (map printed_sanity) _ _ _ Hshape).
    intros tid s _. unfold Sanity.compute_span_fanout.
    rewrite fanout_as_keys, parents_printed. reflexivity.
  - apply short_sessions_none.
    refine (combine_Forall _ (fun evs => (3 <= List.length evs)%nat)
                           (map printed_sanity) _ _ _ Hshape).
    intros tid s [_ Hlen]. rewrite length_map. exact Hlen.
Qed.

Lemma Forall2_with_In {B C : Type} (P : B -> C -> Prop) (ids : list B)
      (ss : list C) :
  Forall2 P ids ss -> Forall2 (fun tid s => P tid s /\ In s ss) ids ss.
Proof.
  intros H. induction H as [|tid s ids ss Hs Hrest IH]; constructor.
  - split; [exact Hs|left; reflexivity].
  - revert IH. apply Forall2_impl. intros a b [Hp Hin].
    split; [exact Hp|right; exact Hin].
Qed.

(** X27: when [fromisoformat] reads back the times that the generator
    prints, the timestamp report of the sanity script on the output of
    the generator's [main] counts no session with violations and no
    violation. *)
Theorem main_output_monotonic
        (variant : string) (sessions turns : Z) (noise : string) (r : random) :
  (forall ev,
      In ev (List.concat
               (sessions_from (Z.to_nat sessions) 0 variant turns noise r)) ->
      fromisoformat (isoformat_ms (timestamp ev)) = Some (timestamp ev)) ->
  Sanity.monotonicity_totals
    (Sanity.group_by_trace
       (map printed_sanity
            (List.concat
               (sessions_from (Z.to_nat sessions) 0 variant turns noise r))))
  = Ok (0, 0).
Proof.
  intros Hround. rewrite sanity_main_traces.
  apply monotonicity_totals_none.
  pose proof (Forall2_with_In
                _ _ _
                (sessions_from_shape (Z.to_nat sessions) 0
                                     variant turns noise r)) as Hshape.
  refine (combine_Forall
            _ (fun evs => Sanity.check_timestamp_monotonicity evs
                          = Ok (true, 0))
            (map printed_sanity) _ _ _ Hshape).
  intros tid s [[Hs _] Hin]. apply (session_monotonic tid s Hs).
  intros ev Hev. apply Hround. apply in_concat. exists s. tauto.
Qed.

Lemma simple_loop_session_metrics (i : Z) (r : random) :
  let events := map printed (fst (generate_simple_correction_loop_session i r)) in
  relapse_scan events false false = (true, false)
  /\ session_distances events = Ok [2]
  /\ classify_session_closure events = "completed_after_correction".
Proof.
  cbv beta iota zeta delta
      [generate_simple_correction_loop_session emit
       draw randint _base_start_time
       rng ts span_counter draws position fst snd map printed to_json
       timestamp trace_id span_id component event_type execution_stage
       payload].
  repeat split.
Qed.

Lemma simple_loop_sessions (n : nat) :
  forall i turns noise r,
    Forall (fun s => exists j r',
                s = fst (generate_simple_correction_loop_session j r'))
           (sessions_from n i "simple_correction_loop" turns noise r).
Proof.
  induction n as [|n IH]; intros i turns noise r;
    cbn [sessions_from]; [constructor|].
  unfold generate_session at 1. cbn [String.eqb Ascii.eqb Bool.eqb].
  destruct (generate_simple_correction_loop_session i r) as [events r'] eqn:E.
  constructor; [|apply IH].
  exists i, r. rewrite E. reflexivity.
Qed.

Lemma values_combine (ids : list string) (groups : list (list Metrics.Event)) :
  List.length ids = List.length groups ->
  values (combine ids groups) = groups.
Proof.
  revert groups. induction ids as [|tid ids IH]; intros [|g groups] H;
    try discriminate; [reflexivity|].
  cbn [combine values map snd]. f_equal. apply IH.
  cbn [List.length] in H. lia.
Qed.

Lemma relapse_fold_corrected (sessions : list (list Metrics.Event)) :
  Forall (fun evs => relapse_scan evs false false = (true, false)) sessions ->
  count session_had_correction sessions = Z.of_nat (List.length sessions)
  /\ count (fun evs => session_had_correction evs && session_relapsed evs)
           sessions = 0.
Proof.
  unfold count. intros H. induction H as [|evs rest Hevs Hrest [IH1 IH2]];
    [split; reflexivity|].
  assert (Hc : session_had_correction evs = true)
    by (unfold session_had_correction; rewrite Hevs; reflexivity).
  assert (Hr : session_relapsed evs = false)
    by (unfold session_relapsed; rewrite Hevs; reflexivity).
  cbn [filter]. rewrite Hc, Hr. cbn [andb List.length].
  split; [lia|exact IH2].
Qed.

Lemma machine_distances_each (d : Z) (sessions : list (list Metrics.Event)) :
  Forall (fun evs => session_distances evs = Ok [d]) sessions ->
  machine_distances sessions = Ok (repeat d (List.length sessions)).
Proof.
  intros H. induction H as [|evs rest Hevs Hrest IH]; [reflexivity|].
  cbn [machine_distances List.length repeat]. rewrite Hevs, IH. reflexivity.
Qed.

Lemma profile_fold_one (label : string) (sessions : list (list Metrics.Event)) :
  Forall (fun evs => classify_session_closure evs = label) sessions ->
  forall n,
    fold_left
      (fun counts events =>
         incr String.eqb counts (classify_session_closure events))
      sessions [(label, n)]
    = [(label, n + Z.of_nat (List.length sessions))].
Proof.
  intros H. induction H as [|evs rest Hevs Hrest IH]; intros n.
  - cbn. rewrite Z.add_0_r. reflexivity.
  - cbn [fold_left incr]. rewrite Hevs, String.eqb_refl, IH.
    cbn [List.length]. do 2 f_equal. lia.
Qed.

(** X28: read by the metrics script, the output of the generator's
    [main] for [n] sessions of the simple correction loop gives [n]
    sessions with correction and none with relapse, one recovery
    episode of distance 2 per session, and the single closure
    [completed_after_correction], counted [n] times. *)
Theorem simple_correction_loop_run_metrics
        (sessions turns : Z) (noise : string) (r : random) :
  exists events,
    Metrics.load_events
      (map Metrics.Parsed
           (main "simple_correction_loop" sessions turns noise r)) None
    = Ok events
    /\ List.length (Metrics.group_by_trace events) = Z.to_nat sessions
    /\ compute_post_correction_relapse_rate (Metrics.group_by_trace events)
       = (0, Z.max 0 sessions)
    /\ compute_recovery_turn_distances (Metrics.group_by_trace events)
       = Ok (repeat 2 (Z.to_nat sessions))
    /\ compute_session_closure_profile (Metrics.group_by_trace events)
       = if sessions <=? 0 then []
         else [("completed_after_correction", sessions)].
Proof.
  eexists. split.
  { unfold main. rewrite main_from_sessions, map_map. apply load_printed. }
  unfold Metrics.group_by_trace. rewrite group_fold_append_item.
  rewrite (fold_blocks Metrics.trace_id printed (fun ev => eq_refl)
                       _ _ (sessions_from_blocks _ _ _ _ _ _) [])
    by (apply session_ids_NoDup; lia).
  cbn [app].
  pose proof (simple_loop_sessions (Z.to_nat sessions) 0 turns noise r) as Hs.
  pose proof (sessions_from_length (Z.to_nat sessions) 0
                                   "simple_correction_loop" turns noise r)
    as Hlen.
  revert Hs Hlen.
  generalize (sessions_from (Z.to_nat sessions) 0
                            "simple_correction_loop" turns noise r).
  intros ss Hs Hlen.
  assert (Hvalues :
            values (combine (map (session_id "simple_correction_loop")
                                 (range_from (Z.to_nat sessions) 0))
                            (map (map printed) ss))
            = map (map printed) ss).
  { apply values_combine.
    rewrite !length_map, range_from_length. symmetry. exact Hlen. }
  assert (Hn : List.length (map (map printed) ss) = Z.to_nat sessions)
    by (rewrite length_map; exact Hlen).
  assert (Hall : Forall (fun evs =>
                           relapse_scan evs false false = (true, false)
                           /\ session_distances evs = Ok [2]
                           /\ classify_session_closure evs
                              = "completed_after_correction")
                        (map (map printed) ss)).
  { apply Forall_map. revert Hs. apply Forall_impl.
    intros s (j & r' & ->). apply simple_loop_session_metrics. }
  split; [|split; [|split]].
  - rewrite length_combine, !length_map, range_from_length, Hlen.
    apply Nat.min_id.
  - unfold compute_post_correction_relapse_rate.
    rewrite relapse_fold, Hvalues.
    destruct (relapse_fold_corrected (map (map printed) ss)) as [H1 H2].
    { revert Hall. apply Forall_impl. tauto. }
    rewrite H1, H2, Hn. f_equal. lia.
  - unfold compute_recovery_turn_distances.
    rewrite recovery_sessions, Hvalues, (machine_distances_each 2).
    + rewrite Hn. reflexivity.
    + revert Hall. apply Forall_impl. tauto.
  - unfold compute_session_closure_profile. rewrite Hvalues.
    destruct (map (map printed) ss) as [|evs rest] eqn:E.
    + cbn [List.length] in Hn.
      replace (sessions <=? 0) with true by (symmetry; apply Z.leb_le; lia).
      reflexivity.
    + apply Forall_cons_iff in Hall as [(_ & _ & Hevs) Hrest].
      cbn [fold_left incr]. rewrite Hevs.
      rewrite (profile_fold_one "completed_after_correction").
      * cbn [List.length] in Hn.
        replace (sessions <=? 0) with false by (symmetry; apply Z.leb_gt; lia).
        do 2 f_equal. lia.
      * revert Hrest. apply Forall_impl. tauto.
Qed.

End MainOutput.

(* ====================================================================== *)
(** * The further results on the example records *)
(* ====================================================================== *)

Lemma accessors_raise_only_overflow_witness :
  latency_ms (rt := Plain.runtime) Examples.huge_latency = Raise OverflowError
  /\ exists z s,
       dict_get (payload Examples.huge_latency) "latency_ms" = JInt z
       /\ float_of_Z z = S754_infinity s.
Proof.
  split; [reflexivity|].
  apply (proj1 (proj1 (accessors_raise_only_overflow
                         (rt := Plain.runtime) Examples.huge_latency)
                      OverflowError)).
  reflexivity.
Defined.

Lemma gaps_not_negative_witness :
  exists gaps,
    compute_relative_latency_gaps (rt := Plain.runtime) Examples.latency_traces
    = Ok gaps
    /\ Forall not_negative gaps.
Proof.
  eexists. split; [reflexivity|].
  apply (gaps_not_negative (rt := Plain.runtime) Examples.latency_traces).
  reflexivity.
Defined.

Lemma recovery_episodes_bounded_witness :
  compute_recovery_turn_distances
    (rt := Plain.runtime) [("s", Examples.recovery_session)] = Ok [3; 0]
  /\ 2 <= count (is_drift_like (rt := Plain.runtime)) Examples.recovery_session
  /\ 2 <= count is_recovered Examples.recovery_session.
Proof.
  split; [reflexivity|].
  apply (recovery_episodes_bounded
           (rt := Plain.runtime) [("s", Examples.recovery_session)] [3; 0]).
  reflexivity.
Defined.

Lemma load_events_failures_witness :
  only_objects Examples.three_sessions_file = true
  /\ first_raised Examples.three_sessions_file = None
  /\ exists evs,
       load_events (rt := Plain.runtime) Examples.three_sessions_file (Some 2)
       = Ok evs.
Proof.
  split; [reflexivity|].
  apply (proj2 (proj2 (load_events_failures
                         (rt := Plain.runtime)
                         Examples.three_sessions_file (Some 2)))).
  reflexivity.
Defined.

Lemma short_sessions_of_file_witness :
  Sanity.detect_short_sessions
    (Sanity.group_by_trace (rt := Plain.runtime) Examples.out_of_order) 1
  = [].
Proof.
  apply (proj2 (short_sessions_of_file
                  (rt := Plain.runtime) Examples.out_of_order 1)).
  lia.
Defined.

Lemma monotonicity_bounds_witness :
  Sanity.check_timestamp_monotonicity
    (rt := Plain.runtime) Examples.out_of_order = Ok (false, 1)
  /\ 0 <= 1 <= Z.max 0
                   (Z.of_nat
                      (List.length
                         (parsed_timestamps (rt := Plain.runtime)
                                            Examples.out_of_order)) - 1)
  /\ (false = true <-> 1 = 0).
Proof.
  split; [vm_compute; reflexivity|].
  apply (monotonicity_bounds (rt := Plain.runtime) Examples.out_of_order).
  vm_compute. reflexivity.
Defined.

Lemma monotonic_iff_nondecreasing_witness :
  Forall naive (parsed_timestamps (rt := Plain.runtime) Examples.out_of_order)
  /\ exists v,
       Sanity.check_timestamp_monotonicity
         (rt := Plain.runtime) Examples.out_of_order = Ok (v =? 0, v)
       /\ (v = 0 <-> nondecreasing
                       (parsed_timestamps (rt := Plain.runtime)
                                          Examples.out_of_order)).
Proof.
  assert (H : Forall naive (parsed_timestamps (rt := Plain.runtime)
                                              Examples.out_of_order))
    by (vm_compute; repeat constructor).
  split; [exact H|].
  exact (monotonic_iff_nondecreasing
           (rt := Plain.runtime) Examples.out_of_order H).
Defined.

Lemma monotonicity_fails_only_on_mixed_offsets_witness :
  Sanity.check_timestamp_monotonicity
    (rt := Examples.with_offsets) Examples.mixed_offsets = Raise TypeError
  /\ (exists a,
         In a (parsed_timestamps (rt := Examples.with_offsets)
                                 Examples.mixed_offsets)
         /\ dt_utcoffset a = None)
  /\ (exists b,
         In b (parsed_timestamps (rt := Examples.with_offsets)
                                 Examples.mixed_offsets)
         /\ dt_utcoffset b <> None).
Proof.
  split; [vm_compute; reflexivity|].
  apply (monotonicity_fails_only_on_mixed_offsets
           (rt := Examples.with_offsets) Examples.mixed_offsets TypeError).
  vm_compute. reflexivity.
Defined.

Lemma monotonicity_totals_ordered_witness :
  Sanity.monotonicity_totals
    (rt := Plain.runtime)
    [("s", Examples.out_of_order); ("t", [Examples.stamped "never"])]
  = Ok (1, 1)
  /\ 0 <= 1 <= 1 /\ 1 <= 2 /\ (1 = 0 <-> 1 = 0).
Proof.
  split; [vm_compute; reflexivity|].
  apply (monotonicity_totals_ordered
           (rt := Plain.runtime)
           [("s", Examples.out_of_order); ("t", [Examples.stamped "never"])]
           1 1).
  vm_compute. reflexivity.
Defined.

Lemma generated_sessions_monotonic_witness :
  (forall ev,
      In ev (fst (Generator.generate_session
                    "simple_correction_loop" 0 30 "medium" Examples.sevens)) ->
      Plain.fromisoformat (Plain.isoformat_ms (Generator.timestamp ev))
      = Some (Generator.timestamp ev))
  /\ Sanity.check_timestamp_monotonicity
       (rt := Plain.runtime)
       (map (printed_sanity (rt := Plain.runtime))
            (fst (Generator.generate_session
                    "simple_correction_loop" 0 30 "medium" Examples.sevens)))
     = Ok (true, 0).
Proof.
  assert (H : forall ev,
             In ev (fst (Generator.generate_session
                           "simple_correction_loop" 0 30 "medium"
                           Examples.sevens)) ->
             Plain.fromisoformat (Plain.isoformat_ms (Generator.timestamp ev))
             = Some (Generator.timestamp ev)).
  { let events :=
      eval vm_compute in
        (fst (Generator.generate_session
                "simple_correction_loop" 0 30 "medium" Examples.sevens)) in
    assert (E : fst (Generator.generate_session
                       "simple_correction_loop" 0 30 "medium" Examples.sevens)
                = events) by (vm_compute; reflexivity).
    rewrite E. intros ev Hin.
    repeat (destruct Hin as [<-|Hin]; [vm_compute; reflexivity|]).
    destruct Hin. }
  split; [exact H|].
  exact (generated_sessions_monotonic
           (rt := Plain.runtime)
           "simple_correction_loop" 0 30 "medium" Examples.sevens H).
Defined.

Lemma main_output_monotonic_witness :
  (forall ev,
      In ev (List.concat
               (sessions_from (Z.to_nat 2) 0 "noisy_mixed" 30 "high"
                              Examples.sevens)) ->
      Plain.fromisoformat (Plain.isoformat_ms (Generator.timestamp ev))
      = Some (Generator.timestamp ev))
  /\ Sanity.monotonicity_totals
       (rt := Plain.runtime)
       (Sanity.group_by_trace
          (rt := Plain.runtime)
          (map (printed_sanity (rt := Plain.runtime))
               (List.concat
                  (sessions_from (Z.to_nat 2) 0 "noisy_mixed" 30 "high"
                                 Examples.sevens))))
     = Ok (0, 0).
Proof.
  assert (H : forall ev,
             In ev (List.concat
                      (sessions_from (Z.to_nat 2) 0 "noisy_mixed" 30 "high"
                                     Examples.sevens)) ->
             Plain.fromisoformat (Plain.isoformat_ms (Generator.timestamp ev))
             = Some (Generator.timestamp ev)).
  { let events :=
      eval vm_compute in
        (List.concat
           (sessions_from (Z.to_nat 2) 0 "noisy_mixed" 30 "high"
                          Examples.sevens)) in
    assert (E : List.concat
                  (sessions_from (Z.to_nat 2) 0 "noisy_mixed" 30 "high"
                                 Examples.sevens)
                = events) by (vm_compute; reflexivity).
    rewrite E. intros ev Hin.
    repeat (destruct Hin as [<-|Hin]; [vm_compute; reflexivity|]).
    destruct Hin. }
  split; [exact H|].
  exact (main_output_monotonic
           (rt := Plain.runtime) "noisy_mixed" 2 30 "high" Examples.sevens H).
Defined.
